(** * The compliance agent's orchestration graph

    A shallow embedding of the LangGraph pipeline of the backend
    ([agent/nodes.py], [agent/graph.py], [agent/state.py],
    [agent/llm_client.py], [agent/router.py], [agent/schemas.py],
    [governance/engine.py], [retrieval/context_builder.py],
    [agent/tools.py]) and the properties of its stages, routers and
    executor.

    Conventions of the embedding:
    - Python [str] is [string]; the text is taken to be ASCII, so that
      [str.lower] only moves ['A'..'Z'] and [str.split] cuts at the ASCII
      white space characters.  A statement whose truth depends on this
      assumes [is_ascii] of the text it reads.
    - Python [int] is [Z]; a [float] is the rational it denotes ([Q]); the
      code only copies and compares floats.
    - A [dict] with string keys is an association list in insertion order.
    - Every stage returns a partial update; the executor merges it.
    - The generative backend, the retrieval index, the corpus file, the
      rule check of the validator and Python's text rendering of lists are
      collaborators: every result below holds for all of them. *)

From Stdlib Require Import ZArith QArith List String Ascii Bool Lia Arith.
From Stdlib Require Import Numbers.DecimalString.
From Stdlib Require Import Sorting.Sorted Sorting.Permutation.
Import ListNotations.

Local Open Scope bool_scope.
Local Open Scope list_scope.
Local Open Scope string_scope.
Local Open Scope Z_scope.

(* ================================================================== *)
(** * Python text primitives *)
(* ================================================================== *)

Module PyStr.

(** [c.lower()] on one ASCII character; other bytes are left alone. *)
Definition lower_ascii (c : ascii) : ascii :=
  let n := nat_of_ascii c in
  if (Nat.leb 65 n && Nat.leb n 90)%bool then ascii_of_nat (n + 32) else c.

(** [s.lower()] *)
Fixpoint lower (s : string) : string :=
  match s with
  | EmptyString => EmptyString
  | String c t => String (lower_ascii c) (lower t)
  end.

(** [hay.startswith(needle)] *)
Fixpoint starts_with (needle hay : string) : bool :=
  match needle, hay with
  | EmptyString, _ => true
  | String a n', String b h' => Ascii.eqb a b && starts_with n' h'
  | String _ _, EmptyString => false
  end.

(** [needle in hay] *)
Fixpoint str_in (needle hay : string) : bool :=
  starts_with needle hay ||
  match hay with
  | EmptyString => false
  | String _ t => str_in needle t
  end.

(** [any(k in hay for k in keys)] *)
Definition any_in (keys : list string) (hay : string) : bool :=
  existsb (fun k => str_in k hay) keys.

(** The ASCII characters [str.split()] and [str.strip()] cut at. *)
Definition is_space (c : ascii) : bool :=
  let n := nat_of_ascii c in
  (Nat.leb 9 n && Nat.leb n 13) || (Nat.leb 28 n && Nat.leb n 32).

(** [s.split()]: [cur] is the word being read, in reading order. *)
Fixpoint split_from (cur : string) (s : string) : list string :=
  match s with
  | EmptyString => match cur with EmptyString => [] | _ => [cur] end
  | String c t =>
      if is_space c
      then match cur with
           | EmptyString => split_from EmptyString t
           | _ => cur :: split_from EmptyString t
           end
      else split_from (cur ++ String c EmptyString) t
  end.

Definition split (s : string) : list string := split_from EmptyString s.

(** [sep.join(parts)] *)
Definition join (sep : string) (parts : list string) : string :=
  String.concat sep parts.

(** [s[:n]] *)
Definition take (n : nat) (s : string) : string := String.substring 0 n s.

(** [str(n)] for an [int]. *)
Definition of_int (n : Z) : string := NilEmpty.string_of_int (Z.to_int n).

(** [a < b] on [str]: code point order. *)
Fixpoint ltb (a b : string) : bool :=
  match a, b with
  | EmptyString, EmptyString => false
  | EmptyString, String _ _ => true
  | String _ _, EmptyString => false
  | String x a', String y b' =>
      let nx := nat_of_ascii x in
      let ny := nat_of_ascii y in
      if Nat.ltb nx ny then true
      else if Nat.ltb ny nx then false
      else ltb a' b'
  end.

End PyStr.

(* ================================================================== *)
(** * Python values: dicts as the stages exchange them *)
(* ================================================================== *)

#[local] Set Warnings "-register-all".

Inductive pyval : Type :=
| VNone
| VBool (b : bool)
| VInt (z : Z)
| VFloat (q : Q)
| VStr (s : string)
| VList (l : list pyval)
| VDict (d : list (string * pyval)).

Definition dict : Type := list (string * pyval).

Module Dict.

(** [d.get(k)] *)
Fixpoint get (k : string) (d : dict) : option pyval :=
  match d with
  | [] => None
  | (k', v) :: rest => if String.eqb k k' then Some v else get k rest
  end.

(** [d[k] = v]: an existing key keeps its place. *)
Fixpoint set (k : string) (v : pyval) (d : dict) : dict :=
  match d with
  | [] => [(k, v)]
  | (k', v') :: rest =>
      if String.eqb k k' then (k', v) :: rest else (k', v') :: set k v rest
  end.

(** [{**d, **e}] *)
Definition update (d e : dict) : dict :=
  fold_left (fun acc kv => set (fst kv) (snd kv) acc) e d.

(** [k in d] *)
Definition mem (k : string) (d : dict) : bool :=
  match get k d with Some _ => true | None => false end.

End Dict.

(* ================================================================== *)
(** * [agent/schemas.py] *)
(* ================================================================== *)

Inductive RiskLevel : Type := LOW | MEDIUM | HIGH | CRITICAL.

(** [member.value] *)
Definition RiskLevel_value (r : RiskLevel) : string :=
  match r with
  | LOW => "low"
  | MEDIUM => "medium"
  | HIGH => "high"
  | CRITICAL => "critical"
  end.

(** [RiskLevel(value)], for a value already in lower case. *)
Definition RiskLevel_of_value (v : string) : option RiskLevel :=
  if String.eqb v "low" then Some LOW
  else if String.eqb v "medium" then Some MEDIUM
  else if String.eqb v "high" then Some HIGH
  else if String.eqb v "critical" then Some CRITICAL
  else None.

Definition RiskLevel_eqb (a b : RiskLevel) : bool :=
  match a, b with
  | LOW, LOW | MEDIUM, MEDIUM | HIGH, HIGH | CRITICAL, CRITICAL => true
  | _, _ => false
  end.

Record ClarificationOption : Type := mkClarificationOption {
  opt_id : string;
  opt_text : string;
  opt_rank : Z
}.

Record ClarificationResponse : Type := mkClarificationResponse {
  cl_needs_clarification : bool;
  cl_summary : string;
  cl_options : list ClarificationOption
}.

Record ReasoningMapEntry : Type := mkReasoningMapEntry {
  fact : string;
  legal_meaning : string;
  gdpr_subsection : string;
  justification : string
}.

Record ComplianceResponse : Type := mkComplianceResponse {
  summary : string;
  needs_clarification : bool;
  missing_preconditions : list string;
  legal_basis : string;
  scope_limitation : string;
  risk_analysis : string;
  risk_level : RiskLevel;
  confidence_score : Q;
  references : option (list string);
  reasoning_map : list ReasoningMapEntry
}.

(** Field assignment on a response object ([response.f = v]). *)
Definition set_risk_level (v : RiskLevel) (r : ComplianceResponse) :=
  mkComplianceResponse (summary r) (needs_clarification r)
    (missing_preconditions r) (legal_basis r) (scope_limitation r)
    (risk_analysis r) v (confidence_score r) (references r) (reasoning_map r).

Definition set_confidence_score (v : Q) (r : ComplianceResponse) :=
  mkComplianceResponse (summary r) (needs_clarification r)
    (missing_preconditions r) (legal_basis r) (scope_limitation r)
    (risk_analysis r) (risk_level r) v (references r) (reasoning_map r).

Definition set_legal_basis (v : string) (r : ComplianceResponse) :=
  mkComplianceResponse (summary r) (needs_clarification r)
    (missing_preconditions r) v (scope_limitation r)
    (risk_analysis r) (risk_level r) (confidence_score r) (references r)
    (reasoning_map r).

Definition set_scope_limitation (v : string) (r : ComplianceResponse) :=
  mkComplianceResponse (summary r) (needs_clarification r)
    (missing_preconditions r) (legal_basis r) v
    (risk_analysis r) (risk_level r) (confidence_score r) (references r)
    (reasoning_map r).

Definition set_summary (v : string) (r : ComplianceResponse) :=
  mkComplianceResponse v (needs_clarification r)
    (missing_preconditions r) (legal_basis r) (scope_limitation r)
    (risk_analysis r) (risk_level r) (confidence_score r) (references r)
    (reasoning_map r).

Module Schema.

Definition dump_strs (l : list string) : pyval := VList (map VStr l).

(** [ClarificationOption.model_dump()] *)
Definition dump_option (o : ClarificationOption) : dict :=
  [("id", VStr (opt_id o)); ("text", VStr (opt_text o));
   ("rank", VInt (opt_rank o))].

(** [ReasoningMapEntry.model_dump()] *)
Definition dump_entry (e : ReasoningMapEntry) : dict :=
  [("fact", VStr (fact e)); ("legal_meaning", VStr (legal_meaning e));
   ("gdpr_subsection", VStr (gdpr_subsection e));
   ("justification", VStr (justification e))].

(** [ComplianceResponse.model_dump()]: one key per declared field, in
    declaration order. *)
Definition model_dump (r : ComplianceResponse) : dict :=
  [("summary", VStr (summary r));
   ("needs_clarification", VBool (needs_clarification r));
   ("missing_preconditions", dump_strs (missing_preconditions r));
   ("legal_basis", VStr (legal_basis r));
   ("scope_limitation", VStr (scope_limitation r));
   ("risk_analysis", VStr (risk_analysis r));
   ("risk_level", VStr (RiskLevel_value (risk_level r)));
   ("confidence_score", VFloat (confidence_score r));
   ("references",
     match references r with
     | None => VNone
     | Some l => dump_strs l
     end);
   ("reasoning_map", VList (map (fun e => VDict (dump_entry e)) (reasoning_map r)))].

(** Reading the fields back: the constructor [ComplianceResponse] applied
    to the unpacked dict.  The reader is
    strict about shapes: it takes the values [model_dump] writes, the
    two documented normalisations (a risk level in any letter case, a
    legal basis given as a list) and the declared defaults; a value of
    another type makes the dict unparseable. *)

Definition get_str (k : string) (d : dict) : option string :=
  match Dict.get k d with Some (VStr s) => Some s | _ => None end.

Fixpoint read_strs (l : list pyval) : option (list string) :=
  match l with
  | [] => Some []
  | VStr s :: rest =>
      match read_strs rest with Some r => Some (s :: r) | None => None end
  | _ :: _ => None
  end.

(** [validate_single_subsection] *)
Definition validate_single_subsection (v : string) : bool :=
  negb (PyStr.str_in "," v || PyStr.str_in " and " (PyStr.lower v)).

Definition parse_entry (v : pyval) : option ReasoningMapEntry :=
  match v with
  | VDict d =>
      match get_str "fact" d, get_str "legal_meaning" d,
            get_str "gdpr_subsection" d, get_str "justification" d with
      | Some f, Some m, Some s, Some j =>
          if validate_single_subsection s
          then Some (mkReasoningMapEntry f m s j) else None
      | _, _, _, _ => None
      end
  | _ => None
  end.

Fixpoint parse_entries (l : list pyval) : option (list ReasoningMapEntry) :=
  match l with
  | [] => Some []
  | v :: rest =>
      match parse_entry v, parse_entries rest with
      | Some e, Some r => Some (e :: r)
      | _, _ => None
      end
  end.

(** [normalize_legal_basis] followed by the [str] check. *)
Definition parse_legal_basis (d : dict) : option string :=
  match Dict.get "legal_basis" d with
  | Some (VStr s) => Some s
  | Some (VList l) =>
      match read_strs l with
      | Some parts => Some (PyStr.join ", " parts)
      | None => None
      end
  | _ => None
  end.

(** [normalize_risk_level] followed by the enum lookup. *)
Definition parse_risk_level (d : dict) : option RiskLevel :=
  match Dict.get "risk_level" d with
  | Some (VStr s) => RiskLevel_of_value (PyStr.lower s)
  | _ => None
  end.

Definition in_unit_interval (q : Q) : bool :=
  Qle_bool 0%Q q && Qle_bool q 1%Q.

(** [confidence_score]: default 0.5, [ge=0.0], [le=1.0]. *)
Definition parse_confidence (d : dict) : option Q :=
  match Dict.get "confidence_score" d with
  | None => Some (1 # 2)%Q
  | Some (VFloat q) => if in_unit_interval q then Some q else None
  | Some _ => None
  end.

Definition parse_needs_clarification (d : dict) : option bool :=
  match Dict.get "needs_clarification" d with
  | None => Some false
  | Some (VBool b) => Some b
  | Some _ => None
  end.

Definition parse_missing_preconditions (d : dict) : option (list string) :=
  match Dict.get "missing_preconditions" d with
  | None => Some []
  | Some (VList l) => read_strs l
  | Some _ => None
  end.

Definition parse_references (d : dict) : option (option (list string)) :=
  match Dict.get "references" d with
  | None => Some (Some [])
  | Some VNone => Some None
  | Some (VList l) =>
      match read_strs l with Some r => Some (Some r) | None => None end
  | Some _ => None
  end.

Definition parse_reasoning_map (d : dict) : option (list ReasoningMapEntry) :=
  match Dict.get "reasoning_map" d with
  | Some (VList l) => parse_entries l
  | _ => None
  end.

Definition parse (d : dict) : option ComplianceResponse :=
  match get_str "summary" d, parse_needs_clarification d,
        parse_missing_preconditions d, parse_legal_basis d,
        get_str "scope_limitation" d with
  | Some su, Some nc, Some mp, Some lb, Some sl =>
      match get_str "risk_analysis" d, parse_risk_level d,
            parse_confidence d, parse_references d, parse_reasoning_map d with
      | Some ra, Some rl, Some cs, Some rf, Some rm =>
          Some (mkComplianceResponse su nc mp lb sl ra rl cs rf rm)
      | _, _, _, _, _ => None
      end
  | _, _, _, _, _ => None
  end.

(** What the schema's validators guarantee of a constructed response and
    what [parse] demands of a dumped one. *)
Definition well_formed (r : ComplianceResponse) : Prop :=
  in_unit_interval (confidence_score r) = true /\
  Forall (fun e => validate_single_subsection (gdpr_subsection e) = true)
         (reasoning_map r).

End Schema.

(* ================================================================== *)
(** * [governance/decision.py], [governance/engine.py] *)
(* ================================================================== *)

Inductive DecisionStatus : Type := AUTO_APPROVED | REVIEW_REQUIRED | BLOCKED.

Record GovernanceDecision : Type := mkGovernanceDecision {
  status : DecisionStatus;
  reason : string;
  confidence : Q;
  decision_risk_level : string
}.

(** [confidence < 0.75] *)
Definition below_threshold (c : Q) : bool :=
  match Qcompare c (3 # 4)%Q with Lt => true | _ => false end.

Section Governance.

(** [f"{confidence:.2f}"], Python's fixed-point rendering of a float. *)
Variable format_2f : Q -> string.

Definition classify_decision (confidence : Q) (risk_level : string)
    (requires_refusal : bool) : GovernanceDecision :=
  if requires_refusal then
    mkGovernanceDecision BLOCKED
      "Response flagged as policy violation or refusal required."
      confidence risk_level
  else if String.eqb risk_level "critical" then
    mkGovernanceDecision REVIEW_REQUIRED
      "Critical risk topic (e.g., Penalties) mandates human oversight."
      confidence risk_level
  else if below_threshold confidence then
    mkGovernanceDecision REVIEW_REQUIRED
      ("Low model confidence (" ++ format_2f confidence ++ ").")
      confidence risk_level
  else
    mkGovernanceDecision AUTO_APPROVED
      "Confidence and risk levels within safe autonomous limits."
      confidence risk_level.

End Governance.

(* ================================================================== *)
(** * [agent/state.py]: the state container and partial updates *)
(* ================================================================== *)

(** One entry of [messages]: [{"role": .., "content": ..}], with a
    ["name"] on tool results. *)
Record Message : Type := mkMessage {
  role : string;
  content : string;
  name : option string
}.

Definition msg (r c : string) : Message := mkMessage r c None.

(** One entry of [tool_calls]; a key may be missing. *)
Record ToolCall : Type := mkToolCall {
  tc_name : option string;
  tc_arguments : option dict
}.

Record AgentState : Type := mkAgentState {
  messages : list Message;
  user_query : string;
  domain : string;
  retrieved_context : string;
  analysis : option dict;
  validation_errors : list string;
  retry_count : Z;
  route : string;
  tool_calls : list ToolCall;
  final_response : option dict;
  thread_id : string;
  clarification_options : option (list dict);
  user_selections : option (list string)
}.

(** The dict a stage returns: only the keys it writes. *)
Record Update : Type := mkUpdate {
  u_messages : option (list Message);
  u_retrieved_context : option string;
  u_analysis : option dict;
  u_validation_errors : option (list string);
  u_retry_count : option Z;
  u_route : option string;
  u_tool_calls : option (list ToolCall);
  u_final_response : option dict;
  u_clarification_options : option (list dict)
}.

(** [{}] *)
Definition no_update : Update :=
  mkUpdate None None None None None None None None None.

Definition with_messages (v : list Message) (u : Update) : Update :=
  mkUpdate (Some v) (u_retrieved_context u) (u_analysis u)
    (u_validation_errors u) (u_retry_count u) (u_route u) (u_tool_calls u)
    (u_final_response u) (u_clarification_options u).

Definition with_retrieved_context (v : string) (u : Update) : Update :=
  mkUpdate (u_messages u) (Some v) (u_analysis u)
    (u_validation_errors u) (u_retry_count u) (u_route u) (u_tool_calls u)
    (u_final_response u) (u_clarification_options u).

Definition with_analysis (v : dict) (u : Update) : Update :=
  mkUpdate (u_messages u) (u_retrieved_context u) (Some v)
    (u_validation_errors u) (u_retry_count u) (u_route u) (u_tool_calls u)
    (u_final_response u) (u_clarification_options u).

Definition with_validation_errors (v : list string) (u : Update) : Update :=
  mkUpdate (u_messages u) (u_retrieved_context u) (u_analysis u)
    (Some v) (u_retry_count u) (u_route u) (u_tool_calls u)
    (u_final_response u) (u_clarification_options u).

Definition with_retry_count (v : Z) (u : Update) : Update :=
  mkUpdate (u_messages u) (u_retrieved_context u) (u_analysis u)
    (u_validation_errors u) (Some v) (u_route u) (u_tool_calls u)
    (u_final_response u) (u_clarification_options u).

Definition with_route (v : string) (u : Update) : Update :=
  mkUpdate (u_messages u) (u_retrieved_context u) (u_analysis u)
    (u_validation_errors u) (u_retry_count u) (Some v) (u_tool_calls u)
    (u_final_response u) (u_clarification_options u).

Definition with_tool_calls (v : list ToolCall) (u : Update) : Update :=
  mkUpdate (u_messages u) (u_retrieved_context u) (u_analysis u)
    (u_validation_errors u) (u_retry_count u) (u_route u) (Some v)
    (u_final_response u) (u_clarification_options u).

Definition with_final_response (v : dict) (u : Update) : Update :=
  mkUpdate (u_messages u) (u_retrieved_context u) (u_analysis u)
    (u_validation_errors u) (u_retry_count u) (u_route u) (u_tool_calls u)
    (Some v) (u_clarification_options u).

Definition with_clarification_options (v : list dict) (u : Update) : Update :=
  mkUpdate (u_messages u) (u_retrieved_context u) (u_analysis u)
    (u_validation_errors u) (u_retry_count u) (u_route u) (u_tool_calls u)
    (u_final_response u) (Some v).

Definition or_else {A : Type} (o : option A) (d : A) : A :=
  match o with Some a => a | None => d end.

(** The executor's merge: [messages] is declared with [operator.add] and
    accumulates; every other key is replaced when the update has it. *)
Definition merge (s : AgentState) (u : Update) : AgentState :=
  mkAgentState
    (match u_messages u with
     | Some m => (messages s ++ m)%list
     | None => messages s
     end)
    (user_query s)
    (domain s)
    (or_else (u_retrieved_context u) (retrieved_context s))
    (match u_analysis u with Some a => Some a | None => analysis s end)
    (or_else (u_validation_errors u) (validation_errors s))
    (or_else (u_retry_count u) (retry_count s))
    (or_else (u_route u) (route s))
    (or_else (u_tool_calls u) (tool_calls s))
    (match u_final_response u with
     | Some f => Some f
     | None => final_response s
     end)
    (thread_id s)
    (match u_clarification_options u with
     | Some o => Some o
     | None => clarification_options s
     end)
    (user_selections s).

(** [initial_state] of [run_graph] / [stream_graph]; [history] is what the
    checkpoint of the thread already holds in [messages]. *)
Definition initial_state (history : list Message) (user_query domain thread_id : string)
    (user_selections : option (list string)) : AgentState :=
  mkAgentState history user_query domain "" None [] 0 "" [] None thread_id
    None user_selections.

(* ================================================================== *)
(** * External calls: what a turn can observe of its collaborators *)
(* ================================================================== *)

(** Which schema a generative call asks for ([response_model]). *)
Inductive Schema_kind : Type :=
| Unstructured
| AsClarification
| AsCompliance.

(** The calls a stage makes outside the process, in the order made. *)
Inductive Event : Type :=
| EvCreate (model : string) (kind : Schema_kind) (msgs : list Message)
| EvHybridSearch (query : string) (k : Z)
| EvSearchLawsuits (query : string)
| EvTool (tool : string) (arguments : dict).

Definition Log : Type := list Event.

(** A stage either returns or raises ([str(e)] is kept). *)
Inductive outcome (A : Type) : Type :=
| Ok (a : A)
| Raise (e : string).
Arguments Ok {A} a.
Arguments Raise {A} e.

(** A computation that makes external calls: it extends the log. *)
Definition M (A : Type) : Type := Log -> outcome A * Log.

Definition ret {A : Type} (a : A) : M A := fun log => (Ok a, log).

Definition raise {A : Type} (e : string) : M A := fun log => (Raise e, log).

Definition bind {A B : Type} (c : M A) (k : A -> M B) : M B :=
  fun log =>
    match c log with
    | (Ok a, log') => k a log'
    | (Raise e, log') => (Raise e, log')
    end.

(** [try: c  except Exception as e: h(e)] *)
Definition try_except {A : Type} (c : M A) (h : string -> M A) : M A :=
  fun log =>
    match c log with
    | (Ok a, log') => (Ok a, log')
    | (Raise e, log') => h e log'
    end.

Declare Scope agent_scope.
Delimit Scope agent_scope with agent.
Notation "x <- c ;; k" := (bind c (fun x => k))
  (at level 61, c at next level, right associativity) : agent_scope.
Local Open Scope agent_scope.

(** An external call: the answer may depend on when it is made (the
    number of calls made before) and on its arguments. *)
Definition call {A : Type} (ev : Event) (answer : nat -> A + string) : M A :=
  fun log =>
    (match answer (List.length log) with
     | inl a => Ok a
     | inr e => Raise e
     end, (log ++ [ev])%list).

(** What instructor hands back for [response_model=ComplianceResponse];
    [node_llm] also provides for a bare [str]. *)
Inductive Structured : Type :=
| Parsed (r : ComplianceResponse)
| Text (s : string).

(** An article of the corpus file [data/processed/gdpr_structured.json]. *)
Record Clause : Type := mkClause {
  clause_id : string;
  clause_text : string
}.

(** [article_id] is a JSON number or string; [str()] is applied on use. *)
Inductive ArticleId : Type :=
| IdInt (z : Z)
| IdStr (s : string).

Definition str_of_id (a : ArticleId) : string :=
  match a with
  | IdInt z => PyStr.of_int z
  | IdStr s => s
  end.

Record Article : Type := mkArticle {
  article_id : ArticleId;
  title : option string;
  clauses : list Clause
}.

(** One hit of [hybrid_search]: the metadata of a clause. *)
Record Hit : Type := mkHit {
  hit_article_id : ArticleId;
  hit_clause_id : string;
  hit_text : string
}.

Record Collaborators : Type := mkCollaborators {
  (** [get_llm_client()]: the model list, or the [ValueError] text when no
      key is configured. *)
  get_llm_client : list string + string;
  (** [chat.completions.create] without a schema: the reply's text. *)
  create_text : string -> list Message -> nat -> string + string;
  (** ... with [response_model=ClarificationResponse]. *)
  create_clarification :
    string -> list Message -> nat -> ClarificationResponse + string;
  (** ... with [response_model=ComplianceResponse]. *)
  create_compliance : string -> list Message -> nat -> Structured + string;
  (** The corpus file. *)
  corpus : list Article;
  (** [ClauseIndexer.hybrid_search] on the index built from the corpus. *)
  hybrid_search : string -> Z -> nat -> list Hit + string;
  (** [LawsuitSearcher.search_lawsuits]. *)
  search_lawsuits : string -> nat -> string + string;
  (** [TOOL_REGISTRY]: name to callable. *)
  tool_registry : list (string * (dict -> nat -> string + string));
  (** [_validate_response], the rule check of the validator. *)
  validate_response : ComplianceResponse -> string -> list string;
  (** [str(e)] of the pydantic error for an unparseable dict. *)
  parse_error_text : dict -> string;
  (** [json.dumps] *)
  json_dumps : dict -> string;
  (** Python's rendering of a list of [str] inside an f-string. *)
  repr_list : list string -> string;
  (** Python's rendering of a dict inside an f-string. *)
  repr_dict : dict -> string;
  (** [f"{x:.2f}"] *)
  format_2f : Q -> string
}.

(* ================================================================== *)
(** * [agent/llm_client.py]: the failover loop *)
(* ================================================================== *)

(** The test that classifies a failure as a schema mismatch, on
    [error_msg = str(e).lower()]. *)
Definition is_schema_mismatch (error_msg : string) : bool :=
  PyStr.str_in "tool call validation failed" error_msg
  || PyStr.str_in "validation error" error_msg.

Section Failover.

Context {A : Type}.
Variable repr : list string -> string.
(** The provider call for one model. *)
Variable create : string -> M A.
(** [len(models)] of the whole list. *)
Variable n_models : nat.

Definition outage_message (errors : list string) : string :=
  "[OUTAGE] SERVICE OUTAGE: All " ++ PyStr.of_int (Z.of_nat n_models)
  ++ " models exhausted. Errors: " ++ repr (firstn 3 errors).

Definition schema_message (error_msg : string) : string :=
  "Schema Validation Error: " ++ error_msg.

(** The [for model in models] loop, entered with the [errors] collected
    so far. *)
Fixpoint failover_loop (models : list string) (errors : list string) : M A :=
  match models with
  | [] => raise (outage_message errors)
  | model :: rest =>
      try_except (create model)
        (fun e =>
           let error_msg := PyStr.lower e in
           if is_schema_mismatch error_msg
           then raise (schema_message error_msg)
           else failover_loop rest (errors ++ [(model ++ ": " ++ e)%string])%list)
  end.

End Failover.

Definition safe_api_call {A : Type} (repr : list string -> string)
    (create : string -> M A) (models : list string) : M A :=
  failover_loop repr create (List.length models) models [].

(* ================================================================== *)
(** * [agent/router.py] *)
(* ================================================================== *)

Definition needs_multi_article_reasoning (query : string) : bool :=
  PyStr.any_in
    ["fine"; "penalty"; "maximum"; "sanction"; "liable"; "consequence"; "breach"]
    (PyStr.lower query).

(* ================================================================== *)
(** * [agent/nodes.py]: the stages *)
(* ================================================================== *)

(** The line feed and the double quote, spliced into literals. *)
Definition nl : string := String (ascii_of_nat 10) EmptyString.
Definition dq : string := String (ascii_of_nat 34) EmptyString.

(** [PROMPTS] *)
Definition PROMPT_GDPR : string :=
    "You are an Agentic Compliance Analyst acting as a Virtual Compliance Officer." ++ nl ++
    "Your primary obligation is legal precision. You MUST follow this reasoning sequence exactly:" ++
    nl ++ nl ++ "STEP 1: IDENTIFY FACTS. List every factual element from the user query." ++ nl ++
    "STEP 2: MAP EACH FACT to a specific GDPR subsection. One fact = one subsection." ++ nl ++
    "STEP 3: FILL the 'reasoning_map' FIRST. This is your ground truth." ++ nl ++
    "   MAPPINGS for Art 83(2): (c)=Mitigation/Actions, (f)=Cooperation, (b)=Intent/Negligence." ++
    nl ++ "   DO NOT cite 83(2)(h) for subject notification." ++ nl ++
    "STEP 4: DERIVE PROSE FROM MAP." ++ nl ++
    "   Your 'summary' and 'legal_basis' MUST only cite subsections that appear in your reasoning_map." ++
    nl ++ "   If a subsection is not in the map, you CANNOT cite it in prose." ++ nl ++
    "STEP 5: SET RISK. Use the number and severity of mapped subsections." ++ nl ++
    "   Definitions = LOW. Breaches = HIGH. Single-article questions = MEDIUM." ++ nl ++ nl ++
    "PRECONDITION MATRIX:" ++ nl ++
    "Before adjudicating, evaluate if the user query provides enough context." ++ nl ++
    "If critical modifiers are missing (encryption status, controller/processor role, data volume)," ++
    nl ++
    "set needs_clarification=True, populate missing_preconditions with specific questions," ++
    nl ++ "and set risk_level to 'medium' with a low confidence_score." ++ nl ++ nl ++
    "Your output MUST be valid JSON matching the ComplianceResponse schema:" ++ nl ++
    "- summary: Legal analysis." ++ nl ++ "- legal_basis: Specific articles cited." ++ nl ++
    "- scope_limitation: Precise limits." ++ nl ++
    "- risk_analysis: Brief justification of risk." ++ nl ++
    "- needs_clarification: true if missing context prevents adjudication." ++ nl ++
    "- missing_preconditions: list of clarifying questions to ask." ++ nl.

Definition PROMPT_FDA : string :=
    "You are a Senior FDA Regulatory Consultant. Your goal is to provide guidance on US Food & Drug Administration regulations and recent legal precedents." ++
    nl ++ nl ++ "Rules of Engagement:" ++ nl ++
    "1. Focus on 21 CFR, FD&C Act, and recent court cases." ++ nl ++
    "2. Use the provided External Search Context to cite real lawsuits." ++ nl ++
    "3. Your output must strictly follow the JSON schema provided." ++ nl.

Definition PROMPT_CCPA : string :=
    "You are a Senior Privacy Counsel specializing in CCPA/CPRA. Your goal is to provide definitive, legally precise classifications based on California Civil Code." ++
    nl ++ nl ++ "Rules of Engagement:" ++ nl ++
    "1. Every claim must cite a specific CCPA section (e.g., §1798.140(v)(1))." ++ nl ++
    "2. 'Selling' and 'Sharing' are DISTINCT legal actions with separate opt-out rights." ++ nl ++
    "3. Always check for statutory exceptions (§1798.145) before classifying risk." ++ nl ++
    "4. RISK CALIBRATION: Informational/Recall questions are LOW RISK. Only actionable selling/sharing is MH/HR." ++
    nl ++ "5. Your output must strictly follow the JSON schema provided." ++ nl.

Definition CLARIFY_PROMPT : string :=
    "You are a regulatory analysis assistant. Given the user's query and the retrieved legal context, determine:" ++
    nl ++
    "1. Is this query CLEAR enough to give a confident regulatory answer? Or does the answer DEPEND on additional context?" ++
    nl ++ nl ++ "A query is CLEAR if:" ++ nl ++ "- It asks about a definition (e.g., " ++ dq ++
    "What is personal data?" ++ dq ++ ")" ++ nl ++
    "- It refers to a specific article or regulation" ++ nl ++
    "- The context provides enough information to answer confidently" ++ nl ++ nl ++
    "A query DEPENDS on context if:" ++ nl ++
    "- The answer varies significantly based on circumstances (e.g., " ++ dq ++
    "We lost patient data" ++ dq ++
    " — depends on whether data was encrypted, how many records, whether authorities were notified)" ++
    nl ++ "- Critical facts are missing that would change the risk level or legal outcome" ++ nl ++
    nl ++
    "If it DEPENDS, generate 3-4 high-quality follow-up options ranked by importance, that would help narrow down the analysis. Each option should be a specific, actionable clarification question." ++
    nl ++ nl ++
    "IMPORTANT: Respond with JSON matching the schema exactly. If the query is clear, set needs_clarification=false and options=[].".

(** [PROMPTS.get(domain, PROMPTS["GDPR"])] *)
Definition PROMPTS_get (domain : string) : string :=
  if String.eqb domain "GDPR" then PROMPT_GDPR
  else if String.eqb domain "FDA" then PROMPT_FDA
  else if String.eqb domain "CCPA" then PROMPT_CCPA
  else PROMPT_GDPR.

(** ** Guardrail *)

Definition unethical_keywords : list string :=
  ["evade"; "bypass"; "avoid detection"; "hide"; "loophole"; "how can i hide"].

Definition general_triggers : list string :=
  ["hi"; "hello"; "who are you"; "what can you do"; "help"; "thanks";
   "good morning"; "capabilities"].

Definition blocked_response : ComplianceResponse :=
  mkComplianceResponse
    ("This request involves evasion of mandatory compliance obligations. "
     ++ "Attempting to hide data breaches violates Article 33 (Notification Authority) "
     ++ "and Article 34 (Notification to Data Subject).")
    false
    []
    "GDPR Art 5(1)(a) (Lawfulness & Transparency)"
    "N/A - Illegal Request"
    "Severe regulatory fines (up to 4% global turnover) and criminal liability."
    HIGH
    1%Q
    (Some [])
    [].

Definition node_guardrail (state : AgentState) : Update :=
  let query := user_query state in
  let q_lower := PyStr.lower query in
  if PyStr.any_in unethical_keywords q_lower then
    with_route "blocked"
      (with_final_response (Schema.model_dump blocked_response) no_update)
  else
    let is_general :=
      (Z.of_nat (List.length (PyStr.split query)) <? 10)
      && PyStr.any_in general_triggers q_lower in
    if is_general then with_route "general" no_update
    else with_route "analysis" no_update.

(** ** Retrieve: the pure part *)

Module Retrieval.

(** [s.add(x)] on a set kept as a duplicate-free list. *)
Definition set_add (x : string) (s : list string) : list string :=
  if existsb (String.eqb x) s then s else (s ++ [x])%list.

Definition set_of (l : list string) : list string :=
  fold_left (fun s x => set_add x s) l [].

(** [sorted(l, key=key)]: stable, by code point order of the keys. *)
Fixpoint insert_by {A : Type} (key : A -> string) (x : A) (l : list A) : list A :=
  match l with
  | [] => [x]
  | y :: t =>
      if PyStr.ltb (key x) (key y) then x :: y :: t
      else y :: insert_by key x t
  end.

Definition sorted_by {A : Type} (key : A -> string) (l : list A) : list A :=
  fold_left (fun acc x => insert_by key x acc) l [].

(** [DOMAIN_MAP]: the triggers and the identifiers they inject, in the
    order of the table. *)
Definition DOMAIN_MAP : list (string * (list string * list string)) :=
  [("penalty_logic",
     (["fine"; "penalty"; "administrative"; "sanction"; "euro"], ["83"]));
   ("scope_logic",
     (["apply"; "applies"; "scope"; "territorial"; "material"; "when does"],
      ["2"; "3"]));
   ("definition_logic",
     (["define"; "definition"; "meaning"; "what is a"; "who is a"], ["4"]));
   ("rights_logic",
     (["delete"; "erasure"; "erase"; "forget"; "access"; "rectify"; "copy"],
      ["6"; "12"; "15"; "17"]));
   ("dpo_logic",
     (["dpo"; "officer"; "representative"; "public authority"],
      ["37"; "38"; "39"]));
   ("transfer_logic",
     (["transfer"; "third country"; "abroad"; "adequacy"],
      ["45"; "46"; "49"]))].

(** The injection loop over [DOMAIN_MAP]. *)
Definition inject (q_lower : string) (retrieved_ids : list string) : list string :=
  fold_left
    (fun ids rule =>
       let '(_, (triggers, injected)) := rule in
       if PyStr.any_in triggers q_lower
       then fold_left (fun s art_id => set_add art_id s) injected ids
       else ids)
    DOMAIN_MAP retrieved_ids.

Section Corpus.

Variable articles : list Article.

(** [article_map.get(aid)]: the map is built by a comprehension, so
    the last article with an id wins. *)
Definition article_map_get (aid : string) : option Article :=
  fold_left
    (fun found a =>
       if String.eqb (str_of_id (article_id a)) aid then Some a else found)
    articles None.

(** [ContextBuilder.expand_article_by_id] *)
Definition expand_article_by_id (aid : string) : string :=
  match article_map_get aid with
  | None => "[Error: Article " ++ aid ++ " not found in structured data]"
  | Some article =>
      let cs := sorted_by clause_id (clauses article) in
      PyStr.join nl
        (("Article " ++ aid ++ ": " ++ or_else (title article) "")
         :: map (fun c => "[" ++ clause_id c ++ "] " ++ clause_text c) cs)
  end.

(** From the hits to the context: ids of the hits, injection, sorted
    expansion, joined by a blank line. *)
Definition build_context (query : string) (results : list Hit) : string :=
  let retrieved_ids :=
    set_of (map (fun r => str_of_id (hit_article_id r)) results) in
  let retrieved_ids := inject (PyStr.lower query) retrieved_ids in
  let full_contexts :=
    map expand_article_by_id (sorted_by (fun a => a) retrieved_ids) in
  PyStr.join (nl ++ nl) full_contexts.

(** The texts the index is built from. *)
Definition clause_texts : list string :=
  flat_map (fun a => map clause_text (clauses a)) articles.

End Corpus.

End Retrieval.

Section Stages.

Variable W : Collaborators.

(** [_get_clients()]: the model list of the configured provider. *)
Definition get_clients : M (list string) :=
  match get_llm_client W with
  | inl models => ret models
  | inr e => raise e
  end.

(** [safe_api_call] at the three schemas the stages ask for. *)
Definition api_text (models : list string) (msgs : list Message) : M string :=
  safe_api_call (repr_list W)
    (fun model => call (EvCreate model Unstructured msgs) (create_text W model msgs))
    models.

Definition api_clarification (models : list string) (msgs : list Message)
    : M ClarificationResponse :=
  safe_api_call (repr_list W)
    (fun model =>
       call (EvCreate model AsClarification msgs) (create_clarification W model msgs))
    models.

Definition api_compliance (models : list string) (msgs : list Message)
    : M Structured :=
  safe_api_call (repr_list W)
    (fun model =>
       call (EvCreate model AsCompliance msgs) (create_compliance W model msgs))
    models.

(** ** Chat *)

Definition chat_persona : string :=
  "You are the 'Agentic Compliance Analyst', an advanced AI specialized in global regulations. "
  ++ "You have deep knowledge of GDPR (EU), FDA (US), and are expanding to Global Compliance. "
  ++ "Introduce yourself formally and list your capabilities (searching laws, analyzing risk, drafting reports). "
  ++ "Do not answer specific compliance questions here; just introduce yourself.".

Definition node_chat (state : AgentState) : M Update :=
  let msgs := [msg "system" chat_persona; msg "user" (user_query state)] in
  models <- get_clients ;;
  chat_text <- api_text models msgs ;;
  ret (with_final_response
         [("type", VStr "chat"); ("message", VStr chat_text)] no_update).

(** ** Retrieve *)

Definition insufficient_context : dict :=
  [("type", VStr "error"); ("message", VStr "Insufficient context found.")].

Definition node_retrieve (state : AgentState) : M Update :=
  let domain := domain state in
  let query := user_query state in
  if String.eqb domain "GDPR" then
    let is_complex := needs_multi_article_reasoning query in
    let k := if is_complex then 6 else 3 in
    results <-
      match Retrieval.clause_texts (corpus W) with
      | [] => raise "Index not built. Call build() first with texts and metadata."
      | _ :: _ => call (EvHybridSearch query k) (hybrid_search W query k)
      end ;;
    match results with
    | [] =>
        ret (with_route "blocked"
               (with_final_response insufficient_context
                  (with_retrieved_context "" no_update)))
    | _ :: _ =>
        ret (with_retrieved_context
               (Retrieval.build_context (corpus W) query results) no_update)
    end
  else if String.eqb domain "FDA" then
    combined_context <-
      call (EvSearchLawsuits query) (search_lawsuits W query) ;;
    ret (with_retrieved_context combined_context no_update)
  else if String.eqb domain "CCPA" then
    ret (with_retrieved_context
           "Source: CCPA/CPRA Legal Statutes (Modeled Knowledge - Statutory Exception Active)."
           no_update)
  else
    ret (with_retrieved_context "" no_update).

(** ** Clarify *)

Definition definition_keywords : list string :=
  ["what is"; "define"; "meaning of"; "article"; "section"; "explain"].

Definition opt_custom : dict :=
  [("id", VStr "opt_custom");
   ("text", VStr "Other (describe your situation)");
   ("rank", VInt 5)].

Definition opt_unknown : dict :=
  [("id", VStr "opt_unknown");
   ("text", VStr "I don't know / Skip clarification");
   ("rank", VInt 6)].

(** The context merged with the user's answers. *)
Definition enrich (retrieved_context : string) (user_selections : list string)
    : string :=
  (retrieved_context ++ nl ++ nl ++ "[USER CLARIFICATION]" ++ nl)
  ++ PyStr.join nl (map (fun sel => "- " ++ sel) user_selections).

Definition node_clarify (state : AgentState) : M Update :=
  match user_selections state with
  | Some ((_ :: _) as user_selections) =>
      ret (with_route "clear"
             (with_retrieved_context
                (enrich (retrieved_context state) user_selections) no_update))
  | _ =>
      let query := user_query state in
      let context := retrieved_context state in
      let domain := domain state in
      if PyStr.any_in definition_keywords (PyStr.lower query) then
        ret (with_route "clear" no_update)
      else
        try_except
          (models <- get_clients ;;
           let msgs :=
             [msg "system" CLARIFY_PROMPT;
              msg "user"
                ("Domain: " ++ domain ++ nl ++ "Query: " ++ query ++ nl
                 ++ "Context Preview: " ++ PyStr.take 500 context)] in
           result <- api_clarification models msgs ;;
           match cl_needs_clarification result, cl_options result with
           | true, _ :: _ =>
               let options :=
                 (map Schema.dump_option (firstn 4 (cl_options result))
                  ++ [opt_custom; opt_unknown])%list in
               ret (with_final_response
                      [("type", VStr "clarification");
                       ("summary", VStr (cl_summary result));
                       ("options", VList (map VDict options))]
                      (with_clarification_options options
                         (with_route "depends" no_update)))
           | _, _ => ret (with_route "clear" no_update)
           end)
          (fun _ => ret (with_route "clear" no_update))
  end.

(** ** Generate *)

Definition definition_markers : list string :=
  ["what is"; "define"; "meaning of"; "considered personal info"; "stand for";
   "are ip addresses"].

Definition risk_guidance_note : string :=
  nl ++ "[CONTEXT NOTE: This is a DEFINITION query. Risk Level must be 'low'. Calibrate confidence to 1.0.]".

(** A dict or a list is true when it is not empty. *)
Definition truthy_dict (a : option dict) : bool :=
  match a with
  | Some (_ :: _) => true
  | _ => false
  end.

Definition llm_messages (state : AgentState) : list Message :=
  let domain := domain state in
  let query := user_query state in
  let context := retrieved_context state in
  let retry_count := retry_count state in
  let prev_errors := validation_errors state in
  let is_definition_query :=
    PyStr.any_in definition_markers (PyStr.lower query) in
  let risk_guidance := if is_definition_query then risk_guidance_note else "" in
  let system_prompt := PROMPTS_get domain in
  let msgs :=
    [msg "system" (system_prompt ++ risk_guidance);
     msg "user"
       ("CONTEXT (Source: " ++ domain ++ " Knowledge):" ++ nl ++ context
        ++ nl ++ nl ++ "QUERY: " ++ query)] in
  if (0 <? retry_count) && negb (Nat.eqb (List.length prev_errors) 0) then
    let msgs :=
      match analysis state with
      | Some ((_ :: _) as prev_analysis) =>
          (msgs ++ [msg "assistant" (json_dumps W prev_analysis)])%list
      | _ => msgs
      end in
    let error_text := PyStr.join nl prev_errors in
    (msgs ++
     [msg "user"
        ("CRITICAL LOGIC ERROR: Your previous answer failed validation rules." ++ nl
         ++ "Errors:" ++ nl ++ error_text ++ nl ++ nl
         ++ "FIX IMMEDIATELY. Cite the missing articles. Correct the scope.")])%list
  else msgs.

Definition llm_error (message : string) : Update :=
  with_route "blocked"
    (with_final_response
       [("type", VStr "error"); ("message", VStr message)] no_update).

Definition node_llm (state : AgentState) : M Update :=
  let msgs := llm_messages state in
  try_except
    (models <- get_clients ;;
     structured_response <- api_compliance models msgs ;;
     match structured_response with
     | Text s => ret (llm_error s)
     | Parsed r =>
         ret (with_messages msgs
                (with_validation_errors []
                   (with_analysis (Schema.model_dump r) no_update)))
     end)
    (fun e => ret (llm_error ("API Error: " ++ e))).

(** ** Validate *)

Definition node_validator (state : AgentState) : Update :=
  match analysis state with
  | Some ((_ :: _) as analysis_dict) =>
      let query := user_query state in
      let retry_count := retry_count state in
      match Schema.parse analysis_dict with
      | None =>
          with_retry_count (retry_count + 1)
            (with_validation_errors
               ["Failed to parse analysis: " ++ parse_error_text W analysis_dict]
               no_update)
      | Some response =>
          match validate_response W response query with
          | [] => with_validation_errors [] no_update
          | (_ :: _) as errors =>
              with_retry_count (retry_count + 1)
                (with_validation_errors errors no_update)
          end
      end
  | _ => with_validation_errors ["No analysis to validate."] no_update
  end.

(** ** Semantic override *)

Definition tax_erasure_basis : string :=
  "GDPR Article 17(3)(b) (Exception) & Article 6(1)(c) (Lawful Basis)".

Definition tax_erasure_scope : string :=
  "Only personal data strictly necessary for the legal obligation may be retained. All other personal data must be erased.".

Definition tax_erasure_summary : string :=
  "Partial Refusal. Under GDPR Article 17(3)(b), the right to erasure does not apply where processing is necessary "
  ++ "to comply with a legal obligation. Retention of transaction records required by tax law is lawful under Article 6(1)(c). "
  ++ "However, only data strictly necessary for the obligation may be retained; all other data must be erased.".

(** [SEMANTIC_MAP], in the order of the table. *)
Definition SEMANTIC_MAP : list (string * (string * RiskLevel * Q)) :=
  [("personal information", ("§1798.140(v)(1)", LOW, 1%Q));
   ("sensitive", ("§1798.140(ae)", MEDIUM, (95 # 100)%Q));
   ("sale", ("§1798.140(ad)", MEDIUM, (95 # 100)%Q));
   ("share", ("§1798.140(ah)", MEDIUM, (95 # 100)%Q));
   ("fraud", ("§1798.105(d)(1)", MEDIUM, (90 # 100)%Q));
   ("delete", ("§1798.105", MEDIUM, (90 # 100)%Q));
   ("geolocation", ("§1798.140(ae)", MEDIUM, (95 # 100)%Q))].

(** The loop over [SEMANTIC_MAP]: the first key found in the query
    decides, then [break]. *)
Fixpoint apply_semantic_map (table : list (string * (string * RiskLevel * Q)))
    (q_lower : string) (response : ComplianceResponse) : ComplianceResponse :=
  match table with
  | [] => response
  | (key, (citation, risk, conf)) :: rest =>
      if PyStr.str_in key q_lower then
        set_confidence_score conf
          (set_risk_level risk
             (set_legal_basis ("California Civil Code " ++ citation) response))
      else apply_semantic_map rest q_lower response
  end.

(** The corrections, on the response object. *)
Definition apply_overrides (domain query : string)
    (response : ComplianceResponse) : ComplianceResponse :=
  let q_lower := PyStr.lower query in
  let is_definition_query := PyStr.any_in definition_markers q_lower in
  let response :=
    if String.eqb domain "GDPR" then
      if PyStr.str_in "tax" q_lower
         && (PyStr.str_in "erase" q_lower || PyStr.str_in "delet" q_lower
             || PyStr.str_in "refuse" q_lower)
      then
        set_summary tax_erasure_summary
          (set_scope_limitation tax_erasure_scope
             (set_legal_basis tax_erasure_basis
                (set_confidence_score 1%Q
                   (set_risk_level MEDIUM response))))
      else response
    else if String.eqb domain "CCPA" then
      apply_semantic_map SEMANTIC_MAP q_lower response
    else response in
  if is_definition_query && negb (RiskLevel_eqb (risk_level response) HIGH)
  then set_risk_level LOW (set_confidence_score 1%Q response)
  else response.

Definition node_semantic_override (state : AgentState) : M Update :=
  match analysis state with
  | Some ((_ :: _) as analysis_dict) =>
      match Schema.parse analysis_dict with
      | None => raise (parse_error_text W analysis_dict)
      | Some response =>
          ret (with_analysis
                 (Schema.model_dump
                    (apply_overrides (domain state) (user_query state) response))
                 no_update)
      end
  | _ => ret no_update
  end.

(** ** Governance *)

Definition node_governance (state : AgentState) : M Update :=
  match analysis state with
  | Some ((_ :: _) as analysis_dict) =>
      match Schema.parse analysis_dict with
      | None => raise (parse_error_text W analysis_dict)
      | Some response =>
          if needs_clarification response then
            ret (with_final_response (Schema.model_dump response) no_update)
          else
            let decision :=
              classify_decision (format_2f W) (confidence_score response)
                (RiskLevel_value (risk_level response)) false in
            match status decision with
            | BLOCKED =>
                ret (with_final_response
                       [("type", VStr "blocked");
                        ("reason", VStr (reason decision))] no_update)
            | REVIEW_REQUIRED =>
                ret (with_final_response
                       (Dict.update
                          [("type", VStr "review_required");
                           ("reason", VStr (reason decision));
                           ("risk_level", VStr (decision_risk_level decision));
                           ("confidence", VFloat (confidence decision))]
                          (Schema.model_dump response))
                       no_update)
            | AUTO_APPROVED =>
                ret (with_final_response (Schema.model_dump response) no_update)
            end
      end
  | _ =>
      ret (with_final_response
             [("type", VStr "error");
              ("message", VStr "No analysis for governance.")] no_update)
  end.

(** ** Tool dispatch *)

(** [TOOL_REGISTRY.get(tool_name)] *)
Fixpoint registry_get (reg : list (string * (dict -> nat -> string + string)))
    (tool_name : string) : option (dict -> nat -> string + string) :=
  match reg with
  | [] => None
  | (n, f) :: rest =>
      if String.eqb n tool_name then Some f else registry_get rest tool_name
  end.

(** [execute_tool_call]: an unknown name and a raising tool both come
    back as text. *)
Definition execute_tool_call (tool_name : string) (arguments : dict) : M string :=
  match registry_get (tool_registry W) tool_name with
  | None => ret ("Error: Unknown tool '" ++ tool_name ++ "'")
  | Some func =>
      try_except
        (call (EvTool tool_name arguments) (func arguments))
        (fun e => ret ("Error executing tool '" ++ tool_name ++ "': " ++ e))
  end.

(** The [for tc in tool_calls] loop. *)
Fixpoint run_tool_calls (tool_calls : list ToolCall) : M (list Message) :=
  match tool_calls with
  | [] => ret []
  | tc :: rest =>
      let tool_name := or_else (tc_name tc) "" in
      let arguments := or_else (tc_arguments tc) [] in
      result <- execute_tool_call tool_name arguments ;;
      more <- run_tool_calls rest ;;
      ret (mkMessage "tool" result (Some tool_name) :: more)
  end.

Definition node_tool_executor (state : AgentState) : M Update :=
  new_messages <- run_tool_calls (tool_calls state) ;;
  ret (with_tool_calls [] (with_messages new_messages no_update)).

(** ** Fallback *)

Definition node_fallback (state : AgentState) : Update :=
  let errors := validation_errors state in
  with_final_response
    [("type", VStr "error");
     ("message",
       VStr ("❌ Analysis failed after " ++ PyStr.of_int (retry_count state)
             ++ " retries. Last errors: " ++ repr_list W errors))]
    no_update.

End Stages.

(* ================================================================== *)
(** * Routers *)
(* ================================================================== *)

Definition route_after_guardrail (state : AgentState) : string :=
  let route := route state in
  if String.eqb route "blocked" then "end"
  else if String.eqb route "general" then "chat"
  else "retrieve".

Definition route_after_clarify (state : AgentState) : string :=
  let route := route state in
  if String.eqb route "depends" then "end" else "llm".

Definition route_after_llm (state : AgentState) : string :=
  if String.eqb (route state) "blocked" then "end"
  else
    match tool_calls state with
    | _ :: _ => "tool_executor"
    | [] => "validator"
    end.

Definition route_after_validation (state : AgentState) : string :=
  let errors := validation_errors state in
  let retry_count := retry_count state in
  match errors with
  | [] => "semantic_override"
  | _ :: _ => if retry_count <? 3 then "llm" else "fallback"
  end.

(* ================================================================== *)
(** * [agent/graph.py]: the graph and its executor *)
(* ================================================================== *)

Inductive Node : Type :=
| guardrail
| chat
| retrieve
| clarify
| llm
| validator
| semantic_override
| governance
| fallback
| tool_executor.

(** Where an edge leads: a stage or [END]. *)
Inductive Target : Type :=
| To (n : Node)
| END.

(** The edges out of a stage, as [build_graph] declares them. *)
Inductive Edges : Type :=
| Edge (t : Target)
| Conditional (router : AgentState -> string) (mapping : list (string * Target)).

Definition build_graph (n : Node) : Edges :=
  match n with
  | guardrail =>
      Conditional route_after_guardrail
        [("end", END); ("chat", To chat); ("retrieve", To retrieve)]
  | chat => Edge END
  | retrieve => Edge (To clarify)
  | clarify =>
      Conditional route_after_clarify [("end", END); ("llm", To llm)]
  | llm =>
      Conditional route_after_llm
        [("end", END); ("tool_executor", To tool_executor);
         ("validator", To validator)]
  | tool_executor => Edge (To llm)
  | validator =>
      Conditional route_after_validation
        [("semantic_override", To semantic_override); ("llm", To llm);
         ("fallback", To fallback)]
  | semantic_override => Edge (To governance)
  | governance => Edge END
  | fallback => Edge END
  end.

Definition entry_point : Node := guardrail.

Fixpoint mapping_get (mapping : list (string * Target)) (key : string)
    : option Target :=
  match mapping with
  | [] => None
  | (k, t) :: rest => if String.eqb k key then Some t else mapping_get rest key
  end.

(** The target chosen after a stage, on the merged state; [None] when a
    router answers a key its mapping lacks. *)
Definition next_target (n : Node) (s : AgentState) : option Target :=
  match build_graph n with
  | Edge t => Some t
  | Conditional router mapping => mapping_get mapping (router s)
  end.

Section Executor.

Variable W : Collaborators.

(** The function registered for a stage. *)
Definition run_node (n : Node) (s : AgentState) : M Update :=
  match n with
  | guardrail => ret (node_guardrail s)
  | chat => node_chat W s
  | retrieve => node_retrieve W s
  | clarify => node_clarify W s
  | llm => node_llm W s
  | validator => ret (node_validator W s)
  | semantic_override => node_semantic_override W s
  | governance => node_governance W s
  | fallback => ret (node_fallback W s)
  | tool_executor => node_tool_executor W s
  end.

(** A point of an execution: the stage about to run (or [END]), the
    state, the external calls made and the stages run so far. *)
Record Config : Type := mkConfig {
  cfg_next : Target;
  cfg_state : AgentState;
  cfg_log : Log;
  cfg_visited : list Node
}.

(** One superstep: run the stage, merge its update, follow the edge. *)
Definition step (c : Config) : outcome Config :=
  match cfg_next c with
  | END => Raise "the graph has ended"
  | To n =>
      match run_node n (cfg_state c) (cfg_log c) with
      | (Raise e, _) => Raise e
      | (Ok u, log') =>
          let s' := merge (cfg_state c) u in
          match next_target n s' with
          | None => Raise "router key not in the edge mapping"
          | Some t => Ok (mkConfig t s' log' (cfg_visited c ++ [n])%list)
          end
      end
  end.

(** How a turn ends. *)
Inductive Run : Type :=
| Finished (c : Config)
| Crashed (e : string)
| StepLimit (c : Config).

(** The executor: supersteps until [END], at most [limit] of them (the
    recursion limit of the graph library). *)
Fixpoint run (limit : nat) (c : Config) : Run :=
  match cfg_next c with
  | END => Finished c
  | To _ =>
      match limit with
      | O => StepLimit c
      | S limit' =>
          match step c with
          | Raise e => Crashed e
          | Ok c' => run limit' c'
          end
      end
  end.

(** [n] supersteps in a row. *)
Fixpoint steps (n : nat) (c : Config) : outcome Config :=
  match n with
  | O => Ok c
  | S n' =>
      match step c with
      | Raise e => Raise e
      | Ok c' => steps n' c'
      end
  end.

Definition initial_config (s : AgentState) : Config :=
  mkConfig (To entry_point) s [] [].

(** [run_graph] / [stream_graph]: a turn from the initial state. *)
Definition run_graph (limit : nat) (history : list Message)
    (user_query domain thread_id : string)
    (user_selections : option (list string)) : Run :=
  run limit
    (initial_config
       (initial_state history user_query domain thread_id user_selections)).

(** The points a turn can be at: the initial one and every one a
    superstep leads to. *)
Inductive reachable (s0 : AgentState) : Config -> Prop :=
| reach_init : reachable s0 (initial_config s0)
| reach_step (c c' : Config) :
    reachable s0 c -> step c = Ok c' -> reachable s0 c'.

(** A state of a turn started by [run_graph] or [stream_graph]. *)
Definition initial (s0 : AgentState) : Prop :=
  exists history user_query domain thread_id user_selections,
    s0 = initial_state history user_query domain thread_id user_selections.

End Executor.

(* ================================================================== *)
(** * Vocabulary of the statements *)
(* ================================================================== *)

(** [needle] occurs in [hay]: the meaning of Python's [in] on text. *)
Definition occurs_in (needle hay : string) : Prop :=
  exists pre post, hay = pre ++ needle ++ post.

(** [hay] contains [needle] as Python's [in] sees it after lowering. *)
Definition mentions (needle hay : string) : Prop :=
  PyStr.str_in needle (PyStr.lower hay) = true.

(** The query carries one of the [keys], as written or in another letter
    case. *)
Definition carries (keys : list string) (query : string) : Prop :=
  exists k, In k keys /\ (occurs_in k query \/ mentions k query).

(** The query carries one of the disallowed-intent patterns. *)
Definition disallowed (query : string) : Prop :=
  carries unethical_keywords query.

(** The financial-penalty keywords of the injection table. *)
Definition penalty_triggers : list string :=
  ["fine"; "penalty"; "administrative"; "sanction"; "euro"].

(** The values of the ["type"] key found on terminal results. *)
Definition discriminators : list string :=
  ["chat"; "error"; "clarification"; "blocked"; "review_required"].

(** A terminal result with a discriminator. *)
Definition typed_result (d : dict) : Prop :=
  exists t, Dict.get "type" d = Some (VStr t) /\ In t discriminators.

(** A terminal result that is a bare analysis record. *)
Definition bare_record (d : dict) : Prop :=
  Dict.get "type" d = None /\ exists r, d = Schema.model_dump r.

(** The updates a stage can return on state [s]. *)
Inductive node_update (W : Collaborators) (s : AgentState) : Node -> Update -> Prop :=
| upd_guardrail_blocked :
    node_update W s guardrail
      (with_route "blocked"
         (with_final_response (Schema.model_dump blocked_response) no_update))
| upd_guardrail_general :
    node_update W s guardrail (with_route "general" no_update)
| upd_guardrail_analysis :
    node_update W s guardrail (with_route "analysis" no_update)
| upd_chat (chat_text : string) :
    node_update W s chat
      (with_final_response
         [("type", VStr "chat"); ("message", VStr chat_text)] no_update)
| upd_retrieve_empty :
    node_update W s retrieve
      (with_route "blocked"
         (with_final_response insufficient_context
            (with_retrieved_context "" no_update)))
| upd_retrieve_context (ctx : string) :
    node_update W s retrieve (with_retrieved_context ctx no_update)
| upd_clarify_selections (ctx : string) :
    node_update W s clarify
      (with_route "clear" (with_retrieved_context ctx no_update))
| upd_clarify_clear :
    node_update W s clarify (with_route "clear" no_update)
| upd_clarify_depends (summ : string) (options : list dict) :
    node_update W s clarify
      (with_final_response
         [("type", VStr "clarification"); ("summary", VStr summ);
          ("options", VList (map VDict options))]
         (with_clarification_options options (with_route "depends" no_update)))
| upd_llm_error (message : string) :
    node_update W s llm (llm_error message)
| upd_llm_parsed (r : ComplianceResponse) (msgs : list Message) :
    node_update W s llm
      (with_messages msgs
         (with_validation_errors []
            (with_analysis (Schema.model_dump r) no_update)))
| upd_validator_missing :
    truthy_dict (analysis s) = false ->
    node_update W s validator
      (with_validation_errors ["No analysis to validate."] no_update)
| upd_validator_fail (e : string) (errors : list string) :
    truthy_dict (analysis s) = true ->
    node_update W s validator
      (with_retry_count (retry_count s + 1)
         (with_validation_errors (e :: errors) no_update))
| upd_validator_pass :
    truthy_dict (analysis s) = true ->
    node_update W s validator (with_validation_errors [] no_update)
| upd_override_none :
    node_update W s semantic_override no_update
| upd_override (r : ComplianceResponse) :
    node_update W s semantic_override
      (with_analysis (Schema.model_dump r) no_update)
| upd_governance_typed (d : dict) :
    typed_result d ->
    node_update W s governance (with_final_response d no_update)
| upd_governance_bare (r : ComplianceResponse) :
    node_update W s governance
      (with_final_response (Schema.model_dump r) no_update)
| upd_tool (new_messages : list Message) :
    node_update W s tool_executor
      (with_tool_calls [] (with_messages new_messages no_update))
| upd_fallback (message : string) :
    node_update W s fallback
      (with_final_response
         [("type", VStr "error"); ("message", VStr message)] no_update).

(** The edges of the graph, read as conditions on the merged state. *)
Definition edge_cases (n : Node) (s : AgentState) (t : Target) : Prop :=
  match n with
  | guardrail =>
      (route s = "blocked" /\ t = END)
      \/ (route s = "general" /\ t = To chat)
      \/ (route s <> "blocked" /\ route s <> "general" /\ t = To retrieve)
  | chat => t = END
  | retrieve => t = To clarify
  | clarify =>
      (route s = "depends" /\ t = END)
      \/ (route s <> "depends" /\ t = To llm)
  | llm =>
      (route s = "blocked" /\ t = END)
      \/ (route s <> "blocked" /\ tool_calls s <> [] /\ t = To tool_executor)
      \/ (route s <> "blocked" /\ tool_calls s = [] /\ t = To validator)
  | tool_executor => t = To llm
  | validator =>
      (validation_errors s = [] /\ t = To semantic_override)
      \/ (validation_errors s <> [] /\ retry_count s < 3 /\ t = To llm)
      \/ (validation_errors s <> [] /\ 3 <= retry_count s /\ t = To fallback)
  | semantic_override => t = To governance
  | governance => t = END
  | fallback => t = END
  end.

(** The bound on [retry_count] that holds before each stage. *)
Definition retry_bound (t : Target) : Z :=
  match t with
  | To guardrail | To chat | To retrieve | To clarify => 0
  | To llm | To tool_executor | To validator => 2
  | To semantic_override | To governance | To fallback | END => 3
  end.

Definition retry_invariant (c : Config) : Prop :=
  0 <= retry_count (cfg_state c) <= retry_bound (cfg_next c)
  /\ (cfg_next c = To validator -> truthy_dict (analysis (cfg_state c)) = true).

Definition tools_invariant (c : Config) : Prop :=
  tool_calls (cfg_state c) = []
  /\ cfg_next c <> To tool_executor
  /\ ~ In tool_executor (cfg_visited c).

(** How many supersteps a turn can still take from a point: the retry loop
    contributes two for every retry left. *)
Definition steps_left (c : Config) : nat :=
  let retries_left := Z.to_nat (3 - retry_count (cfg_state c)) in
  match cfg_next c with
  | END => 0
  | To chat | To governance | To fallback => 1
  | To semantic_override => 2
  | To validator => 2 * retries_left + 1
  | To llm => 2 * retries_left + 2
  | To tool_executor => 2 * retries_left + 3
  | To clarify => 9
  | To retrieve => 10
  | To guardrail => 11
  end.

(** A terminal result as the stages shape it. *)
Definition terminal_shape (d : dict) : Prop :=
  typed_result d \/ bare_record d.

Definition result_invariant (c : Config) : Prop :=
  (forall d, final_response (cfg_state c) = Some d -> terminal_shape d)
  /\ (route (cfg_state c) = "blocked" -> final_response (cfg_state c) <> None)
  /\ (cfg_next c = END -> final_response (cfg_state c) <> None).

(** The reading of the discriminator property that asks for a ["type"] key
    on every terminal result. *)
Definition every_result_typed : Prop :=
  forall (W : Collaborators) (limit : nat) (history : list Message)
         (user_query domain thread_id : string)
         (user_selections : option (list string)) (c : Config),
    run_graph W limit history user_query domain thread_id user_selections
      = Finished c ->
    exists d, final_response (cfg_state c) = Some d /\ typed_result d.


(** In a failover over [models] started after [t0] calls, every model of
    [pre] fails with an error that is not a schema mismatch. *)
Definition fail_over {A : Type} (answer : string -> nat -> A + string)
    (t0 : nat) (pre : list string) : Prop :=
  forall i model, nth_error pre i = Some model ->
    exists e, answer model (t0 + i)%nat = inr e
              /\ is_schema_mismatch (PyStr.lower e) = false.

(* ================================================================== *)
(** * Sample collaborators, for concrete runs *)
(* ================================================================== *)

Module Sample.

Definition entry : ReasoningMapEntry :=
  mkReasoningMapEntry "records were lost" "personal data breach" "33(1)"
    "Loss of records is a breach to be notified.".

Definition response : ComplianceResponse :=
  mkComplianceResponse "A breach must be notified under 33(1)." false []
    "Article 33(1)" "None" "Fines may apply." HIGH (9 # 10)%Q (Some ["33"])
    [entry].

Definition articles : list Article :=
  [mkArticle (IdInt 5) (Some "Principles")
     [mkClause "1" "Personal data shall be processed lawfully."];
   mkArticle (IdInt 83) (Some "General conditions for imposing administrative fines")
     [mkClause "2" "Due regard shall be given to the following.";
      mkClause "1" "Fines shall be effective, proportionate and dissuasive."]].

(** Collaborators that answer at once: [hits] is what the index returns,
    [rule] the rule check, [reply] the structured generation. *)
Definition world (hits : list Hit)
    (rule : ComplianceResponse -> string -> list string)
    (reply : string -> nat -> Structured + string) : Collaborators :=
  mkCollaborators
    (inl ["model-a"; "model-b"])
    (fun _ _ _ => inl "I am the analyst.")
    (fun _ _ _ => inl (mkClarificationResponse false "clear" []))
    (fun model _ t => reply model t)
    articles
    (fun _ _ _ => inl hits)
    (fun _ _ => inl "No lawsuits found.")
    []
    rule
    (fun _ => "validation error")
    (fun _ => "{}")
    (fun l => "[" ++ PyStr.join ", " l ++ "]")
    (fun _ => "{}")
    (fun _ => "0.00").

Definition hit5 : Hit :=
  mkHit (IdInt 5) "1" "Personal data shall be processed lawfully.".

Definition passes : ComplianceResponse -> string -> list string :=
  fun _ _ => [].

Definition fails : ComplianceResponse -> string -> list string :=
  fun _ _ => ["Reasoning Map: The reasoning_map field is EMPTY."].

Definition answers : string -> nat -> Structured + string :=
  fun _ _ => inl (Parsed response).

(** The index finds one clause of Article 5; the rule check passes. *)
Definition W : Collaborators := world [hit5] passes answers.

(** The rule check rejects every candidate. *)
Definition W_rejecting : Collaborators := world [hit5] fails answers.

(** The first model's output fails the schema; the second would answer. *)
Definition schema_then_ok : string -> nat -> string + string :=
  fun model _ =>
    if String.eqb model "model-a"
    then inr "1 Validation Error for ComplianceResponse"
    else inl "ok".

(** The first model times out; the second answers. *)
Definition timeout_then_ok : string -> nat -> string + string :=
  fun model _ =>
    if String.eqb model "model-a" then inr "Request timed out" else inl "ok".

Definition state (query : string) (sel : option (list string)) : AgentState :=
  initial_state [] query "GDPR" "thread-1" sel.


(** A tax-retention erasure question with a candidate analysis at hand. *)
Definition s_tax : AgentState :=
  merge (state "Can we refuse to erase invoices kept for tax law?" None)
    (with_analysis (Schema.model_dump response) no_update).


(** A turn in which every candidate is rejected. *)
Definition s_rejected : AgentState := state "we lost customer records" None.

(** The point reached after [n] supersteps of that turn. *)
Definition after (w : Collaborators) (s : AgentState) (n : nat) : Config :=
  match steps w n (initial_config s) with
  | Ok c => c
  | Raise _ => initial_config s
  end.

End Sample.

(* ================================================================== *)
(** * Text as Python sees it *)
(* ================================================================== *)

(** A [str] is kept as its UTF-8 bytes.  [len(s)] counts characters, that
    is the bytes that do not continue a character. *)
Fixpoint py_len (s : string) : nat :=
  match s with
  | EmptyString => 0%nat
  | String c t =>
      let n := nat_of_ascii c in
      if Nat.leb 128 n && Nat.leb n 191 then py_len t else S (py_len t)
  end.

(** Text of ASCII characters only.  On such text [PyStr.lower],
    [PyStr.split] and the stripping of white space are what [str.lower],
    [str.split] and [str.strip] do; on other text Python also folds
    letters and cuts at white space outside ASCII, which the functions
    here leave alone.  The statements that depend on the difference assume
    ASCII text. *)
Fixpoint is_ascii (s : string) : bool :=
  match s with
  | EmptyString => true
  | String c t => Nat.ltb (nat_of_ascii c) 128 && is_ascii t
  end.



(** The texts of an article. *)
Definition ascii_article (a : Article) : bool :=
  is_ascii (or_else (title a) "")
  && forallb (fun c => is_ascii (clause_id c) && is_ascii (clause_text c))
       (clauses a).

(* ================================================================== *)
(** * [agent/nodes.py]: the rule check of the validator *)
(* ================================================================== *)

Module Rules.

(** [\d] on ASCII text. *)
Definition is_digit (c : ascii) : bool :=
  let n := nat_of_ascii c in Nat.leb 48 n && Nat.leb n 57.

(** A character class [[lo-hi]], by character codes. *)
Definition in_class (lo hi : nat) (c : ascii) : bool :=
  let n := nat_of_ascii c in Nat.leb lo n && Nat.leb n hi.

(** The longest run of digits at the head, and what follows it. *)
Fixpoint span_digits (s : string) : string * string :=
  match s with
  | EmptyString => (EmptyString, EmptyString)
  | String c t =>
      if is_digit c
      then let (d, r) := span_digits t in (String c d, r)
      else (EmptyString, s)
  end.

(** The pattern [\d+\(\d+\)\([a-z]\)] at the head of [s]: the text it
    matches.  A run of digits is followed by a non-digit, so the longest
    run is the only one that can be followed by the bracket. *)
Definition match_subsection (s : string) : option string :=
  let (d1, r1) := span_digits s in
  match d1, r1 with
  | String _ _, String open1 r2 =>
      let (d2, r3) := span_digits r2 in
      match d2, r3 with
      | String _ _, String close1 (String open2 (String letter (String close2 _))) =>
          if Ascii.eqb open1 "("%char && Ascii.eqb close1 ")"%char
             && Ascii.eqb open2 "("%char && in_class 97 122 letter
             && Ascii.eqb close2 ")"%char
          then Some (d1 ++ "(" ++ d2 ++ ")(" ++ String letter ")")
          else None
      | _, _ => None
      end
  | _, _ => None
  end.

(** The pattern [83\(2\)\([a-k]\)] at the head of [s]. *)
Definition match_83_2 (s : string) : option string :=
  if PyStr.starts_with "83(2)(" s then
    match String.substring 6 2 s with
    | String letter (String close EmptyString) =>
        if in_class 97 107 letter && Ascii.eqb close ")"%char
        then Some ("83(2)(" ++ String letter ")")
        else None
    | _ => None
    end
  else None.

(** [re.findall]: the matches from left to right, without overlap; [skip]
    counts the characters of the last match still to pass. *)
Fixpoint findall_from (matcher : string -> option string) (skip : nat)
    (s : string) : list string :=
  match s with
  | EmptyString => []
  | String _ t =>
      match skip with
      | S k => findall_from matcher k t
      | O =>
          match matcher s with
          | Some m => m :: findall_from matcher (String.length m - 1) t
          | None => findall_from matcher 0 t
          end
      end
  end.

Definition findall (matcher : string -> option string) (s : string)
    : list string :=
  findall_from matcher 0 s.

(** [x in l] on a list of [str]. *)
Definition mem (x : string) (l : list string) : bool :=
  existsb (String.eqb x) l.

(** [set(l)], kept as the first occurrences. *)
Fixpoint distinct (l : list string) : list string :=
  match l with
  | [] => []
  | x :: t => x :: filter (fun y => negb (String.eqb x y)) (distinct t)
  end.

Definition rule0_message : string :=
  "❌ Reasoning Map: The reasoning_map field is EMPTY. You MUST populate it.".

Definition subsection_h_message : string :=
  "❌ Subsection Error: Do not cite 83(2)(h) for notification. Use 83(2)(c).".

Definition semantic_split_message : string :=
  "❌ Semantic Split: 83(2)(c) is for data subjects, not authority cooperation.".

Definition semantic_mismatch_message : string :=
  "❌ Semantic Mismatch: 83(2)(f) must describe cooperation with authority.".

Definition article17_message : string :=
  "❌ Citation Integrity: Erasure/deletion discussed but Article 17 not cited.".

Definition article6_message : string :=
  "❌ Legal Basis Missing: Must cite Article 6 (Lawfulness).".

Definition scope_message : string :=
  "❌ Scope Logic: When claiming 'legal obligation', must state 'strictly necessary'.".

Definition partial_refusal_message : string :=
  "❌ Risk Signal: Partial Refusals must be MEDIUM or HIGH, not LOW.".

Definition mitigation_message : string :=
  "❌ Risk Signal: Mitigation implies infringement. Risk cannot be LOW.".

Definition grounding_message : string :=
  "❌ Subsection Grounding: Must cite at least two 83(2) subsections.".

Definition authority_keywords : list string :=
  ["authority"; "regulator"; "investigat"; "supervis"; "cooperat"].

Definition data_subject_keywords : list string :=
  ["data subject"; "affected"; "harm"; "damage"; "protect"; "inform"].

Definition stop_words : list string :=
  ["which"; "their"; "about"; "after"; "before"; "under"; "where"].

Definition factors : list string :=
  ["nature"; "gravity"; "duration"; "negligen"; "intentional"; "actions taken";
   "mitigat"; "cooperate"; "cooperation"; "categories"; "previous infringement";
   "notify"; "notified"].

(** [fact_key_terms] of an entry. *)
Definition fact_key_terms (entry : ReasoningMapEntry) : list string :=
  filter (fun t => Nat.ltb 4 (py_len t) && negb (mem t stop_words))
         (PyStr.split (PyStr.lower (fact entry))).

(** The body of the loop over [reasoning_map], for one entry. *)
Definition check_entry (q_lower : string) (entry : ReasoningMapEntry)
    : list string :=
  let subsection := PyStr.lower (gdpr_subsection entry) in
  let combined_text :=
    PyStr.lower (legal_meaning entry ++ " " ++ justification entry ++ " "
                 ++ fact entry) in
  ((if PyStr.str_in "83(2)(h)" subsection then [subsection_h_message] else [])
   ++ (if PyStr.str_in "83(2)(c)" subsection
          && (PyStr.any_in authority_keywords combined_text
              && negb (PyStr.any_in data_subject_keywords combined_text))
       then [semantic_split_message] else [])
   ++ (if PyStr.str_in "83(2)(f)" subsection
          && negb (PyStr.any_in authority_keywords combined_text)
       then [semantic_mismatch_message] else [])
   ++ (let terms := fact_key_terms entry in
       let fact_grounded := existsb (fun term => PyStr.str_in term q_lower) terms in
       if negb fact_grounded && Nat.ltb 0 (List.length terms)
       then [("❌ Fact Integrity: '" ++ fact entry
              ++ "' not grounded in user query.")%string]
       else []))%list.

(** Rule 0: the reasoning map and the citations of the prose. *)
Definition check_reasoning_map (repr_set : list string -> string)
    (response : ComplianceResponse) (q_lower : string) : list string :=
  match reasoning_map response with
  | [] => [rule0_message]
  | _ :: _ =>
      let map_subsections := map gdpr_subsection (reasoning_map response) in
      let prose_text := summary response ++ " " ++ legal_basis response in
      let prose_subsections := distinct (findall match_subsection prose_text) in
      let orphan_subsections :=
        filter (fun m => negb (mem m map_subsections)) prose_subsections in
      ((match orphan_subsections with
        | [] => []
        | _ :: _ =>
            [("❌ Citation Laundering: " ++ repr_set orphan_subsections
              ++ " cited in prose but NOT in reasoning_map.")%string]
        end)
       ++ flat_map (check_entry q_lower) (reasoning_map response))%list
  end.

(** The factors of Article 83(2) named in the summary. *)
Definition found_factors (response : ComplianceResponse) : list string :=
  filter (fun f => PyStr.str_in f (PyStr.lower (summary response))) factors.

(** Does the fine and mitigation block apply? *)
Definition penalty_topic (response : ComplianceResponse) (q_lower : string) : bool :=
  PyStr.str_in "fine" q_lower || PyStr.str_in "mitigat" q_lower
  || PyStr.str_in "83" (legal_basis response).

(** The legacy rules. *)
Definition check_legacy (response : ComplianceResponse) (q_lower : string)
    : list string :=
  ((if PyStr.str_in "erase" q_lower || PyStr.str_in "deletion" q_lower
       || PyStr.str_in "force" q_lower
    then
      ((if negb (PyStr.str_in "17" (legal_basis response))
           && negb (PyStr.str_in "17" (summary response))
        then [article17_message] else [])
       ++ (if negb (PyStr.str_in "6" (legal_basis response))
              && negb (PyStr.str_in "6" (summary response))
           then [article6_message] else []))
    else [])
   ++ (if (PyStr.str_in "17(3)(b)" (legal_basis response)
           || PyStr.str_in "legal obligation" (PyStr.lower (legal_basis response)))
          && negb (PyStr.str_in "strictly necessary"
                     (PyStr.lower (scope_limitation response)))
       then [scope_message] else [])
   ++ (if PyStr.str_in "partial refusal" (PyStr.lower (summary response))
          && RiskLevel_eqb (risk_level response) LOW
       then [partial_refusal_message] else [])
   ++ (if penalty_topic response q_lower
       then
         ((if RiskLevel_eqb (risk_level response) LOW
           then [mitigation_message] else [])
          ++ (if Nat.ltb (List.length (found_factors response)) 3
              then [("❌ Depth Check: Art 83(2) requires multi-factor test. Only "
                     ++ PyStr.of_int (Z.of_nat (List.length (found_factors response)))
                     ++ " found.")%string]
              else [])
          ++ (if Nat.ltb
                   (List.length (findall match_83_2 (summary response))) 2
              then [grounding_message] else []))
       else []))%list.

(** [_validate_response]; [repr_set] renders a set of [str] inside an
    f-string. *)
Definition validate_response (repr_set : list string -> string)
    (response : ComplianceResponse) (query : string) : list string :=
  let q_lower := PyStr.lower query in
  (check_reasoning_map repr_set response q_lower
   ++ check_legacy response q_lower)%list.

End Rules.

(** Sample input of the rule check. *)
Module Sample_rules.

(** Python's rendering of a set, in some order. *)
Definition repr_set (l : list string) : string :=
  "{" ++ PyStr.join ", " l ++ "}".

(** The collaborators of [Sample.W] with the rule check of [nodes.py]. *)
Definition W : Collaborators :=
  Sample.world [Sample.hit5] (Rules.validate_response repr_set) Sample.answers.

(** A candidate without a reasoning map. *)
Definition unmapped : ComplianceResponse :=
  mkComplianceResponse "Test summary" false [] "Article 6" "N/A" "Test" MEDIUM
    (1 # 2)%Q (Some []) [].

(** A state that holds that candidate. *)
Definition s_unmapped : AgentState :=
  merge (Sample.state "test query about erasure" None)
    (with_analysis (Schema.model_dump unmapped) no_update).


(** A tax-retention erasure question phrased as a definition question. *)
Definition tax_definition_query : string :=
  "What is the rule if we refuse to erase tax records?".

End Sample_rules.

(** Text made of digits only. *)
Fixpoint all_digits (s : string) : bool :=
  match s with
  | EmptyString => true
  | String c t => Rules.is_digit c && all_digits t
  end.

(** The shape [digits(digits)(letter)] of a cited subsection. *)
Definition subsection_shape (m : string) : Prop :=
  exists d1 d2 letter,
    m = d1 ++ "(" ++ d2 ++ ")(" ++ String letter ")"
    /\ d1 <> "" /\ d2 <> ""
    /\ all_digits d1 = true /\ all_digits d2 = true
    /\ Rules.in_class 97 122 letter = true.

(** The condition of the tax-retention override in the GDPR branch. *)
Definition tax_erasure_query (query : string) : bool :=
  PyStr.str_in "tax" (PyStr.lower query)
  && (PyStr.str_in "erase" (PyStr.lower query)
      || PyStr.str_in "delet" (PyStr.lower query)
      || PyStr.str_in "refuse" (PyStr.lower query)).

(* ================================================================== *)
(** * Vocabulary of the further statements *)
(* ================================================================== *)

(** [k] rounds of generation and validation. *)
Definition cycles (k : nat) : list Node := List.concat (repeat [llm; validator] k).

(** The stages every analysis turn starts with. *)
Definition analysis_prefix : list Node := [guardrail; retrieve; clarify].

(** The stages a finished turn has run, [k] being its final retry count. *)
Definition finished_path (k : nat) (v : list Node) : Prop :=
  v = [guardrail]
  \/ v = [guardrail; chat]
  \/ v = analysis_prefix
  \/ ((k <= 2)%nat /\ v = (analysis_prefix ++ cycles k ++ [llm])%list)
  \/ ((k <= 2)%nat
      /\ v = (analysis_prefix ++ cycles k
              ++ [llm; validator; semantic_override; governance])%list)
  \/ (k = 3%nat /\ v = (analysis_prefix ++ cycles 3 ++ [fallback])%list).

(** The stages run before each point of a turn. *)
Definition path_shape (c : Config) : Prop :=
  let k := Z.to_nat (retry_count (cfg_state c)) in
  let v := cfg_visited c in
  match cfg_next c with
  | To guardrail => v = []
  | To chat | To retrieve => v = [guardrail]
  | To clarify => v = [guardrail; retrieve]
  | To llm => v = (analysis_prefix ++ cycles k)%list
  | To tool_executor => False
  | To validator => v = (analysis_prefix ++ cycles k ++ [llm])%list
  | To semantic_override =>
      (k <= 2)%nat /\ v = (analysis_prefix ++ cycles k ++ [llm; validator])%list
  | To governance =>
      (k <= 2)%nat
      /\ v = (analysis_prefix ++ cycles k ++ [llm; validator; semantic_override])%list
  | To fallback => k = 3%nat /\ v = (analysis_prefix ++ cycles 3)%list
  | END => finished_path k v
  end.

Definition Node_eqb (a b : Node) : bool :=
  match a, b with
  | guardrail, guardrail | chat, chat | retrieve, retrieve | clarify, clarify
  | llm, llm | validator, validator | semantic_override, semantic_override
  | governance, governance | fallback, fallback
  | tool_executor, tool_executor => true
  | _, _ => false
  end.

(** How often stage [n] occurs among the stages run. *)
Definition visits (n : Node) (v : list Node) : nat :=
  List.length (filter (Node_eqb n) v).

(** Before the override and before governance the candidate parses. *)
Definition analysis_parses (c : Config) : Prop :=
  cfg_next c = To semantic_override \/ cfg_next c = To governance ->
  exists d r, analysis (cfg_state c) = Some d /\ Schema.parse d = Some r.

(** The hold-for-review envelope of governance around a record. *)
Definition review_envelope (decision : GovernanceDecision)
    (response : ComplianceResponse) : dict :=
  Dict.update
    [("type", VStr "review_required");
     ("reason", VStr (reason decision));
     ("risk_level", VStr (decision_risk_level decision));
     ("confidence", VFloat (confidence decision))]
    (Schema.model_dump response).

(** The decision policy holds a record for review. *)
Definition held_for_review (response : ComplianceResponse) : Prop :=
  risk_level response = CRITICAL \/ (confidence_score response < 3 # 4)%Q.

(** Calls to the generative backend among the external calls. *)
Definition is_create (e : Event) : bool :=
  match e with
  | EvCreate _ _ _ => true
  | _ => false
  end.

Definition creates (log : Log) : nat := List.length (filter is_create log).

(** Calls to the retrieval collaborators. *)
Definition is_search (e : Event) : bool :=
  match e with
  | EvHybridSearch _ _ | EvSearchLawsuits _ => true
  | _ => false
  end.

Definition searches (log : Log) : nat := List.length (filter is_search log).

(** The number of models of the configured provider. *)
Definition models_configured (W : Collaborators) : nat :=
  match get_llm_client W with
  | inl models => List.length models
  | inr _ => 0
  end.

(** The stages that call the generative backend, and retrieve. *)
Definition generative (n : Node) : bool :=
  match n with
  | chat | clarify | llm => true
  | _ => false
  end.

Definition generative_visits (v : list Node) : nat :=
  List.length (filter generative v).

Definition retrieve_visits (v : list Node) : nat := visits retrieve v.

(* ================================================================== *)
(** * [agent/llm_client.py]: the choice of provider *)
(* ================================================================== *)






(** The name under which a pending call is dispatched. *)
Definition call_name (tc : ToolCall) : string := or_else (tc_name tc) "".

(** A registry with one tool that raises and one that answers. *)
Definition sample_registry : list (string * (dict -> nat -> string + string)) :=
  [("search_regulations", fun _ _ => inl "--- GDPR Regulation Search Results ---");
   ("broken", fun _ _ => inr "missing argument")].

(** [Sample.W] with that registry. *)
Definition W_tools : Collaborators :=
  mkCollaborators (get_llm_client Sample.W) (create_text Sample.W)
    (create_clarification Sample.W) (create_compliance Sample.W)
    (corpus Sample.W) (hybrid_search Sample.W) (search_lawsuits Sample.W)
    sample_registry (validate_response Sample.W) (parse_error_text Sample.W)
    (json_dumps Sample.W) (repr_list Sample.W) (repr_dict Sample.W)
    (format_2f Sample.W).

(** The identifiers [build_context] expands, in the order it expands
    them: [sorted(list(retrieved_ids))] after the injection loop. *)
Definition context_ids (query : string) (results : list Hit) : list string :=
  Retrieval.sorted_by (fun a => a)
    (Retrieval.inject (PyStr.lower query)
       (Retrieval.set_of (map (fun r => str_of_id (hit_article_id r)) results))).

(** A rule of [DOMAIN_MAP] fires on a query and injects [y]. *)
Definition injected_by (query y : string) : Prop :=
  exists rule triggers injected,
    In (rule, (triggers, injected)) Retrieval.DOMAIN_MAP
    /\ PyStr.any_in triggers (PyStr.lower query) = true
    /\ In y injected.

(** Hits on Articles 6 and 33, as the index answers a breach query. *)
Definition hits_6_33 : list Hit :=
  [mkHit (IdInt 6) "6.1" "Processing shall be lawful only if";
   mkHit (IdInt 33) "33.1" "In the case of a personal data breach";
   mkHit (IdInt 6) "6.2" "Member States may maintain"].

(** [c] stands before an occurrence of [d] in [l]. *)
Definition occurs_before {A : Type} (c d : A) (l : list A) : Prop :=
  exists l1 l2, l = (l1 ++ c :: l2)%list /\ In d l2.

(** ** Streaming a turn *)

(** The name a stage is registered under in [build_graph]. *)
Definition node_name (n : Node) : string :=
  match n with
  | guardrail => "guardrail"
  | chat => "chat"
  | retrieve => "retrieve"
  | clarify => "clarify"
  | llm => "llm"
  | validator => "validator"
  | semantic_override => "semantic_override"
  | governance => "governance"
  | fallback => "fallback"
  | tool_executor => "tool_executor"
  end.

(** [NODE_LABELS.get(node_name, ...)]: every stage has a label. *)
Definition NODE_LABELS (n : Node) : string :=
  match n with
  | guardrail => "Running intent safety check..."
  | chat => "Generating conversational response..."
  | retrieve => "Searching internal regulations..."
  | clarify => "Checking if clarification is needed..."
  | llm => "Generating compliance analysis..."
  | validator => "Validating LLM citations..."
  | semantic_override => "Applying regulatory overrides..."
  | governance => "Running governance decision gate..."
  | tool_executor => "Executing regulation lookup tool..."
  | fallback => "Analysis failed, returning fallback..."
  end.

Definition newer {A : Type} (b a : option A) : option A :=
  match b with
  | Some v => Some v
  | None => a
  end.

(** [last_state.update(state_update)]: a plain dict update of the deltas,
    every key of the update replaces the one collected so far. *)
Definition dict_update (last_state state_update : Update) : Update :=
  mkUpdate
    (newer (u_messages state_update) (u_messages last_state))
    (newer (u_retrieved_context state_update) (u_retrieved_context last_state))
    (newer (u_analysis state_update) (u_analysis last_state))
    (newer (u_validation_errors state_update) (u_validation_errors last_state))
    (newer (u_retry_count state_update) (u_retry_count last_state))
    (newer (u_route state_update) (u_route last_state))
    (newer (u_tool_calls state_update) (u_tool_calls last_state))
    (newer (u_final_response state_update) (u_final_response last_state))
    (newer (u_clarification_options state_update)
       (u_clarification_options last_state)).

(** What [stream_graph] yields, before [json.dumps]. *)
Inductive StreamItem : Type :=
| ItemNode (n : Node) (retry_count : Z)
| ItemResult (data : dict)
| ItemError (message : string)
| ItemDone.

Definition no_response : dict :=
  [("type", VStr "error"); ("message", VStr "No response generated.")].

(** The item yielded after the last superstep: [final] when it is truthy,
    the default otherwise. *)
Definition result_item (last_state : Update) : StreamItem :=
  match u_final_response last_state with
  | Some (kv :: rest) => ItemResult (kv :: rest)
  | _ => ItemResult no_response
  end.

Section Streaming.

Variable W : Collaborators.

(** [str(e)] of the error the graph library raises at its recursion
    limit. *)
Variable recursion_error : string.

Definition render (i : StreamItem) : string :=
  match i with
  | ItemNode n rc =>
      json_dumps W
        [("event", VStr "node"); ("node", VStr (node_name n));
         ("label", VStr (NODE_LABELS n)); ("retry_count", VInt rc)]
  | ItemResult data =>
      json_dumps W [("event", VStr "result"); ("data", VDict data)]
  | ItemError message =>
      json_dumps W
        [("event", VStr "error");
         ("data", VDict [("type", VStr "error"); ("message", VStr message)])]
  | ItemDone => "[DONE]"
  end.

(** The body of the [try]: one node item per superstep, then the result;
    whatever is raised ends the loop with an error item. *)
Fixpoint astream (limit : nat) (c : Config) (last_state : Update)
    : list StreamItem :=
  match cfg_next c with
  | END => [result_item last_state]
  | To n =>
      match limit with
      | O => [ItemError recursion_error]
      | S limit' =>
          match run_node W n (cfg_state c) (cfg_log c) with
          | (Raise e, _) => [ItemError e]
          | (Ok u, log') =>
              let s' := merge (cfg_state c) u in
              let last_state' := dict_update last_state u in
              match next_target n s' with
              | None => [ItemError "router key not in the edge mapping"]
              | Some t =>
                  ItemNode n (or_else (u_retry_count last_state') 0)
                  :: astream limit'
                       (mkConfig t s' log' (cfg_visited c ++ [n])%list)
                       last_state'
              end
          end
      end
  end.

(** [stream_graph]: the strings it yields. *)
Definition stream_graph (limit : nat) (history : list Message)
    (user_query domain thread_id : string)
    (user_selections : option (list string)) : list string :=
  map render
    (astream limit
       (initial_config
          (initial_state history user_query domain thread_id user_selections))
       no_update
     ++ [ItemDone])%list.

(** The supersteps of [run]: each stage run, with the point it led to. *)
Fixpoint trace (limit : nat) (c : Config) : list (Node * Config) :=
  match cfg_next c with
  | END => []
  | To n =>
      match limit with
      | O => []
      | S limit' =>
          match step W c with
          | Raise _ => []
          | Ok c' => (n, c') :: trace limit' c'
          end
      end
  end.

End Streaming.

(** The node item of a superstep: the stage and the retry count reached. *)
Definition node_item (p : Node * Config) : StreamItem :=
  ItemNode (fst p) (retry_count (cfg_state (snd p))).

(** What the deltas collected by [stream_graph] say of the state. *)
Definition deltas_agree (last_state : Update) (s : AgentState) : Prop :=
  or_else (u_retry_count last_state) 0 = retry_count s
  /\ u_final_response last_state = final_response s.

(** How many messages a turn can have added before the stage at [t] runs,
    with the retry count at [rc]: the first generation adds its two
    prompts, a retry at most four. *)
Definition new_messages_bound (t : Target) (rc : Z) : Z :=
  match t with
  | To guardrail | To chat | To retrieve | To clarify => 0
  | To llm | To fallback => Z.max 0 (4 * rc - 2)
  | To validator | To tool_executor | To semantic_override | To governance =>
      4 * rc + 2
  | END => 10
  end.

Definition messages_invariant (history : list Message) (c : Config) : Prop :=
  exists new_messages,
    messages (cfg_state c) = (history ++ new_messages)%list
    /\ Z.of_nat (List.length new_messages)
       <= new_messages_bound (cfg_next c) (retry_count (cfg_state c))
    /\ Z.of_nat (List.length new_messages) <= 10
    /\ (~ In llm (cfg_visited c) -> new_messages = []).


(** The options of a clarification built from the model's answer. *)
Definition clarification_options_of (result : ClarificationResponse) : list dict :=
  (map Schema.dump_option (firstn 4 (cl_options result))
   ++ [opt_custom; opt_unknown])%list.



(** A model that asks back with five options. *)
Definition asking : ClarificationResponse :=
  mkClarificationResponse true "The answer depends on the circumstances."
    [mkClarificationOption "opt_1" "Was the data encrypted?" 1;
     mkClarificationOption "opt_2" "How many records?" 2;
     mkClarificationOption "opt_3" "Was the authority notified?" 3;
     mkClarificationOption "opt_4" "Was it health data?" 4;
     mkClarificationOption "opt_5" "Is a processor involved?" 4].


(* ================================================================== *)
(** * [backend/main.py]: the follow-up endpoint *)
(* ================================================================== *)

(** [s.lstrip()], of ASCII white space. *)
Fixpoint lstrip (s : string) : string :=
  match s with
  | EmptyString => EmptyString
  | String c t => if PyStr.is_space c then lstrip t else s
  end.

(** [s.rstrip()], of ASCII white space. *)
Fixpoint rstrip (s : string) : string :=
  match s with
  | EmptyString => EmptyString
  | String c t =>
      match rstrip t with
      | EmptyString => if PyStr.is_space c then EmptyString else String c EmptyString
      | String c' t' => String c (String c' t')
      end
  end.

(** [s.strip()] *)
Definition strip (s : string) : string := rstrip (lstrip s).

(** The [user_selections] that [followup_endpoint] hands to
    [stream_graph]. *)
Definition followup_selections (selected_options : list string)
    (custom_text : string) : list string :=
  match strip custom_text with
  | EmptyString => selected_options
  | String _ _ =>
      (selected_options
       ++ [("Additional context: " ++ strip custom_text)%string])%list
  end.

(** A state with other selections. *)
Definition with_user_selections (v : option (list string)) (s : AgentState)
    : AgentState :=
  mkAgentState (messages s) (user_query s) (domain s) (retrieved_context s)
    (analysis s) (validation_errors s) (retry_count s) (route s)
    (tool_calls s) (final_response s) (thread_id s) (clarification_options s) v.

(** Every character of [s] is white space. *)
Fixpoint blank (s : string) : bool :=
  match s with
  | EmptyString => true
  | String c t => PyStr.is_space c && blank t
  end.

(* ================================================================== *)
(** * [agent/tools.py]: the regulation search tool *)
(* ================================================================== *)

Module Tools.

(** The query terms: the words longer than two characters, lower-cased. *)
Definition query_terms (query : string) : list string :=
  map PyStr.lower
    (filter (fun t => Nat.ltb 2 (py_len t)) (PyStr.split query)).

(** The text an article is searched in: its lower-cased title and clause
    texts, separated by blanks. *)
Definition full_text (art : Article) : string :=
  fold_left (fun acc clause => acc ++ " " ++ PyStr.lower (clause_text clause))
    (clauses art) (PyStr.lower (or_else (title art) "")).

(** The number of query terms found in the article. *)
Definition score (terms : list string) (art : Article) : nat :=
  List.length (filter (fun term => PyStr.str_in term (full_text art)) terms).

(** The readable text of an article. *)
Definition article_text (art : Article) : string :=
  fold_left
    (fun acc clause =>
       acc ++ "  [" ++ clause_id clause ++ "] " ++ clause_text clause ++ nl)
    (Retrieval.sorted_by clause_id (clauses art))
    ("Article " ++ str_of_id (article_id art) ++ ": "
     ++ or_else (title art) "Untitled" ++ nl).

(** [scored_articles]: the articles with a positive score, in the order of
    the corpus. *)
Definition scored_articles (terms : list string) (articles : list Article)
    : list (nat * string) :=
  flat_map
    (fun art =>
       let sc := score terms art in
       if Nat.ltb 0 sc then [(sc, article_text art)] else [])
    articles.

(** [l.sort(key=lambda x: x[0], reverse=True)]: stable, highest score
    first. *)
Fixpoint insert_desc (x : nat * string) (l : list (nat * string))
    : list (nat * string) :=
  match l with
  | [] => [x]
  | y :: t =>
      if Nat.ltb (fst y) (fst x) then x :: y :: t
      else y :: insert_desc x t
  end.

Definition sort_desc (l : list (nat * string)) : list (nat * string) :=
  fold_left (fun acc x => insert_desc x acc) l [].

(** [search_regulations]; [data] is the content of the regulation file,
    [None] when the file does not exist. *)
Definition search_regulations (data_path : string) (data : option (list Article))
    (query jurisdiction : string) : string :=
  match data with
  | None => "Error: Regulation data file not found at " ++ data_path
  | Some [] => "Error: No articles found in regulation data."
  | Some ((_ :: _) as articles) =>
      match scored_articles (query_terms query) articles with
      | [] =>
          "No articles found matching '" ++ query ++ "' in " ++ jurisdiction
          ++ " regulations."
      | (_ :: _) as scored =>
          let results := map snd (firstn 3 (sort_desc scored)) in
          "--- " ++ jurisdiction ++ " Regulation Search Results ---" ++ nl ++ nl
          ++ PyStr.join (nl ++ nl) results
      end
  end.

End Tools.

(** A corpus of four articles on breaches and fines. *)
Definition breach_corpus : list Article :=
  [mkArticle (IdInt 4) (Some "Definitions")
     [mkClause "12" "personal data breach means a breach of security"];
   mkArticle (IdInt 33) (Some "Notification of a personal data breach")
     [mkClause "1" "the controller shall notify the breach to the authority"];
   mkArticle (IdInt 34) (Some "Communication of a breach to the data subject")
     [mkClause "1" "the controller shall communicate the breach"];
   mkArticle (IdInt 83) (Some "Administrative fines")
     [mkClause "1" "fines for infringements of data protection rules"]].



(** A domain for which retrieve has no branch and [PROMPTS] no entry. *)
Definition uncovered_domain (dom : string) : Prop :=
  dom <> "GDPR" /\ dom <> "FDA" /\ dom <> "CCPA".

(** The context is empty or only holds the user's answers. *)
Definition answers_only (sel : option (list string)) (context : string) : Prop :=
  context = ""
  \/ exists sels, sel = Some sels /\ sels <> [] /\ context = enrich "" sels.

(** What a turn in such a domain knows at each point: nothing was
    searched, and the context is empty until clarify has run. *)
Definition contextless (dom : string) (sel : option (list string)) (c : Config)
    : Prop :=
  domain (cfg_state c) = dom
  /\ user_selections (cfg_state c) = sel
  /\ searches (cfg_log c) = 0%nat
  /\ match cfg_next c with
     | To guardrail | To chat | To retrieve | To clarify =>
         retrieved_context (cfg_state c) = ""
     | _ => answers_only sel (retrieved_context (cfg_state c))
     end.

(* ================================================================== *)
(** * Properties *)
(* ================================================================== *)

(** ** The effect monad *)

Lemma bind_ok {A B : Type} (c : M A) (k : A -> M B) log b log' :
  bind c k log = (Ok b, log') ->
  exists a log1, c log = (Ok a, log1) /\ k a log1 = (Ok b, log').
Proof.
  unfold bind. destruct (c log) as [[a | e] log1]; intros H.
  - exists a, log1. split; [reflexivity | exact H].
  - discriminate H.
Qed.

Lemma try_except_ok {A : Type} (c : M A) (h : string -> M A) log a log' :
  try_except c h log = (Ok a, log') ->
  c log = (Ok a, log') \/ exists e log1, c log = (Raise e, log1) /\ h e log1 = (Ok a, log').
Proof.
  unfold try_except. destruct (c log) as [[a1 | e] log1]; intros H.
  - left. exact H.
  - right. exists e, log1. split; [reflexivity | exact H].
Qed.

Lemma ret_ok {A : Type} (a b : A) log log' :
  ret a log = (Ok b, log') -> a = b /\ log = log'.
Proof. unfold ret. intros H. inversion H. split; reflexivity. Qed.

Lemma raise_not_ok {A : Type} (e : string) log (a : A) log' :
  raise e log = (Ok a, log') -> False.
Proof. unfold raise. intros H. discriminate H. Qed.

(** ** Routing after validation *)

(** C1. After the validator the router has exactly three outcomes: with no
    validation errors the next stage is semantic_override; with errors and
    retry_count < 3 it is llm; with errors and retry_count >= 3 it is
    fallback. *)
Theorem route_after_validation_outcomes (s : AgentState) :
  (validation_errors s = [] ->
     route_after_validation s = "semantic_override"
     /\ next_target validator s = Some (To semantic_override))
  /\ (validation_errors s <> [] -> retry_count s < 3 ->
      route_after_validation s = "llm"
      /\ next_target validator s = Some (To llm))
  /\ (validation_errors s <> [] -> 3 <= retry_count s ->
      route_after_validation s = "fallback"
      /\ next_target validator s = Some (To fallback))
  /\ (next_target validator s = Some (To semantic_override)
      \/ next_target validator s = Some (To llm)
      \/ next_target validator s = Some (To fallback)).
Proof.
  unfold next_target. cbn [build_graph]. unfold route_after_validation.
  destruct (validation_errors s) as [| e es] eqn:E.
  - split; [| split; [| split]].
    + intros _. split; reflexivity.
    + intros Hne. contradiction Hne. reflexivity.
    + intros Hne. contradiction Hne. reflexivity.
    + left. reflexivity.
  - destruct (Z.ltb_spec (retry_count s) 3) as [Hlt | Hge].
    + split; [| split; [| split]].
      * intros Hnil. discriminate Hnil.
      * intros _ _. split; reflexivity.
      * intros _ Hge. lia.
      * right. left. reflexivity.
    + split; [| split; [| split]].
      * intros Hnil. discriminate Hnil.
      * intros _ Hlt. lia.
      * intros _ _. split; reflexivity.
      * right. right. reflexivity.
Qed.

(** A state with one error after one retry goes back to llm; after three,
    to fallback; without errors, on to semantic_override. *)
Lemma route_after_validation_witness :
  next_target validator
    (mkAgentState [] "q" "GDPR" "" None [] 0 "" [] None "t" None None)
    = Some (To semantic_override)
  /\ next_target validator
       (mkAgentState [] "q" "GDPR" "" None ["err"] 1 "" [] None "t" None None)
     = Some (To llm)
  /\ next_target validator
       (mkAgentState [] "q" "GDPR" "" None ["err"] 3 "" [] None "t" None None)
     = Some (To fallback).
Proof.
  split; [| split].
  - apply (proj1 (route_after_validation_outcomes _)). reflexivity.
  - apply (proj1 (proj2 (route_after_validation_outcomes _))).
    + simpl. discriminate.
    + simpl. lia.
  - apply (proj1 (proj2 (proj2 (route_after_validation_outcomes _)))).
    + simpl. discriminate.
    + simpl. lia.
Defined.

(** ** The failover loop *)

Lemma fail_over_nil {A : Type} (answer : string -> nat -> A + string) t0 :
  fail_over answer t0 [].
Proof. intros [| i] model H; discriminate H. Qed.

Lemma fail_over_cons {A : Type} (answer : string -> nat -> A + string) t0
    model e pre :
  answer model t0 = inr e ->
  is_schema_mismatch (PyStr.lower e) = false ->
  fail_over answer (S t0) pre ->
  fail_over answer t0 (model :: pre).
Proof.
  intros Hans Hsoft Hpre [| i] m H.
  - inversion H; subst m. exists e. rewrite Nat.add_0_r. split; assumption.
  - simpl in H. destruct (Hpre i m H) as [e' [He' Hs']].
    exists e'. rewrite Nat.add_succ_r. split; assumption.
Qed.

Section Failover_facts.

Context {A : Type}.
Variable repr : list string -> string.
Variable ev : string -> Event.
Variable answer : string -> nat -> A + string.
Variable n_models : nat.

Let create (model : string) : M A := call (ev model) (answer model).

(** Every run of the loop has one of three shapes: a model answers after
    softer failures, a schema mismatch stops the loop, or the list is
    exhausted. *)
Lemma failover_loop_outcomes (models : list string) :
  forall (errors : list string) (log : Log),
    let out := failover_loop repr create n_models models errors log in
    (exists pre model post r,
        models = (pre ++ model :: post)%list
        /\ fail_over answer (List.length log) pre
        /\ answer model (List.length log + List.length pre)%nat = inl r
        /\ out = (Ok r, (log ++ map ev (pre ++ [model]))%list))
    \/ (exists pre model post e,
        models = (pre ++ model :: post)%list
        /\ fail_over answer (List.length log) pre
        /\ answer model (List.length log + List.length pre)%nat = inr e
        /\ is_schema_mismatch (PyStr.lower e) = true
        /\ out = (Raise (schema_message (PyStr.lower e)),
                  (log ++ map ev (pre ++ [model]))%list))
    \/ (fail_over answer (List.length log) models
        /\ exists errs,
             List.length errs = (List.length errors + List.length models)%nat
             /\ out = (Raise (outage_message repr n_models errs),
                       (log ++ map ev models)%list)).
Proof.
  induction models as [| model rest IH]; intros errors log out.
  - right. right. split; [apply fail_over_nil |].
    exists errors. split.
    + simpl. rewrite Nat.add_0_r. reflexivity.
    + subst out. simpl. unfold raise. rewrite app_nil_r. reflexivity.
  - subst out. cbn [failover_loop].
    set (loop_rest := failover_loop repr create n_models rest).
    unfold try_except, create, call.
    destruct (answer model (List.length log)) as [r | e] eqn:Hans; subst loop_rest.
    + left. exists [], model, rest, r.
      split; [reflexivity |]. split; [apply fail_over_nil |].
      split; [simpl; rewrite Nat.add_0_r; exact Hans | reflexivity].
    + destruct (is_schema_mismatch (PyStr.lower e)) eqn:Hschema.
      * right. left. exists [], model, rest, e.
        split; [reflexivity |]. split; [apply fail_over_nil |].
        split; [simpl; rewrite Nat.add_0_r; exact Hans |].
        split; [exact Hschema | reflexivity].
      * specialize (IH (errors ++ [(model ++ ": " ++ e)%string])%list
                       (log ++ [ev model])%list).
        cbv zeta in IH. fold create in IH.
        assert (Hlen : List.length (log ++ [ev model])%list = S (List.length log)).
        { rewrite length_app. simpl. lia. }
        rewrite Hlen in IH.
        destruct IH as [IH | [IH | IH]].
        -- destruct IH as (pre & m & post & r & Hm & Hpre & Hr & Hout).
           left. exists (model :: pre), m, post, r.
           split; [simpl; rewrite Hm; reflexivity |].
           split; [eapply fail_over_cons; eassumption |].
           split.
           ++ simpl. rewrite Nat.add_succ_r. exact Hr.
           ++ rewrite Hout. rewrite <- app_assoc. reflexivity.
        -- destruct IH as (pre & m & post & e' & Hm & Hpre & He' & Hs & Hout).
           right. left. exists (model :: pre), m, post, e'.
           split; [simpl; rewrite Hm; reflexivity |].
           split; [eapply fail_over_cons; eassumption |].
           split; [simpl; rewrite Nat.add_succ_r; exact He' |].
           split; [exact Hs |].
           rewrite Hout. rewrite <- app_assoc. reflexivity.
        -- destruct IH as (Hall & errs & Hlen' & Hout).
           right. right.
           split; [eapply fail_over_cons; eassumption |].
           exists errs. split.
           ++ rewrite Hlen'. rewrite length_app. simpl. lia.
           ++ rewrite Hout. rewrite <- app_assoc. reflexivity.
Qed.

End Failover_facts.

(** The two terminal errors of the loop cannot be mistaken for each other. *)
Lemma schema_not_outage (repr : list string -> string) (n : nat)
    (error_msg : string) (errors : list string) :
  schema_message error_msg <> outage_message repr n errors.
Proof. unfold schema_message, outage_message. simpl. discriminate. Qed.

(** C9. The failover loop over any list of models ends in one of three
    ways.  Either a model answers, after every earlier model failed with an
    error that is not a schema mismatch, each such failure having led to the
    next model being tried.  Or a model fails with a schema mismatch (its
    error text carries a validation-error marker): the loop raises the
    schema error at once and no later model is tried.  Or every model was
    tried and failed otherwise, and only then the outage error is raised. *)
Theorem safe_api_call_failover {A : Type} (repr : list string -> string)
    (ev : string -> Event) (answer : string -> nat -> A + string)
    (models : list string) (log : Log) :
  let out := safe_api_call repr (fun m => call (ev m) (answer m)) models log in
  (exists pre model post r,
      models = (pre ++ model :: post)%list
      /\ fail_over answer (List.length log) pre
      /\ answer model (List.length log + List.length pre)%nat = inl r
      /\ out = (Ok r, (log ++ map ev (pre ++ [model]))%list))
  \/ (exists pre model post e,
      models = (pre ++ model :: post)%list
      /\ fail_over answer (List.length log) pre
      /\ answer model (List.length log + List.length pre)%nat = inr e
      /\ is_schema_mismatch (PyStr.lower e) = true
      /\ out = (Raise (schema_message (PyStr.lower e)),
                (log ++ map ev (pre ++ [model]))%list))
  \/ (fail_over answer (List.length log) models
      /\ exists errs,
           List.length errs = List.length models
           /\ out = (Raise (outage_message repr (List.length models) errs),
                     (log ++ map ev models)%list)
           /\ forall error_msg,
                schema_message error_msg
                <> outage_message repr (List.length models) errs).
Proof.
  intros out. subst out. unfold safe_api_call.
  destruct (failover_loop_outcomes repr ev answer (List.length models) models [] log)
    as [H | [H | H]].
  - left. exact H.
  - right. left. exact H.
  - right. right. destruct H as (Hall & errs & Hlen & Hout).
    split; [exact Hall |]. exists errs.
    split; [exact Hlen |]. split; [exact Hout |].
    intros error_msg. apply schema_not_outage.
Qed.

(** A schema mismatch on the first model: the second is never called.  A
    timeout on the first: the second is called and answers. *)
Example failover_schema_abort :
  safe_api_call (fun _ => "[]")
    (fun m => call (EvCreate m Unstructured []) (Sample.schema_then_ok m))
    ["model-a"; "model-b"] []
  = (Raise "Schema Validation Error: 1 validation error for complianceresponse",
     [EvCreate "model-a" Unstructured []]).
Proof. reflexivity. Qed.

Example failover_next_model :
  safe_api_call (fun _ => "[]")
    (fun m => call (EvCreate m Unstructured []) (Sample.timeout_then_ok m))
    ["model-a"; "model-b"] []
  = (Ok "ok", [EvCreate "model-a" Unstructured []; EvCreate "model-b" Unstructured []]).
Proof. reflexivity. Qed.

(** ** What each stage can return *)

Ltac inv_m :=
  repeat match goal with
  | H : bind _ _ _ = (Ok _, _) |- _ =>
      apply bind_ok in H; destruct H as (? & ? & ? & H)
  | H : ret _ _ = (Ok _, _) |- _ =>
      apply ret_ok in H; destruct H as [? ?]; subst
  | H : raise _ _ = (Ok _, _) |- _ =>
      exfalso; exact (raise_not_ok _ _ _ _ H)
  | H : try_except _ _ _ = (Ok _, _) |- _ =>
      apply try_except_ok in H; destruct H as [H | (? & ? & ? & H)]
  end.

Section Stage_shapes.

Variable W : Collaborators.

Lemma node_guardrail_shape (s : AgentState) :
  node_update W s guardrail (node_guardrail s).
Proof.
  unfold node_guardrail.
  destruct (PyStr.any_in unethical_keywords (PyStr.lower (user_query s))).
  - constructor.
  - match goal with |- context [if ?b then _ else _] => destruct b end;
      constructor.
Qed.

Lemma node_chat_shape (s : AgentState) log u log' :
  node_chat W s log = (Ok u, log') -> node_update W s chat u.
Proof.
  unfold node_chat. intros H. inv_m. constructor.
Qed.

Lemma node_retrieve_shape (s : AgentState) log u log' :
  node_retrieve W s log = (Ok u, log') -> node_update W s retrieve u.
Proof.
  unfold node_retrieve. intros H.
  destruct (String.eqb (domain s) "GDPR").
  - inv_m. destruct x as [| hit hits]; inv_m; constructor.
  - destruct (String.eqb (domain s) "FDA").
    + inv_m. constructor.
    + destruct (String.eqb (domain s) "CCPA"); inv_m; constructor.
Qed.

Lemma node_clarify_shape (s : AgentState) log u log' :
  node_clarify W s log = (Ok u, log') -> node_update W s clarify u.
Proof.
  unfold node_clarify. intros H.
  destruct (user_selections s) as [[| sel sels] |].
  - destruct (PyStr.any_in definition_keywords (PyStr.lower (user_query s))).
    + inv_m. constructor.
    + inv_m; try constructor.
      destruct (cl_needs_clarification x1), (cl_options x1); inv_m; constructor.
  - inv_m. constructor.
  - destruct (PyStr.any_in definition_keywords (PyStr.lower (user_query s))).
    + inv_m. constructor.
    + inv_m; try constructor.
      destruct (cl_needs_clarification x1), (cl_options x1); inv_m; constructor.
Qed.

Lemma node_llm_shape (s : AgentState) log u log' :
  node_llm W s log = (Ok u, log') -> node_update W s llm u.
Proof.
  unfold node_llm. intros H. inv_m.
  - destruct x1 as [r | t]; inv_m; constructor.
  - constructor.
Qed.

Lemma node_validator_shape (s : AgentState) :
  node_update W s validator (node_validator W s).
Proof.
  unfold node_validator.
  destruct (analysis s) as [[| kv d] |] eqn:Ha.
  - apply upd_validator_missing. rewrite Ha. reflexivity.
  - destruct (Schema.parse (kv :: d)).
    + destruct (validate_response W c (user_query s)) as [| e errors].
      * apply upd_validator_pass. rewrite Ha. reflexivity.
      * apply upd_validator_fail. rewrite Ha. reflexivity.
    + apply upd_validator_fail. rewrite Ha. reflexivity.
  - apply upd_validator_missing. rewrite Ha. reflexivity.
Qed.

Lemma node_semantic_override_shape (s : AgentState) log u log' :
  node_semantic_override W s log = (Ok u, log') ->
  node_update W s semantic_override u.
Proof.
  unfold node_semantic_override. intros H.
  destruct (analysis s) as [[| kv d] |].
  - inv_m. constructor.
  - destruct (Schema.parse (kv :: d)); inv_m. constructor.
  - inv_m. constructor.
Qed.

Lemma review_envelope_typed (decision : GovernanceDecision)
    (r : ComplianceResponse) :
  typed_result
    (Dict.update
       [("type", VStr "review_required");
        ("reason", VStr (reason decision));
        ("risk_level", VStr (decision_risk_level decision));
        ("confidence", VFloat (confidence decision))]
       (Schema.model_dump r)).
Proof.
  exists "review_required". split.
  - reflexivity.
  - unfold discriminators. simpl. tauto.
Qed.

Lemma node_governance_shape (s : AgentState) log u log' :
  node_governance W s log = (Ok u, log') -> node_update W s governance u.
Proof.
  unfold node_governance. intros H.
  destruct (analysis s) as [[| kv d] |].
  - inv_m. apply upd_governance_typed.
    exists "error". split; [reflexivity | simpl; tauto].
  - destruct (Schema.parse (kv :: d)) as [response |]; inv_m.
    destruct (needs_clarification response).
    + inv_m. apply upd_governance_bare.
    + destruct (status _) eqn:Hst; inv_m.
      * apply upd_governance_bare.
      * apply upd_governance_typed. apply review_envelope_typed.
      * apply upd_governance_typed.
        exists "blocked". split; [reflexivity | simpl; tauto].
  - inv_m. apply upd_governance_typed.
    exists "error". split; [reflexivity | simpl; tauto].
Qed.

Lemma node_tool_executor_shape (s : AgentState) log u log' :
  node_tool_executor W s log = (Ok u, log') ->
  node_update W s tool_executor u.
Proof.
  unfold node_tool_executor. intros H. inv_m. constructor.
Qed.

Lemma node_fallback_shape (s : AgentState) :
  node_update W s fallback (node_fallback W s).
Proof. unfold node_fallback. constructor. Qed.

(** Every update the executor merges is one of the listed ones. *)
Lemma run_node_shape (n : Node) (s : AgentState) log u log' :
  run_node W n s log = (Ok u, log') -> node_update W s n u.
Proof.
  destruct n; cbn [run_node]; intros H.
  - inv_m. apply node_guardrail_shape.
  - eapply node_chat_shape; eassumption.
  - eapply node_retrieve_shape; eassumption.
  - eapply node_clarify_shape; eassumption.
  - eapply node_llm_shape; eassumption.
  - inv_m. apply node_validator_shape.
  - eapply node_semantic_override_shape; eassumption.
  - eapply node_governance_shape; eassumption.
  - inv_m. apply node_fallback_shape.
  - eapply node_tool_executor_shape; eassumption.
Qed.

(** A superstep, taken apart. *)
Lemma step_ok (c c' : Config) :
  step W c = Ok c' ->
  exists n u,
    cfg_next c = To n
    /\ node_update W (cfg_state c) n u
    /\ cfg_state c' = merge (cfg_state c) u
    /\ next_target n (cfg_state c') = Some (cfg_next c')
    /\ cfg_visited c' = (cfg_visited c ++ [n])%list.
Proof.
  unfold step. intros H.
  destruct (cfg_next c) as [n |]; [| discriminate H].
  destruct (run_node W n (cfg_state c) (cfg_log c)) as [[u | e] log'] eqn:Hrun;
    [| discriminate H].
  destruct (next_target n (merge (cfg_state c) u)) as [t |] eqn:Ht;
    [| discriminate H].
  inversion H; subst c'; clear H. cbn.
  exists n, u. repeat split; try reflexivity.
  - eapply run_node_shape; eassumption.
  - exact Ht.
Qed.

End Stage_shapes.

(** ** The edges *)

Lemma next_target_cases (n : Node) (s : AgentState) (t : Target) :
  next_target n s = Some t -> edge_cases n s t.
Proof.
  unfold next_target. destruct n; cbn [build_graph edge_cases mapping_get].
  - unfold route_after_guardrail.
    destruct (String.eqb_spec (route s) "blocked") as [Hb | Hb].
    + cbn. intros H. inversion H. left. split; [exact Hb | reflexivity].
    + destruct (String.eqb_spec (route s) "general") as [Hg | Hg].
      * cbn. intros H. inversion H. right. left. split; [exact Hg | reflexivity].
      * cbn. intros H. inversion H. right. right.
        split; [exact Hb | split; [exact Hg | reflexivity]].
  - intros H. inversion H. reflexivity.
  - intros H. inversion H. reflexivity.
  - unfold route_after_clarify.
    destruct (String.eqb_spec (route s) "depends") as [Hd | Hd].
    + cbn. intros H. inversion H. left. split; [exact Hd | reflexivity].
    + cbn. intros H. inversion H. right. split; [exact Hd | reflexivity].
  - unfold route_after_llm.
    destruct (String.eqb_spec (route s) "blocked") as [Hb | Hb].
    + cbn. intros H. inversion H. left. split; [exact Hb | reflexivity].
    + destruct (tool_calls s) as [| tc tcs] eqn:Htc.
      * cbn. intros H. inversion H. right. right.
        split; [exact Hb | split; reflexivity].
      * cbn. intros H. inversion H. right. left.
        split; [exact Hb | split; [discriminate | reflexivity]].
  - unfold route_after_validation.
    destruct (validation_errors s) as [| e es] eqn:He.
    + cbn. intros H. inversion H. left. split; reflexivity.
    + destruct (Z.ltb_spec (retry_count s) 3) as [Hlt | Hge].
      * cbn. intros H. inversion H. right. left.
        split; [discriminate | split; [exact Hlt | reflexivity]].
      * cbn. intros H. inversion H. right. right.
        split; [discriminate | split; [exact Hge | reflexivity]].
  - intros H. inversion H. reflexivity.
  - intros H. inversion H. reflexivity.
  - intros H. inversion H. reflexivity.
  - intros H. inversion H. reflexivity.
Qed.

Ltac split_cases H :=
  lazymatch type of H with
  | _ \/ _ =>
      let H1 := fresh H in destruct H as [H1 | H1]; split_cases H1
  | _ /\ _ =>
      let H1 := fresh H in
      let H2 := fresh H in
      destruct H as [H1 H2]; split_cases H1; split_cases H2
  | _ => idtac
  end.

(** Takes a superstep apart: one goal per update the stage can return and
    per edge the router can then follow. *)
Ltac step_cases W c c' Hstep :=
  let n := fresh "n" in
  let u := fresh "u" in
  let Hn := fresh "Hn" in
  let Hupd := fresh "Hupd" in
  let Hs := fresh "Hs" in
  let Ht := fresh "Ht" in
  let Hv := fresh "Hv" in
  destruct (step_ok W c c' Hstep) as (n & u & Hn & Hupd & Hs & Ht & Hv);
  destruct c as [t s log visited], c' as [t' s' log' visited'];
  cbn [cfg_next cfg_state cfg_log cfg_visited] in *;
  apply next_target_cases in Ht;
  inversion Hupd; subst; clear Hupd;
  cbn in Ht; split_cases Ht;
  subst; try congruence.

(** ** The retry counter *)

Section Retry_counter.

Variable W : Collaborators.

Lemma retry_invariant_initial (s0 : AgentState) :
  initial s0 -> retry_invariant (initial_config s0).
Proof.
  intros (history & q & dom & tid & sel & ->).
  unfold retry_invariant. cbn. split; [lia | discriminate].
Qed.

(** One superstep keeps the bound and moves the counter as stated. *)
Lemma retry_step (c c' : Config) :
  retry_invariant c -> step W c = Ok c' ->
  retry_invariant c'
  /\ retry_count (cfg_state c) <= retry_count (cfg_state c')
  /\ (cfg_next c = To validator ->
      (validation_errors (cfg_state c') <> []
       /\ retry_count (cfg_state c') = retry_count (cfg_state c) + 1)
      \/ (validation_errors (cfg_state c') = []
          /\ retry_count (cfg_state c') = retry_count (cfg_state c)))
  /\ (cfg_next c <> To validator ->
      retry_count (cfg_state c') = retry_count (cfg_state c)).
Proof.
  intros Hinv Hstep. unfold retry_invariant in *.
  step_cases W c c' Hstep;
    cbn in Hinv |- *; destruct Hinv as [Hbound Htruthy];
    try match goal with
    | H : truthy_dict _ = false |- _ =>
        exfalso; rewrite (Htruthy eq_refl) in H; discriminate H
    end;
    (split; [split; [lia | intros; try discriminate; try reflexivity] |]);
    (split; [lia |]);
    (split; [intros; try discriminate | intros; try congruence; try lia]);
    try (left; split; [discriminate | lia]);
    try (right; split; [reflexivity | lia]).
Qed.

Lemma retry_invariant_reachable (s0 : AgentState) (c : Config) :
  initial s0 -> reachable W s0 c -> retry_invariant c.
Proof.
  intros Hinit Hreach. induction Hreach as [| c c' Hreach IH Hstep].
  - apply retry_invariant_initial. exact Hinit.
  - apply (retry_step c c' IH Hstep).
Qed.

Lemma retry_bound_le_3 (t : Target) : retry_bound t <= 3.
Proof. destruct t as [[] |]; cbn; lia. Qed.

End Retry_counter.

(** ** Executions *)

Section Executions.

Variable W : Collaborators.

Lemma steps_reachable (s0 : AgentState) (n : nat) :
  forall c c', reachable W s0 c -> steps W n c = Ok c' -> reachable W s0 c'.
Proof.
  induction n as [| n IH]; intros c c' Hreach Hsteps.
  - inversion Hsteps. subst c'. exact Hreach.
  - cbn [steps] in Hsteps. destruct (step W c) as [c1 | e] eqn:Hstep.
    + apply (IH c1 c'); [| exact Hsteps].
      eapply reach_step; eassumption.
    + discriminate Hsteps.
Qed.

Lemma run_finished (s0 : AgentState) (limit : nat) :
  forall c c', reachable W s0 c -> run W limit c = Finished c' ->
    reachable W s0 c' /\ cfg_next c' = END.
Proof.
  induction limit as [| limit IH]; intros c c' Hreach Hrun.
  - cbn [run] in Hrun. destruct (cfg_next c) eqn:Hn; [discriminate Hrun |].
    inversion Hrun. subst c'. split; assumption.
  - cbn [run] in Hrun. destruct (cfg_next c) eqn:Hn.
    + destruct (step W c) as [c1 | e] eqn:Hstep; [| discriminate Hrun].
      apply (IH c1 c'); [| exact Hrun].
      eapply reach_step; eassumption.
    + inversion Hrun. subst c'. split; assumption.
Qed.

End Executions.

(** C2. In a turn started from the initial state, every reachable state has
    0 <= retry_count <= 3, and every superstep leaves retry_count where it
    was or raises it: the validator raises it by one exactly when the
    validation errors it leaves are not empty, and no other stage changes
    it. *)
Theorem retry_count_monotone_bounded (W : Collaborators) (s0 : AgentState) :
  initial s0 ->
  (forall c, reachable W s0 c -> 0 <= retry_count (cfg_state c) <= 3)
  /\ (forall c c', reachable W s0 c -> step W c = Ok c' ->
        retry_count (cfg_state c) <= retry_count (cfg_state c')
        /\ (cfg_next c = To validator ->
            (validation_errors (cfg_state c') <> []
             /\ retry_count (cfg_state c') = retry_count (cfg_state c) + 1)
            \/ (validation_errors (cfg_state c') = []
                /\ retry_count (cfg_state c') = retry_count (cfg_state c)))
        /\ (cfg_next c <> To validator ->
            retry_count (cfg_state c') = retry_count (cfg_state c))).
Proof.
  intros Hinit. split.
  - intros c Hreach.
    destruct (retry_invariant_reachable W s0 c Hinit Hreach) as [Hb _].
    pose proof (retry_bound_le_3 (cfg_next c)). lia.
  - intros c c' Hreach Hstep.
    pose proof (retry_invariant_reachable W s0 c Hinit Hreach) as Hinv.
    destruct (retry_step W c c' Hinv Hstep) as (_ & Hmono & Hval & Hother).
    split; [exact Hmono | split; assumption].
Qed.

(** A rejected candidate: the validator is reached with retry_count = 0
    and leaves it at 1. *)
Lemma retry_count_witness :
  retry_count (cfg_state (Sample.after Sample.W_rejecting Sample.s_rejected 4))
  <= retry_count (cfg_state (Sample.after Sample.W_rejecting Sample.s_rejected 5))
  /\ 0 <= retry_count
            (cfg_state (Sample.after Sample.W_rejecting Sample.s_rejected 5)) <= 3.
Proof.
  assert (Hinit : initial Sample.s_rejected).
  { exists [], "we lost customer records", "GDPR", "thread-1", None. reflexivity. }
  assert (H4 : reachable Sample.W_rejecting Sample.s_rejected
                 (Sample.after Sample.W_rejecting Sample.s_rejected 4)).
  { apply (steps_reachable Sample.W_rejecting Sample.s_rejected 4
             (initial_config Sample.s_rejected)).
    - apply reach_init.
    - vm_compute. reflexivity. }
  assert (Hstep : step Sample.W_rejecting
                    (Sample.after Sample.W_rejecting Sample.s_rejected 4)
                  = Ok (Sample.after Sample.W_rejecting Sample.s_rejected 5)).
  { vm_compute. reflexivity. }
  destruct (retry_count_monotone_bounded Sample.W_rejecting Sample.s_rejected Hinit)
    as [Hbound Hmove].
  split.
  - exact (proj1 (Hmove _ _ H4 Hstep)).
  - apply Hbound. eapply reach_step; eassumption.
Defined.

(** ** Pending tool calls *)

Section Tool_calls.

Variable W : Collaborators.

(** No stage returns a tool call: the key is absent or cleared. *)
Lemma update_tool_calls (s : AgentState) (n : Node) (u : Update) :
  node_update W s n u -> u_tool_calls u = None \/ u_tool_calls u = Some [].
Proof. intros H. inversion H; subst; cbn; tauto. Qed.

Lemma tools_invariant_initial (s0 : AgentState) :
  initial s0 -> tools_invariant (initial_config s0).
Proof.
  intros (history & q & dom & tid & sel & ->).
  unfold tools_invariant. cbn. repeat split.
  - discriminate.
  - intros H. exact H.
Qed.

Lemma tools_step (c c' : Config) :
  tools_invariant c -> step W c = Ok c' -> tools_invariant c'.
Proof.
  unfold tools_invariant. intros (Htools & Hnext & Hvisited) Hstep.
  step_cases W c c' Hstep;
    cbn;
    (split; [first [exact Htools | reflexivity] |]);
    (split; [discriminate |]);
    intros Hin; apply in_app_or in Hin; destruct Hin as [Hin | Hin];
    try (apply Hvisited; exact Hin);
    cbn in Hin; destruct Hin as [Hin | []]; try discriminate Hin;
    apply Hnext; reflexivity.
Qed.

Lemma tools_invariant_reachable (s0 : AgentState) (c : Config) :
  initial s0 -> reachable W s0 c -> tools_invariant c.
Proof.
  intros Hinit Hreach. induction Hreach as [| c c' Hreach IH Hstep].
  - apply tools_invariant_initial. exact Hinit.
  - apply (tools_step c c' IH Hstep).
Qed.

End Tool_calls.

(** C10. No stage's update writes a non-empty tool_calls list (the llm
    stage does not write the key at all), so in every state reachable from
    the initial state tool_calls is empty, route_after_llm does not answer
    "tool_executor", and the tool_executor stage is neither next nor among
    the stages run. *)
Theorem tool_executor_unreachable (W : Collaborators) :
  (forall n s log u log',
      run_node W n s log = (Ok u, log') ->
      (u_tool_calls u = None \/ u_tool_calls u = Some [])
      /\ (n = llm -> u_tool_calls u = None))
  /\ (forall s0 c,
        initial s0 -> reachable W s0 c ->
        tool_calls (cfg_state c) = []
        /\ route_after_llm (cfg_state c) <> "tool_executor"
        /\ cfg_next c <> To tool_executor
        /\ ~ In tool_executor (cfg_visited c)).
Proof.
  split.
  - intros n s log u log' Hrun.
    pose proof (run_node_shape W n s log u log' Hrun) as Hupd.
    split.
    + eapply update_tool_calls; eassumption.
    + intros ->. inversion Hupd; subst; reflexivity.
  - intros s0 c Hinit Hreach.
    destruct (tools_invariant_reachable W s0 c Hinit Hreach)
      as (Htools & Hnext & Hvisited).
    split; [exact Htools |]. split; [| split; assumption].
    unfold route_after_llm. rewrite Htools.
    destruct (String.eqb (route (cfg_state c)) "blocked"); discriminate.
Qed.

(** After the llm stage of a sample turn, the pending list is still empty
    and the router has chosen the validator. *)
Lemma tool_executor_witness :
  tool_calls (cfg_state (Sample.after Sample.W Sample.s_rejected 4)) = []
  /\ cfg_next (Sample.after Sample.W Sample.s_rejected 4) <> To tool_executor.
Proof.
  assert (Hinit : initial Sample.s_rejected).
  { exists [], "we lost customer records", "GDPR", "thread-1", None. reflexivity. }
  assert (H4 : reachable Sample.W Sample.s_rejected
                 (Sample.after Sample.W Sample.s_rejected 4)).
  { apply (steps_reachable Sample.W Sample.s_rejected 4
             (initial_config Sample.s_rejected)).
    - apply reach_init.
    - vm_compute. reflexivity. }
  destruct (proj2 (tool_executor_unreachable Sample.W) _ _ Hinit H4)
    as (Htools & _ & Hnext & _).
  split; assumption.
Defined.

(** ** Terminal results *)

Section Terminal_results.

Variable W : Collaborators.

Lemma bare_dump (r : ComplianceResponse) : bare_record (Schema.model_dump r).
Proof. split; [reflexivity | exists r; reflexivity]. Qed.

Lemma result_invariant_initial (s0 : AgentState) :
  initial s0 -> result_invariant (initial_config s0).
Proof.
  intros (history & q & dom & tid & sel & ->).
  unfold result_invariant. cbn. repeat split; intros; discriminate.
Qed.

Lemma result_step (c c' : Config) :
  result_invariant c -> step W c = Ok c' -> result_invariant c'.
Proof.
  intros Hinv Hstep. unfold result_invariant in *.
  step_cases W c c' Hstep;
    cbn in Hinv |- *; destruct Hinv as (Hshape & Hblocked & Hend);
    (split; [intros d0 Hd; try (apply Hshape; exact Hd);
             inversion Hd; subst d0 |]);
    try (split; intros; first [discriminate | congruence | (apply Hblocked; assumption)]);
    try (right; apply bare_dump);
    try (left; assumption);
    try (left; eexists; split; [reflexivity | cbn; tauto]).
Qed.

Lemma result_invariant_reachable (s0 : AgentState) (c : Config) :
  initial s0 -> reachable W s0 c -> result_invariant c.
Proof.
  intros Hinit Hreach. induction Hreach as [| c c' Hreach IH Hstep].
  - apply result_invariant_initial. exact Hinit.
  - apply (result_step c c' IH Hstep).
Qed.

End Terminal_results.

(** ** Every turn ends *)

Section Termination.

Variable W : Collaborators.

Lemma steps_left_decreases (c c' : Config) :
  retry_invariant c -> tools_invariant c -> step W c = Ok c' ->
  (steps_left c' < steps_left c)%nat.
Proof.
  unfold retry_invariant, tools_invariant, steps_left.
  intros (Hbound & Htruthy) (Htools & Hnext & _) Hstep.
  step_cases W c c' Hstep;
    cbn [cfg_next cfg_state retry_bound] in Hbound |- *;
    cbn [retry_count merge or_else u_retry_count with_route with_final_response
         with_retrieved_context with_clarification_options with_messages
         with_validation_errors with_analysis with_retry_count with_tool_calls
         no_update llm_error];
    try match goal with
    | H : truthy_dict _ = false |- _ =>
        exfalso; rewrite (Htruthy eq_refl) in H; discriminate H
    end;
    try lia.
Qed.

(** From a reachable point, a limit of at least [steps_left] supersteps is
    never exhausted. *)
Lemma run_within_limit (s0 : AgentState) (limit : nat) :
  initial s0 ->
  forall c, reachable W s0 c -> (steps_left c <= limit)%nat ->
    (exists c', run W limit c = Finished c') \/ (exists e, run W limit c = Crashed e).
Proof.
  intros Hinit. induction limit as [| limit IH]; intros c Hreach Hleft.
  - cbn [run]. destruct (cfg_next c) as [n |] eqn:Hn.
    + exfalso. unfold steps_left in Hleft. rewrite Hn in Hleft.
      destruct n; lia.
    + left. exists c. reflexivity.
  - cbn [run]. destruct (cfg_next c) as [n |] eqn:Hn.
    + destruct (step W c) as [c1 | e] eqn:Hstep.
      * apply IH.
        -- eapply reach_step; eassumption.
        -- pose proof (steps_left_decreases c c1
                         (retry_invariant_reachable W s0 c Hinit Hreach)
                         (tools_invariant_reachable W s0 c Hinit Hreach) Hstep).
           lia.
      * right. exists e. reflexivity.
    + left. exists c. reflexivity.
Qed.

End Termination.

(** C8, as the code has it.  Every turn that finishes leaves a terminal
    result, and it is either a dict with a "type" discriminator whose value
    is chat, error, clarification, blocked or review_required, or a bare
    analysis record (the dump of a ComplianceResponse, which has no "type"
    key).  Among the stages only Guardrail (its block) and Governance (its
    auto-approved and needs-clarification results) write a bare record;
    every other terminal result a stage writes carries the discriminator.
    A turn does finish, within 11 supersteps, unless a stage raises. *)
Theorem terminal_results_typed_or_bare (W : Collaborators) :
  (forall limit history user_query domain thread_id user_selections c,
      run_graph W limit history user_query domain thread_id user_selections
        = Finished c ->
      exists d, final_response (cfg_state c) = Some d /\ terminal_shape d)
  /\ (forall n s log u log' d,
        run_node W n s log = (Ok u, log') ->
        u_final_response u = Some d ->
        typed_result d
        \/ (bare_record d /\ (n = guardrail \/ n = governance)))
  /\ (forall limit history user_query domain thread_id user_selections,
        (11 <= limit)%nat ->
        (exists c,
            run_graph W limit history user_query domain thread_id user_selections
              = Finished c)
        \/ (exists e,
              run_graph W limit history user_query domain thread_id user_selections
                = Crashed e)).
Proof.
  split; [| split].
  - intros limit history q dom tid sel c Hrun. unfold run_graph in Hrun.
    set (s0 := initial_state history q dom tid sel) in *.
    assert (Hinit : initial s0).
    { exists history, q, dom, tid, sel. reflexivity. }
    destruct (run_finished W s0 limit _ _ (reach_init W s0) Hrun) as [Hreach Hend].
    destruct (result_invariant_reachable W s0 c Hinit Hreach)
      as (Hshape & _ & Hset).
    destruct (final_response (cfg_state c)) as [d |] eqn:Hd.
    + exists d. split; [reflexivity |]. apply Hshape. reflexivity.
    + exfalso. apply (Hset Hend). reflexivity.
  - intros n s log u log' d Hrun Hd.
    pose proof (run_node_shape W n s log u log' Hrun) as Hupd.
    inversion Hupd; subst; cbn in Hd; try discriminate Hd;
      inversion Hd; subst d;
      try (right; split; [apply bare_dump | tauto]);
      try (left; assumption);
      left; eexists; (split; [reflexivity | cbn; tauto]).
  - intros limit history q dom tid sel Hlimit. unfold run_graph.
    apply (run_within_limit W (initial_state history q dom tid sel)).
    + exists history, q, dom, tid, sel. reflexivity.
    + apply reach_init.
    + cbn. exact Hlimit.
Qed.

(** A chat turn ends with the discriminator "chat". *)
Lemma terminal_results_witness :
  exists d,
    final_response (cfg_state (Sample.after Sample.W (Sample.state "hello there" None) 2))
      = Some d
    /\ terminal_shape d.
Proof.
  apply (proj1 (terminal_results_typed_or_bare Sample.W)
           2%nat [] "hello there" "GDPR" "thread-1" None).
  vm_compute. reflexivity.
Defined.

(** The blocked turn of the guardrail ends with a result that has no
    "type" key: not every terminal result carries the discriminator. *)
Lemma guardrail_block_has_no_type : ~ every_result_typed.
Proof.
  intros Hall.
  destruct (Hall Sample.W 25%nat [] "how can i hide a data breach" "GDPR"
              "thread-1" None
              (Sample.after Sample.W (Sample.state "how can i hide a data breach" None) 1))
    as (d & Hd & t & Ht & _).
  - vm_compute. reflexivity.
  - vm_compute in Hd. inversion Hd; subst d. vm_compute in Ht. discriminate Ht.
Qed.

(** ** Text containment *)

Lemma append_assoc (a b c : string) : (a ++ b) ++ c = a ++ (b ++ c).
Proof. induction a as [| x a IH]; cbn; [reflexivity | rewrite IH; reflexivity]. Qed.

Lemma append_empty_r (a : string) : a ++ "" = a.
Proof. induction a as [| x a IH]; cbn; [reflexivity | rewrite IH; reflexivity]. Qed.

Lemma str_in_unfold (needle hay : string) :
  PyStr.str_in needle hay
  = PyStr.starts_with needle hay
    || match hay with
       | EmptyString => false
       | String _ t => PyStr.str_in needle t
       end.
Proof. destruct hay; reflexivity. Qed.

Lemma starts_with_iff (needle hay : string) :
  PyStr.starts_with needle hay = true <-> exists post, hay = needle ++ post.
Proof.
  revert hay. induction needle as [| a n IH]; intros hay.
  - split; [intros _; exists hay; reflexivity | intros _; destruct hay; reflexivity].
  - destruct hay as [| b h].
    + split; [discriminate | intros [post H]; discriminate H].
    + cbn [PyStr.starts_with]. rewrite andb_true_iff, Ascii.eqb_eq, IH. split.
      * intros [-> [post ->]]. exists post. reflexivity.
      * intros [post H]. cbn in H. inversion H. split; [reflexivity |].
        exists post. reflexivity.
Qed.

(** The boolean test is Python's containment. *)
Lemma str_in_iff (needle hay : string) :
  PyStr.str_in needle hay = true <-> occurs_in needle hay.
Proof.
  unfold occurs_in. induction hay as [| b h IH].
  - rewrite str_in_unfold, orb_false_r, starts_with_iff. split.
    + intros [post H]. exists "", post. exact H.
    + intros [pre [post H]]. destruct pre as [| x pre]; [| discriminate H].
      exists post. exact H.
  - rewrite str_in_unfold, orb_true_iff, starts_with_iff, IH. split.
    + intros [[post H] | [pre [post H]]].
      * exists "", post. exact H.
      * exists (String b pre), post. cbn. rewrite H. reflexivity.
    + intros [pre [post H]]. destruct pre as [| x pre].
      * left. exists post. exact H.
      * right. cbn in H. inversion H. exists pre, post. reflexivity.
Qed.

Lemma occurs_in_trans (a b c : string) :
  occurs_in a b -> occurs_in b c -> occurs_in a c.
Proof.
  intros [p1 [q1 H1]] [p2 [q2 H2]]. exists (p2 ++ p1), (q1 ++ q2).
  rewrite H2, H1. rewrite !append_assoc. reflexivity.
Qed.

(** Every part occurs in the joined text. *)
Lemma join_occurs (sep x : string) (parts : list string) :
  In x parts -> occurs_in x (PyStr.join sep parts).
Proof.
  unfold PyStr.join. induction parts as [| a l IH]; intros Hin; [contradiction Hin |].
  destruct l as [| b l].
  - destruct Hin as [-> | []]. exists "", "". cbn. rewrite append_empty_r. reflexivity.
  - change (String.concat sep (a :: b :: l))
      with (a ++ sep ++ String.concat sep (b :: l)).
    destruct Hin as [-> | Hin].
    + exists "", (sep ++ String.concat sep (b :: l)). reflexivity.
    + destruct (IH Hin) as [pre [post H]]. exists (a ++ sep ++ pre), post.
      rewrite H. rewrite !append_assoc. reflexivity.
Qed.

Lemma lower_app (a b : string) :
  PyStr.lower (a ++ b) = PyStr.lower a ++ PyStr.lower b.
Proof. induction a as [| x a IH]; cbn; [reflexivity | rewrite IH; reflexivity]. Qed.

(** A lower-case key written in the query is found after lowering. *)
Lemma carries_any_in (keys : list string) (query : string) :
  Forall (fun k => PyStr.lower k = k) keys ->
  carries keys query ->
  PyStr.any_in keys (PyStr.lower query) = true.
Proof.
  intros Hlower (k & Hin & Hk). unfold PyStr.any_in. apply existsb_exists.
  exists k. split; [exact Hin |].
  destruct Hk as [(pre & post & Hq) | Hk]; [| exact Hk].
  apply str_in_iff. exists (PyStr.lower pre), (PyStr.lower post).
  rewrite Hq, !lower_app.
  rewrite Forall_forall in Hlower. rewrite (Hlower k Hin). reflexivity.
Qed.

Lemma unethical_keywords_lower :
  Forall (fun k => PyStr.lower k = k) unethical_keywords.
Proof. repeat constructor. Qed.


(** ** The guardrail *)

(** C3. When the query carries a disallowed-intent pattern (as written, or
    in another letter case), the guardrail returns route = "blocked" with
    the complete blocked result, and the turn ends there: guardrail is the
    only stage run and no external call (retrieval or generation) is
    made. *)
Theorem guardrail_blocks_turn (W : Collaborators) (limit : nat) (s : AgentState) :
  disallowed (user_query s) ->
  node_guardrail s
    = with_route "blocked"
        (with_final_response (Schema.model_dump blocked_response) no_update)
  /\ Schema.parse (Schema.model_dump blocked_response) = Some blocked_response
  /\ exists c,
       run W (S limit) (initial_config s) = Finished c
       /\ cfg_visited c = [guardrail]
       /\ cfg_log c = []
       /\ route (cfg_state c) = "blocked"
       /\ final_response (cfg_state c) = Some (Schema.model_dump blocked_response).
Proof.
  intros Hcarries.
  assert (Hany : PyStr.any_in unethical_keywords (PyStr.lower (user_query s)) = true).
  { apply carries_any_in; [apply unethical_keywords_lower | exact Hcarries]. }
  assert (Hnode : node_guardrail s
                  = with_route "blocked"
                      (with_final_response (Schema.model_dump blocked_response)
                         no_update)).
  { unfold node_guardrail. rewrite Hany. reflexivity. }
  split; [exact Hnode |]. split; [reflexivity |].
  exists (mkConfig END
            (merge s
               (with_route "blocked"
                  (with_final_response (Schema.model_dump blocked_response)
                     no_update)))
            [] [guardrail]).
  split.
  - unfold initial_config, entry_point. cbn [run cfg_next]. unfold step.
    cbn [cfg_next cfg_state cfg_log cfg_visited run_node]. unfold ret.
    rewrite Hnode.
    assert (Hnext : next_target guardrail
                      (merge s
                         (with_route "blocked"
                            (with_final_response
                               (Schema.model_dump blocked_response) no_update)))
                    = Some END) by reflexivity.
    rewrite Hnext. destruct limit; reflexivity.
  - repeat split; reflexivity.
Qed.

(** The turn "how can i hide a data breach". *)
Lemma guardrail_blocks_witness :
  exists c,
    run_graph Sample.W 25 [] "how can i hide a data breach" "GDPR" "thread-1" None
      = Finished c
    /\ cfg_visited c = [guardrail]
    /\ cfg_log c = []
    /\ route (cfg_state c) = "blocked"
    /\ final_response (cfg_state c) = Some (Schema.model_dump blocked_response).
Proof.
  assert (H : disallowed
                (user_query (Sample.state "how can i hide a data breach" None))).
  { exists "how can i hide". split.
    - cbn. tauto.
    - left. exists "", " a data breach". reflexivity. }
  exact (proj2 (proj2 (guardrail_blocks_turn Sample.W 24 _ H))).
Defined.

(** ** Clarify with answers already given *)

(** C4. When user_selections is a non-empty list, the clarify stage makes
    no external call, returns the retrieved context extended by the
    user-clarification block that lists the selections, sets route to
    "clear", and the router then continues with the llm stage. *)
Theorem clarify_with_selections (W : Collaborators) (s : AgentState)
    (sel : list string) (log : Log) :
  user_selections s = Some sel -> sel <> [] ->
  let u :=
    with_route "clear"
      (with_retrieved_context
         ((retrieved_context s ++ nl ++ nl ++ "[USER CLARIFICATION]" ++ nl)
          ++ PyStr.join nl (map (fun x => "- " ++ x) sel))
         no_update) in
  node_clarify W s log = (Ok u, log)
  /\ retrieved_context (merge s u)
     = (retrieved_context s ++ nl ++ nl ++ "[USER CLARIFICATION]" ++ nl)
       ++ PyStr.join nl (map (fun x => "- " ++ x) sel)
  /\ route (merge s u) = "clear"
  /\ route_after_clarify (merge s u) = "llm"
  /\ next_target clarify (merge s u) = Some (To llm).
Proof.
  intros Hsel Hne u.
  destruct sel as [| x xs]; [contradiction Hne; reflexivity |].
  split.
  - unfold node_clarify. rewrite Hsel. reflexivity.
  - subst u. cbn. repeat split; reflexivity.
Qed.

(** A resumed turn with two answers. *)
Lemma clarify_with_selections_witness :
  next_target clarify
    (merge (Sample.state "we lost customer records" (Some ["encrypted"; "500 records"]))
       (with_route "clear"
          (with_retrieved_context
             (("" ++ nl ++ nl ++ "[USER CLARIFICATION]" ++ nl)
              ++ PyStr.join nl (map (fun x => "- " ++ x) ["encrypted"; "500 records"]))
             no_update)))
  = Some (To llm).
Proof.
  assert (H : ["encrypted"; "500 records"] <> @nil string) by discriminate.
  exact (proj2 (proj2 (proj2 (proj2
    (clarify_with_selections Sample.W
       (Sample.state "we lost customer records" (Some ["encrypted"; "500 records"]))
       ["encrypted"; "500 records"] [] eq_refl H))))).
Defined.

(** ** Retrieval: the injection table *)

Lemma set_add_in (x y : string) (s : list string) :
  In y (Retrieval.set_add x s) <-> y = x \/ In y s.
Proof.
  unfold Retrieval.set_add. destruct (existsb (String.eqb x) s) eqn:E.
  - split; [tauto |]. intros [-> | H]; [| exact H].
    apply existsb_exists in E. destruct E as [z [Hz Heq]].
    apply String.eqb_eq in Heq. subst z. exact Hz.
  - rewrite in_app_iff. cbn. split; intros H; intuition congruence.
Qed.

Lemma add_all_in (injected : list string) :
  forall (s : list string) (y : string),
    In y (fold_left (fun s art_id => Retrieval.set_add art_id s) injected s)
    <-> In y injected \/ In y s.
Proof.
  induction injected as [| a l IH]; intros s y; cbn [fold_left].
  - cbn. tauto.
  - rewrite IH, set_add_in. cbn. intuition congruence.
Qed.

(** The loop over a table of rules adds what a triggered rule injects and
    keeps what was there. *)
Lemma inject_table_in (table : list (string * (list string * list string)))
    (q_lower : string) :
  forall (ids : list string) (y : string),
    In y ids
    \/ (exists name triggers injected,
          In (name, (triggers, injected)) table
          /\ PyStr.any_in triggers q_lower = true /\ In y injected) ->
    In y
      (fold_left
         (fun ids rule =>
            let '(_, (triggers, injected)) := rule in
            if PyStr.any_in triggers q_lower
            then fold_left (fun s art_id => Retrieval.set_add art_id s) injected ids
            else ids)
         table ids).
Proof.
  induction table as [| [name [triggers injected]] rest IH]; intros ids y H;
    cbn [fold_left].
  - destruct H as [H | (n & t & i & [] & _)]. exact H.
  - apply IH. destruct H as [H | (n & t & i & [Heq | Hin] & Hany & Hy)].
    + left. destruct (PyStr.any_in triggers q_lower); [| exact H].
      apply add_all_in. right. exact H.
    + inversion Heq; subst. left. rewrite Hany. apply add_all_in. left. exact Hy.
    + right. exists n, t, i. split; [exact Hin | split; assumption].
Qed.

Lemma insert_by_in {A : Type} (key : A -> string) (x y : A) (l : list A) :
  In y (Retrieval.insert_by key x l) <-> y = x \/ In y l.
Proof.
  induction l as [| z l IH]; cbn [Retrieval.insert_by].
  - cbn. intuition congruence.
  - destruct (PyStr.ltb (key x) (key z)); cbn [In]; [| rewrite IH];
      intuition congruence.
Qed.

(** Sorting keeps the elements. *)
Lemma sorted_by_in {A : Type} (key : A -> string) (y : A) (l : list A) :
  In y (Retrieval.sorted_by key l) <-> In y l.
Proof.
  unfold Retrieval.sorted_by.
  assert (H : forall acc,
             In y (fold_left (fun acc x => Retrieval.insert_by key x acc) l acc)
             <-> In y l \/ In y acc).
  { induction l as [| a l IH]; intros acc; cbn [fold_left].
    - cbn. tauto.
    - rewrite IH, insert_by_in. cbn. intuition congruence. }
  rewrite H. cbn. tauto.
Qed.






(** ** The analysis record and its dump *)

Lemma read_strs_dump (l : list string) :
  Schema.read_strs (map VStr l) = Some l.
Proof.
  induction l as [| x l IH]; cbn; [reflexivity | rewrite IH; reflexivity].
Qed.

Lemma parse_entries_dump (l : list ReasoningMapEntry) :
  Forall (fun e => Schema.validate_single_subsection (gdpr_subsection e) = true) l ->
  Schema.parse_entries (map (fun e => VDict (Schema.dump_entry e)) l) = Some l.
Proof.
  induction 1 as [| e l He Hl IH]; [reflexivity |].
  cbn [map Schema.parse_entries]. rewrite IH.
  destruct e as [f m sub j]. cbn in He |- *.
  unfold Schema.parse_entry, Schema.get_str. cbn. rewrite He. reflexivity.
Qed.

Lemma risk_level_round_trip (rl : RiskLevel) :
  RiskLevel_of_value (PyStr.lower (RiskLevel_value rl)) = Some rl.
Proof. destruct rl; reflexivity. Qed.

(** A dumped response reads back as itself. *)
Lemma parse_model_dump (r : ComplianceResponse) :
  Schema.well_formed r -> Schema.parse (Schema.model_dump r) = Some r.
Proof.
  destruct r as [su nc mp lb sl ra rl cs rf rm]. intros [Hconf Hmap].
  cbn in Hconf, Hmap.
  unfold Schema.parse, Schema.model_dump, Schema.get_str,
    Schema.parse_needs_clarification, Schema.parse_missing_preconditions,
    Schema.parse_legal_basis, Schema.parse_risk_level, Schema.parse_confidence,
    Schema.parse_references, Schema.parse_reasoning_map, Schema.dump_strs.
  cbn [Dict.get String.eqb Ascii.eqb Bool.eqb summary needs_clarification
       missing_preconditions legal_basis scope_limitation risk_analysis
       risk_level confidence_score references reasoning_map].
  rewrite read_strs_dump, risk_level_round_trip, Hconf,
    (parse_entries_dump rm Hmap).
  destruct rf as [l |]; [rewrite read_strs_dump |]; reflexivity.
Qed.

Lemma parse_entries_valid (l : list pyval) :
  forall rm, Schema.parse_entries l = Some rm ->
    Forall (fun e => Schema.validate_single_subsection (gdpr_subsection e) = true) rm.
Proof.
  induction l as [| v l IH]; intros rm H; cbn [Schema.parse_entries] in H.
  - inversion H. constructor.
  - destruct (Schema.parse_entry v) as [e |] eqn:He; [| discriminate H].
    destruct (Schema.parse_entries l) as [rest |]; [| discriminate H].
    inversion H; subst rm. constructor; [| apply IH; reflexivity].
    unfold Schema.parse_entry in He.
    destruct v; try discriminate He.
    destruct (Schema.get_str "fact" d); try discriminate He.
    destruct (Schema.get_str "legal_meaning" d); try discriminate He.
    destruct (Schema.get_str "gdpr_subsection" d); try discriminate He.
    destruct (Schema.get_str "justification" d); try discriminate He.
    destruct (Schema.validate_single_subsection s1) eqn:Hv; [| discriminate He].
    inversion He; subst e. exact Hv.
Qed.

(** What reads back satisfies the validators of the schema. *)
Lemma parse_well_formed (d : dict) (r : ComplianceResponse) :
  Schema.parse d = Some r -> Schema.well_formed r.
Proof.
  unfold Schema.parse. intros H.
  destruct (Schema.get_str "summary" d); [| discriminate H].
  destruct (Schema.parse_needs_clarification d); [| discriminate H].
  destruct (Schema.parse_missing_preconditions d); [| discriminate H].
  destruct (Schema.parse_legal_basis d); [| discriminate H].
  destruct (Schema.get_str "scope_limitation" d); [| discriminate H].
  destruct (Schema.get_str "risk_analysis" d); [| discriminate H].
  destruct (Schema.parse_risk_level d); [| discriminate H].
  destruct (Schema.parse_confidence d) as [cs |] eqn:Hc; [| discriminate H].
  destruct (Schema.parse_references d); [| discriminate H].
  destruct (Schema.parse_reasoning_map d) as [rm |] eqn:Hm; [| discriminate H].
  inversion H; subst r. split; cbn.
  - unfold Schema.parse_confidence in Hc.
    destruct (Dict.get "confidence_score" d) as [[] |]; try discriminate Hc.
    + destruct (Schema.in_unit_interval q) eqn:Hq; [| discriminate Hc].
      inversion Hc; subst cs. exact Hq.
    + inversion Hc. reflexivity.
  - unfold Schema.parse_reasoning_map in Hm.
    destruct (Dict.get "reasoning_map" d) as [[] |]; try discriminate Hm.
    eapply parse_entries_valid; eassumption.
Qed.

Lemma parse_nonempty (d : dict) (r : ComplianceResponse) :
  Schema.parse d = Some r -> exists kv rest, d = kv :: rest.
Proof.
  destruct d as [| kv rest]; [discriminate | intros _; exists kv, rest; reflexivity].
Qed.

(** ** The semantic override *)

(** What the table decides depends on the query alone. *)
Lemma apply_semantic_map_choice (table : list (string * (string * RiskLevel * Q)))
    (q_lower : string) :
  (forall r, apply_semantic_map table q_lower r = r)
  \/ exists citation risk conf,
       In (citation, risk, conf) (map snd table)
       /\ forall r,
            apply_semantic_map table q_lower r
            = set_confidence_score conf
                (set_risk_level risk
                   (set_legal_basis ("California Civil Code " ++ citation) r)).
Proof.
  induction table as [| [key [[citation risk] conf]] rest IH].
  - left. reflexivity.
  - cbn [apply_semantic_map]. destruct (PyStr.str_in key q_lower).
    + right. exists citation, risk, conf. split; [left; reflexivity | reflexivity].
    + destruct IH as [IH | (c & rk & cf & Hin & IH)].
      * left. exact IH.
      * right. exists c, rk, cf. split; [right; exact Hin | exact IH].
Qed.

Lemma semantic_map_confidences (citation : string) (risk : RiskLevel) (conf : Q) :
  In (citation, risk, conf) (map snd SEMANTIC_MAP) ->
  Schema.in_unit_interval conf = true.
Proof.
  cbn. intros H.
  repeat (destruct H as [H | H]; [inversion H; reflexivity |]).
  contradiction H.
Qed.

Lemma apply_overrides_idempotent (domain query : string) (r : ComplianceResponse) :
  apply_overrides domain query (apply_overrides domain query r)
  = apply_overrides domain query r.
Proof.
  unfold apply_overrides. cbv zeta.
  destruct (apply_semantic_map_choice SEMANTIC_MAP (PyStr.lower query))
    as [Hmap | (c & rk & cf & _ & Hmap)]; rewrite !Hmap;
    destruct r as [su nc mp lb sl ra rl cs rf rm];
    destruct (PyStr.any_in definition_markers (PyStr.lower query));
    destruct (String.eqb domain "GDPR");
    try match goal with
    | |- context [if (PyStr.str_in "tax" ?q && ?rest) then _ else _] =>
        destruct (PyStr.str_in "tax" q && rest)
    end;
    destruct (String.eqb domain "CCPA");
    cbn; try reflexivity;
    try (destruct rl; cbn; reflexivity);
    try (destruct rk; cbn; reflexivity).
Qed.

Lemma apply_overrides_well_formed (domain query : string) (r : ComplianceResponse) :
  Schema.well_formed r -> Schema.well_formed (apply_overrides domain query r).
Proof.
  unfold Schema.well_formed, apply_overrides. intros [Hconf Hmap].
  destruct (apply_semantic_map_choice SEMANTIC_MAP (PyStr.lower query))
    as [Hsem | (c & rk & cf & Hin & Hsem)]; rewrite !Hsem;
    try (pose proof (semantic_map_confidences c rk cf Hin) as Hcf);
    destruct r as [su nc mp lb sl ra rl cs rf rm]; cbn in Hconf, Hmap;
    repeat match goal with
    | |- context [if ?b then _ else _] => destruct b
    end;
    cbn; split; first [assumption | reflexivity].
Qed.

(** On a candidate that parses, the stage returns the corrected dump. *)
Lemma node_semantic_override_parsed (W : Collaborators) (s : AgentState)
    (log : Log) (d : dict) (r : ComplianceResponse) :
  analysis s = Some d -> Schema.parse d = Some r ->
  node_semantic_override W s log
  = (Ok (with_analysis
           (Schema.model_dump (apply_overrides (domain s) (user_query s) r))
           no_update), log).
Proof.
  intros Ha Hparse. destruct (parse_nonempty d r Hparse) as (kv & rest & ->).
  unfold node_semantic_override. rewrite Ha, Hparse. reflexivity.
Qed.

(** C7. The semantic override is idempotent: on a state whose candidate
    analysis parses, the stage succeeds without external calls, and run
    again on the state it produced, with the same query and domain, it
    returns the same analysis, so the second run changes nothing. *)
Theorem semantic_override_idempotent (W : Collaborators) (s : AgentState)
    (log : Log) (d : dict) (r : ComplianceResponse) :
  analysis s = Some d -> Schema.parse d = Some r ->
  exists overridden,
    node_semantic_override W s log
      = (Ok (with_analysis overridden no_update), log)
    /\ overridden
       = Schema.model_dump (apply_overrides (domain s) (user_query s) r)
    /\ node_semantic_override W (merge s (with_analysis overridden no_update)) log
       = (Ok (with_analysis overridden no_update), log)
    /\ merge (merge s (with_analysis overridden no_update))
             (with_analysis overridden no_update)
       = merge s (with_analysis overridden no_update).
Proof.
  intros Ha Hparse.
  exists (Schema.model_dump (apply_overrides (domain s) (user_query s) r)).
  pose proof (parse_well_formed d r Hparse) as Hwf.
  pose proof (apply_overrides_well_formed (domain s) (user_query s) r Hwf) as Hwf'.
  split; [| split; [reflexivity | split; [| reflexivity]]].
  - eapply node_semantic_override_parsed; eassumption.
  - set (overridden :=
           Schema.model_dump (apply_overrides (domain s) (user_query s) r)).
    assert (Ha' : analysis (merge s (with_analysis overridden no_update))
                  = Some overridden) by reflexivity.
    rewrite (node_semantic_override_parsed W _ log _ _ Ha'
               (parse_model_dump _ Hwf')).
    cbn [domain user_query merge]. rewrite apply_overrides_idempotent.
    reflexivity.
Qed.

(** A tax-retention erasure question under GDPR: the second run returns
    the analysis of the first. *)
Lemma semantic_override_witness :
  exists overridden,
    node_semantic_override Sample.W Sample.s_tax []
      = (Ok (with_analysis overridden no_update), [])
    /\ node_semantic_override Sample.W
         (merge Sample.s_tax (with_analysis overridden no_update)) []
       = (Ok (with_analysis overridden no_update), [])
    /\ Dict.get "risk_level" overridden = Some (VStr "medium").
Proof.
  destruct (semantic_override_idempotent Sample.W Sample.s_tax []
              (Schema.model_dump Sample.response) Sample.response
              eq_refl eq_refl)
    as (overridden & Hfirst & Hdump & Hsecond & _).
  exists overridden. split; [exact Hfirst | split; [exact Hsecond |]].
  rewrite Hdump. vm_compute. reflexivity.
Defined.

(* ================================================================== *)
(** * Further properties of the code *)
(* ================================================================== *)

(** ** The rule check of the validator *)



(** X1. A candidate whose reasoning map is empty never passes the rule
    check: the first error is the reasoning-map message.  In a turn, the
    validator therefore records errors and adds one to retry_count. *)
Theorem empty_reasoning_map_rejected (W : Collaborators)
    (repr_set : list string -> string) (s : AgentState)
    (response : ComplianceResponse) :
  validate_response W = Rules.validate_response repr_set ->
  analysis s = Some (Schema.model_dump response) ->
  Schema.well_formed response ->
  reasoning_map response = [] ->
  (exists rest,
      Rules.validate_response repr_set response (user_query s)
      = Rules.rule0_message :: rest)
  /\ exists rest,
       node_validator W s
       = with_retry_count (retry_count s + 1)
           (with_validation_errors (Rules.rule0_message :: rest) no_update).
Proof.
  intros HW Ha Hwf Hmap.
  assert (Hrules : exists rest,
             Rules.validate_response repr_set response (user_query s)
             = Rules.rule0_message :: rest).
  { unfold Rules.validate_response, Rules.check_reasoning_map.
    rewrite Hmap. eexists. reflexivity. }
  split; [exact Hrules |].
  destruct Hrules as [rest Hrest]. exists rest.
  unfold node_validator. rewrite Ha.
  change (Schema.model_dump response)
    with (("summary", VStr (summary response)) :: tl (Schema.model_dump response)).
  change (("summary", VStr (summary response)) :: tl (Schema.model_dump response))
    with (Schema.model_dump response).
  rewrite (parse_model_dump response Hwf), HW, Hrest. reflexivity.
Qed.

(** The candidate of the repository's validator test. *)
Lemma empty_reasoning_map_witness :
  exists rest,
    node_validator Sample_rules.W Sample_rules.s_unmapped
    = with_retry_count 1
        (with_validation_errors (Rules.rule0_message :: rest) no_update).
Proof.
  assert (Hwf : Schema.well_formed Sample_rules.unmapped).
  { split; [reflexivity | constructor]. }
  exact (proj2 (empty_reasoning_map_rejected Sample_rules.W Sample_rules.repr_set
                  Sample_rules.s_unmapped Sample_rules.unmapped
                  eq_refl eq_refl Hwf eq_refl)).
Defined.



Lemma span_digits_spec (s : string) :
  s = fst (Rules.span_digits s) ++ snd (Rules.span_digits s)
  /\ all_digits (fst (Rules.span_digits s)) = true.
Proof.
  induction s as [| c t [IHeq IHd]]; cbn [Rules.span_digits].
  - split; reflexivity.
  - destruct (Rules.is_digit c) eqn:Hc.
    + destruct (Rules.span_digits t) as [d r]. cbn in *. split.
      * rewrite IHeq at 1. reflexivity.
      * rewrite Hc, IHd. reflexivity.
    + split; reflexivity.
Qed.

(** A match of the subsection pattern is a prefix of the text and has the
    shape of the pattern. *)
Lemma match_subsection_spec (s m : string) :
  Rules.match_subsection s = Some m ->
  (exists post, s = m ++ post) /\ subsection_shape m.
Proof.
  unfold Rules.match_subsection.
  pose proof (span_digits_spec s) as [Hs Hd1].
  destruct (Rules.span_digits s) as [d1 r1]. cbn [fst snd] in Hs, Hd1.
  destruct d1 as [| a1 d1]; [discriminate |].
  destruct r1 as [| open1 r2]; [discriminate |].
  pose proof (span_digits_spec r2) as [Hr Hd2].
  destruct (Rules.span_digits r2) as [d2 r3]. cbn [fst snd] in Hr, Hd2.
  destruct d2 as [| a2 d2]; [discriminate |].
  destruct r3 as [| close1 [| open2 [| letter [| close2 rest]]]]; try discriminate.
  destruct (Ascii.eqb_spec open1 "("%char) as [-> |]; [| discriminate].
  destruct (Ascii.eqb_spec close1 ")"%char) as [-> |]; [| discriminate].
  destruct (Ascii.eqb_spec open2 "("%char) as [-> |]; [| discriminate].
  destruct (Rules.in_class 97 122 letter) eqn:Hl; [| discriminate].
  destruct (Ascii.eqb_spec close2 ")"%char) as [-> |]; [| discriminate].
  cbn [andb]. intros H. inversion H; subst m; clear H. split.
  - exists rest. rewrite Hs, Hr. cbn [append]. f_equal.
    rewrite append_assoc. cbn [append]. do 2 f_equal.
    rewrite append_assoc. reflexivity.
  - exists (String a1 d1), (String a2 d2), letter.
    repeat split; try assumption; discriminate.
Qed.

(** What [findall] returns was matched somewhere in the text. *)
Lemma findall_from_occurs (matcher : string -> option string) :
  (forall s m, matcher s = Some m -> exists post, s = m ++ post) ->
  forall s skip m,
    In m (Rules.findall_from matcher skip s) ->
    occurs_in m s /\ exists suffix, matcher suffix = Some m.
Proof.
  intros Hprefix. induction s as [| c t IH]; intros skip m Hin;
    [contradiction Hin |].
  assert (Hlater : forall k, In m (Rules.findall_from matcher k t) ->
            occurs_in m (String c t) /\ exists suffix, matcher suffix = Some m).
  { intros k Hk. destruct (IH k m Hk) as [[pre [post Ht]] Hsuf].
    split; [| exact Hsuf]. exists (String c pre), post. cbn. rewrite Ht. reflexivity. }
  cbn [Rules.findall_from] in Hin. destruct skip as [| k].
  - destruct (matcher (String c t)) as [m' |] eqn:Hm.
    + destruct Hin as [-> | Hin].
      * split; [| exists (String c t); exact Hm].
        destruct (Hprefix _ _ Hm) as [post Hpost]. exists "", post. exact Hpost.
      * eapply Hlater; eassumption.
    + eapply Hlater; eassumption.
  - eapply Hlater; eassumption.
Qed.

(** X3. The citations the rule check extracts from prose with the pattern
    digits(digits)(letter) are literal passages of that prose and have
    that shape. *)
Theorem extracted_citations_literal (prose m : string) :
  In m (Rules.findall Rules.match_subsection prose) ->
  occurs_in m prose /\ subsection_shape m.
Proof.
  intros Hin. unfold Rules.findall in Hin.
  destruct (findall_from_occurs Rules.match_subsection
              (fun s m H => proj1 (match_subsection_spec s m H)) prose 0 m Hin)
    as [Hocc [suffix Hsuf]].
  split; [exact Hocc |]. exact (proj2 (match_subsection_spec suffix m Hsuf)).
Qed.

(** "17(3)(b)" is extracted from a sentence that cites it. *)
Lemma extracted_citations_witness :
  occurs_in "17(3)(b)" "Retention is allowed, see 17(3)(b) and Article 6."
  /\ subsection_shape "17(3)(b)".
Proof.
  apply extracted_citations_literal. vm_compute. left. reflexivity.
Defined.

(** ** The override against the rule check *)

(** X4. The two corrections of the override can combine into a record the
    rule check rejects: for a GDPR tax-retention erasure query that is also
    worded as a definition query, the override writes the "Partial Refusal"
    summary and then lowers the risk to LOW, which the rule on partial
    refusals reports. *)
Theorem override_contradicts_rule_check (repr_set : list string -> string)
    (response : ComplianceResponse) (query : string) :
  tax_erasure_query query = true ->
  PyStr.any_in definition_markers (PyStr.lower query) = true ->
  risk_level (apply_overrides "GDPR" query response) = LOW
  /\ summary (apply_overrides "GDPR" query response) = tax_erasure_summary
  /\ In Rules.partial_refusal_message
        (Rules.validate_response repr_set
           (apply_overrides "GDPR" query response) query).
Proof.
  unfold tax_erasure_query. intros Htax Hdef.
  assert (Hover : apply_overrides "GDPR" query response
                  = set_risk_level LOW
                      (set_confidence_score 1%Q
                         (set_summary tax_erasure_summary
                            (set_scope_limitation tax_erasure_scope
                               (set_legal_basis tax_erasure_basis
                                  (set_confidence_score 1%Q
                                     (set_risk_level MEDIUM response))))))).
  { unfold apply_overrides. cbv zeta.
    change (String.eqb "GDPR" "GDPR") with true. cbv iota.
    rewrite <- orb_assoc in Htax.
    rewrite orb_assoc in Htax. rewrite Htax, Hdef. reflexivity. }
  rewrite Hover. split; [reflexivity | split; [reflexivity |]].
  unfold Rules.validate_response. apply in_or_app. right.
  unfold Rules.check_legacy. apply in_or_app. right.
  apply in_or_app. right. apply in_or_app. left.
  change (summary (set_risk_level LOW
            (set_confidence_score 1%Q
               (set_summary tax_erasure_summary
                  (set_scope_limitation tax_erasure_scope
                     (set_legal_basis tax_erasure_basis
                        (set_confidence_score 1%Q
                           (set_risk_level MEDIUM response))))))))
    with tax_erasure_summary.
  assert (Hs : PyStr.str_in "partial refusal" (PyStr.lower tax_erasure_summary) = true)
    by (vm_compute; reflexivity).
  rewrite Hs. cbn. left. reflexivity.
Qed.

(** "What is the rule if we refuse to erase tax records?" *)
Lemma override_contradicts_witness :
  In Rules.partial_refusal_message
     (Rules.validate_response Sample_rules.repr_set
        (apply_overrides "GDPR" Sample_rules.tax_definition_query Sample.response)
        Sample_rules.tax_definition_query).
Proof.
  assert (Htax : tax_erasure_query Sample_rules.tax_definition_query = true)
    by (vm_compute; reflexivity).
  assert (Hdef : PyStr.any_in definition_markers
                   (PyStr.lower Sample_rules.tax_definition_query) = true)
    by (vm_compute; reflexivity).
  exact (proj2 (proj2 (override_contradicts_rule_check Sample_rules.repr_set
                         Sample.response Sample_rules.tax_definition_query
                         Htax Hdef))).
Defined.

(** ** The paths of a turn *)

Lemma cycles_succ (k : nat) : cycles (S k) = (cycles k ++ [llm; validator])%list.
Proof.
  unfold cycles. induction k as [| k IH]; [reflexivity |].
  change (repeat [llm; validator] (S (S k)))
    with ([llm; validator] :: repeat [llm; validator] (S k)).
  cbn [List.concat]. rewrite IH at 1. rewrite app_assoc. reflexivity.
Qed.

Section Paths.

Variable W : Collaborators.

Lemma path_shape_initial (s0 : AgentState) : path_shape (initial_config s0).
Proof. reflexivity. Qed.

Lemma to_nat_succ (z : Z) : 0 <= z -> Z.to_nat (z + 1) = S (Z.to_nat z).
Proof. intros H. lia. Qed.

(** Closes a goal on the stages run: reassociates the lists and picks the
    matching shape. *)
Ltac path_goal :=
  repeat match goal with
  | H : _ /\ _ |- _ => destruct H
  end;
  subst;
  rewrite <- ?app_assoc; cbn [app];
  first
    [ reflexivity
    | tauto
    | split; [lia | reflexivity]
    | rewrite cycles_succ; rewrite <- ?app_assoc; reflexivity
    | do 3 right; left; split; [lia | reflexivity]
    | do 4 right; left; split; [lia | reflexivity]
    | do 5 right; split; [lia | reflexivity] ].

Lemma path_step (c c' : Config) :
  retry_invariant c -> tools_invariant c -> path_shape c ->
  step W c = Ok c' -> path_shape c'.
Proof.
  unfold retry_invariant, tools_invariant, path_shape, finished_path.
  intros (Hbound & Htruthy) (Htools & _ & _) Hpath Hstep.
  step_cases W c c' Hstep;
    cbn [cfg_next cfg_state cfg_visited retry_bound] in *;
    cbn [retry_count merge or_else u_retry_count with_route with_final_response
         with_retrieved_context with_clarification_options with_messages
         with_validation_errors with_analysis with_retry_count with_tool_calls
         no_update llm_error tool_calls u_tool_calls] in *;
    try contradiction;
    try match goal with
    | H : truthy_dict _ = false |- _ =>
        exfalso; rewrite (Htruthy eq_refl) in H; discriminate H
    end;
    try (replace (retry_count s) with 0 by lia; cbn [Z.to_nat]);
    try rewrite (to_nat_succ (retry_count s)) by lia;
    try (assert (Hk : Z.to_nat (retry_count s) = 2%nat) by lia; rewrite Hk);
    try path_goal.
Qed.

Lemma path_shape_reachable (s0 : AgentState) (c : Config) :
  initial s0 -> reachable W s0 c -> path_shape c.
Proof.
  intros Hinit Hreach. induction Hreach as [| c c' Hreach IH Hstep].
  - apply path_shape_initial.
  - apply (path_step c c'
             (retry_invariant_reachable W s0 c Hinit Hreach)
             (tools_invariant_reachable W s0 c Hinit Hreach) IH Hstep).
Qed.

End Paths.

(** X5. The stages a finished turn has run form one of six paths: the
    guardrail alone (blocked); guardrail and chat; guardrail, retrieve and
    clarify (clarification asked); these three followed by k rounds of llm
    and validator and a last llm that failed (k <= 2); the same followed by
    validator, semantic_override and governance (k <= 2); or three rounds
    followed by fallback.  In each case k is the final retry_count. *)
Theorem finished_turn_paths (W : Collaborators) (limit : nat)
    (history : list Message) (user_query domain thread_id : string)
    (user_selections : option (list string)) (c : Config) :
  run_graph W limit history user_query domain thread_id user_selections
    = Finished c ->
  finished_path (Z.to_nat (retry_count (cfg_state c))) (cfg_visited c).
Proof.
  intros Hrun. unfold run_graph in Hrun.
  set (s0 := initial_state history user_query domain thread_id user_selections) in *.
  assert (Hinit : initial s0).
  { exists history, user_query, domain, thread_id, user_selections. reflexivity. }
  destruct (run_finished W s0 limit _ _ (reach_init W s0) Hrun) as [Hreach Hend].
  pose proof (path_shape_reachable W s0 c Hinit Hreach) as Hpath.
  unfold path_shape in Hpath. rewrite Hend in Hpath. exact Hpath.
Qed.

(** A turn whose candidates are all rejected takes the fallback path. *)
Lemma finished_turn_paths_witness :
  finished_path
    (Z.to_nat (retry_count
                 (cfg_state (Sample.after Sample.W_rejecting Sample.s_rejected 10))))
    (cfg_visited (Sample.after Sample.W_rejecting Sample.s_rejected 10))
  /\ cfg_visited (Sample.after Sample.W_rejecting Sample.s_rejected 10)
     = [guardrail; retrieve; clarify; llm; validator; llm; validator; llm;
        validator; fallback].
Proof.
  assert (Hrun : run_graph Sample.W_rejecting 25 [] "we lost customer records"
                   "GDPR" "thread-1" None
                 = Finished (Sample.after Sample.W_rejecting Sample.s_rejected 10)).
  { vm_compute. reflexivity. }
  split.
  - exact (finished_turn_paths Sample.W_rejecting 25 [] "we lost customer records"
             "GDPR" "thread-1" None _ Hrun).
  - vm_compute. reflexivity.
Defined.

Lemma visits_app (n : Node) (a b : list Node) :
  visits n (a ++ b) = (visits n a + visits n b)%nat.
Proof. unfold visits. rewrite filter_app, length_app. reflexivity. Qed.

Lemma visits_cycles (n : Node) (k : nat) :
  visits n (cycles k)
  = if Node_eqb n llm || Node_eqb n validator then k else 0%nat.
Proof.
  induction k as [| k IH].
  - destruct (Node_eqb n llm || Node_eqb n validator); reflexivity.
  - rewrite cycles_succ, visits_app, IH. destruct n; cbn; lia.
Qed.

(** X6. At every point of a turn, llm has run at most three times, the
    validator at most three times, and every other stage at most once. *)
Theorem stage_run_counts (W : Collaborators) (s0 : AgentState) (c : Config)
    (n : Node) :
  initial s0 -> reachable W s0 c ->
  (visits n (cfg_visited c)
   <= if Node_eqb n llm || Node_eqb n validator then 3 else 1)%nat.
Proof.
  intros Hinit Hreach.
  pose proof (path_shape_reachable W s0 c Hinit Hreach) as Hpath.
  destruct (retry_invariant_reachable W s0 c Hinit Hreach) as [Hbound _].
  unfold path_shape, finished_path in Hpath.
  destruct (cfg_next c) as [[] |]; cbn [retry_bound] in Hbound;
    repeat match goal with
    | H : _ \/ _ |- _ => destruct H
    | H : _ /\ _ |- _ => destruct H
    | H : False |- _ => contradiction H
    end;
    match goal with
    | H : cfg_visited c = _ |- _ => rewrite H
    end;
    rewrite ?visits_app, ?visits_cycles;
    destruct n; cbn; lia.
Qed.

(** After three rejected candidates, llm has run three times. *)
Lemma stage_run_counts_witness :
  (visits llm (cfg_visited (Sample.after Sample.W_rejecting Sample.s_rejected 10))
   <= 3)%nat.
Proof.
  assert (Hinit : initial Sample.s_rejected).
  { exists [], "we lost customer records", "GDPR", "thread-1", None. reflexivity. }
  assert (Hreach : reachable Sample.W_rejecting Sample.s_rejected
                     (Sample.after Sample.W_rejecting Sample.s_rejected 10)).
  { apply (steps_reachable Sample.W_rejecting Sample.s_rejected 10
             (initial_config Sample.s_rejected)).
    - apply reach_init.
    - vm_compute. reflexivity. }
  exact (stage_run_counts Sample.W_rejecting Sample.s_rejected _ llm Hinit Hreach).
Defined.

(** ** Where a turn can raise *)

Section Raising.

Variable W : Collaborators.

Lemma try_except_ret_total {A : Type} (c : M A) (h : string -> A) (log : Log) :
  exists a log', try_except c (fun e => ret (h e)) log = (Ok a, log').
Proof.
  unfold try_except. destruct (c log) as [[a | e] log1].
  - exists a, log1. reflexivity.
  - exists (h e), log1. reflexivity.
Qed.

Lemma node_clarify_total (s : AgentState) (log : Log) :
  exists u log', node_clarify W s log = (Ok u, log').
Proof.
  unfold node_clarify.
  destruct (user_selections s) as [[| sel sels] |];
    try (eexists; eexists; reflexivity);
    destruct (PyStr.any_in definition_keywords (PyStr.lower (user_query s)));
    try (eexists; eexists; reflexivity);
    apply (try_except_ret_total _ (fun _ => with_route "clear" no_update)).
Qed.

Lemma node_llm_total (s : AgentState) (log : Log) :
  exists u log', node_llm W s log = (Ok u, log').
Proof.
  unfold node_llm.
  apply (try_except_ret_total _ (fun e => llm_error ("API Error: " ++ e))).
Qed.

Lemma execute_tool_call_total (tool_name : string) (arguments : dict) (log : Log) :
  exists text log', execute_tool_call W tool_name arguments log = (Ok text, log').
Proof.
  unfold execute_tool_call.
  destruct (registry_get (tool_registry W) tool_name) as [func |].
  - apply (try_except_ret_total _
             (fun e => "Error executing tool '" ++ tool_name ++ "': " ++ e)).
  - eexists. eexists. reflexivity.
Qed.

Lemma run_tool_calls_total (calls : list ToolCall) :
  forall log, exists msgs log', run_tool_calls W calls log = (Ok msgs, log').
Proof.
  induction calls as [| tc rest IH]; intros log.
  - eexists. eexists. reflexivity.
  - cbn [run_tool_calls]. unfold bind.
    destruct (execute_tool_call_total (or_else (tc_name tc) "")
                (or_else (tc_arguments tc) []) log) as (text & log1 & Hcall).
    rewrite Hcall. destruct (IH log1) as (msgs & log2 & Hrest). rewrite Hrest.
    eexists. eexists. reflexivity.
Qed.

Lemma node_tool_executor_total (s : AgentState) (log : Log) :
  exists u log', node_tool_executor W s log = (Ok u, log').
Proof.
  unfold node_tool_executor, bind.
  destruct (run_tool_calls_total (tool_calls s) log) as (msgs & log1 & H).
  rewrite H. eexists. eexists. reflexivity.
Qed.

(** Every router answers a key of its edge mapping. *)
Lemma next_target_total (n : Node) (s : AgentState) :
  exists t, next_target n s = Some t.
Proof.
  unfold next_target. destruct n; cbn [build_graph]; try (eexists; reflexivity).
  - unfold route_after_guardrail.
    destruct (String.eqb (route s) "blocked"); [eexists; reflexivity |].
    destruct (String.eqb (route s) "general"); eexists; reflexivity.
  - unfold route_after_clarify.
    destruct (String.eqb (route s) "depends"); eexists; reflexivity.
  - unfold route_after_llm.
    destruct (String.eqb (route s) "blocked"); [eexists; reflexivity |].
    destruct (tool_calls s); eexists; reflexivity.
  - unfold route_after_validation.
    destruct (validation_errors s); [eexists; reflexivity |].
    destruct (retry_count s <? 3); eexists; reflexivity.
Qed.

(** A superstep, with the stage's own equation. *)
Lemma step_run (c c' : Config) :
  step W c = Ok c' ->
  exists n u,
    cfg_next c = To n
    /\ run_node W n (cfg_state c) (cfg_log c) = (Ok u, cfg_log c')
    /\ cfg_state c' = merge (cfg_state c) u
    /\ next_target n (cfg_state c') = Some (cfg_next c').
Proof.
  unfold step. intros H.
  destruct (cfg_next c) as [n |]; [| discriminate H].
  destruct (run_node W n (cfg_state c) (cfg_log c)) as [[u | e] log'] eqn:Hrun;
    [| discriminate H].
  destruct (next_target n (merge (cfg_state c) u)) as [t |] eqn:Ht;
    [| discriminate H].
  inversion H; subst c'; clear H. cbn.
  exists n, u. repeat split; try reflexivity; assumption.
Qed.

Lemma analysis_parses_step (c c' : Config) :
  analysis_parses c -> step W c = Ok c' -> analysis_parses c'.
Proof.
  unfold analysis_parses. intros Hinv Hstep Hnext'.
  destruct (step_run c c' Hstep) as (n & u & Hn & Hrun & Hs & Ht).
  apply next_target_cases in Ht. rewrite Hs.
  destruct n; cbn [edge_cases] in Ht;
    try (split_cases Ht; destruct Hnext' as [Hx | Hx]; congruence).
  - (* validator *)
    cbn [run_node] in Hrun. apply ret_ok in Hrun. destruct Hrun as [Hu _].
    subst u. rewrite Hs in Ht.
    assert (Herrors : validation_errors (merge (cfg_state c) (node_validator W (cfg_state c))) = []).
    { split_cases Ht; destruct Hnext' as [Hx | Hx]; congruence. }
    clear Ht. unfold node_validator in *.
    destruct (analysis (cfg_state c)) as [[| kv d] |] eqn:Ha;
      try (cbn in Herrors; discriminate Herrors).
    destruct (Schema.parse (kv :: d)) as [r |] eqn:Hp;
      [| cbn in Herrors; discriminate Herrors].
    destruct (validate_response W r (user_query (cfg_state c)));
      [| cbn in Herrors; discriminate Herrors].
    exists (kv :: d), r. cbn. rewrite Ha. split; [reflexivity | exact Hp].
  - (* semantic_override *)
    destruct (Hinv (or_introl Hn)) as (d & r & Ha & Hp).
    cbn [run_node] in Hrun.
    rewrite (node_semantic_override_parsed W _ _ d r Ha Hp) in Hrun.
    inversion Hrun; subst u.
    exists (Schema.model_dump
              (apply_overrides (domain (cfg_state c)) (user_query (cfg_state c)) r)),
           (apply_overrides (domain (cfg_state c)) (user_query (cfg_state c)) r).
    split; [reflexivity |].
    apply parse_model_dump. apply apply_overrides_well_formed.
    eapply parse_well_formed. exact Hp.
Qed.

Lemma analysis_parses_reachable (s0 : AgentState) (c : Config) :
  reachable W s0 c -> analysis_parses c.
Proof.
  intros Hreach. induction Hreach as [| c c' Hreach IH Hstep].
  - intros [H | H]; discriminate H.
  - apply (analysis_parses_step c c' IH Hstep).
Qed.

End Raising.

(** X7. In a turn, an exception can only escape from the chat stage or the
    retrieve stage: every other stage returns an update at every point it
    is reached (clarify and llm catch what the backend raises, the tool
    dispatcher turns failures into text, the override and governance are
    only reached with a candidate that parses), and every router answers
    an edge of the graph. *)
Theorem only_chat_and_retrieve_raise (W : Collaborators) (s0 : AgentState)
    (c : Config) (n : Node) :
  reachable W s0 c -> cfg_next c = To n -> n <> chat -> n <> retrieve ->
  exists c', step W c = Ok c'.
Proof.
  intros Hreach Hn Hchat Hretrieve.
  pose proof (analysis_parses_reachable W s0 c Hreach) as Hparses.
  assert (Hok : exists u log', run_node W n (cfg_state c) (cfg_log c) = (Ok u, log')).
  { destruct n; cbn [run_node]; try congruence;
      try (eexists; eexists; reflexivity).
    - apply node_clarify_total.
    - apply node_llm_total.
    - destruct (Hparses (or_introl Hn)) as (d & r & Ha & Hp).
      rewrite (node_semantic_override_parsed W _ _ d r Ha Hp).
      eexists. eexists. reflexivity.
    - destruct (Hparses (or_intror Hn)) as (d & r & Ha & Hp).
      destruct (parse_nonempty d r Hp) as (kv & rest & ->).
      unfold node_governance. rewrite Ha, Hp.
      destruct (needs_clarification r); [eexists; eexists; reflexivity |].
      destruct (status _); eexists; eexists; reflexivity.
    - apply node_tool_executor_total. }
  destruct Hok as (u & log' & Hrun).
  destruct (next_target_total n (merge (cfg_state c) u)) as [t Ht].
  unfold step. rewrite Hn, Hrun, Ht. eexists. reflexivity.
Qed.

(** The validator of a sample turn does not raise. *)
Lemma only_chat_and_retrieve_raise_witness :
  exists c', step Sample.W (Sample.after Sample.W Sample.s_rejected 4) = Ok c'.
Proof.
  assert (Hreach : reachable Sample.W Sample.s_rejected
                     (Sample.after Sample.W Sample.s_rejected 4)).
  { apply (steps_reachable Sample.W Sample.s_rejected 4
             (initial_config Sample.s_rejected)).
    - apply reach_init.
    - vm_compute. reflexivity. }
  assert (Hn : cfg_next (Sample.after Sample.W Sample.s_rejected 4) = To validator)
    by (vm_compute; reflexivity).
  assert (H1 : validator <> chat) by discriminate.
  assert (H2 : validator <> retrieve) by discriminate.
  exact (only_chat_and_retrieve_raise Sample.W Sample.s_rejected _ validator
           Hreach Hn H1 H2).
Defined.

(** ** Governance and fallback in a turn *)

Lemma below_threshold_iff (c : Q) :
  below_threshold c = true <-> (c < 3 # 4)%Q.
Proof.
  unfold below_threshold. rewrite Qlt_alt.
  destruct (c ?= 3 # 4)%Q; split; intros H; try reflexivity; discriminate H.
Qed.

Lemma critical_iff (rl : RiskLevel) :
  String.eqb (RiskLevel_value rl) "critical" = true <-> rl = CRITICAL.
Proof. destruct rl; cbn; split; intros H; try reflexivity; discriminate H. Qed.

(** The envelope keeps every field of the record. *)
Lemma review_envelope_keeps_record (decision : GovernanceDecision)
    (response : ComplianceResponse) (k : string) (v : pyval) :
  Dict.get k (Schema.model_dump response) = Some v ->
  Dict.get k (review_envelope decision response) = Some v.
Proof.
  unfold review_envelope, Schema.model_dump.
  cbn [Dict.update fold_left fst snd Dict.set String.eqb Ascii.eqb Bool.eqb].
  cbn [Dict.get].
  repeat match goal with
  | |- context [String.eqb k ?lit] =>
      destruct (String.eqb_spec k lit); [subst k; cbn; try discriminate; tauto |]
  end.
  tauto.
Qed.

(** X8. Whenever governance runs in a turn, the candidate parses, the
    stage does not raise and the turn ends.  The result is the bare record
    when the record asks for clarification or is neither CRITICAL nor below
    confidence 0.75; otherwise it is the review_required envelope, which
    keeps every field of the record.  Governance never blocks and never
    reports a missing analysis. *)
Theorem governance_in_a_turn (W : Collaborators) (s0 : AgentState) (c : Config) :
  reachable W s0 c -> cfg_next c = To governance ->
  exists d r c',
    analysis (cfg_state c) = Some d /\ Schema.parse d = Some r
    /\ step W c = Ok c' /\ cfg_next c' = END
    /\ ((needs_clarification r = true \/ ~ held_for_review r)
        /\ final_response (cfg_state c') = Some (Schema.model_dump r)
        \/ needs_clarification r = false /\ held_for_review r
           /\ exists envelope,
                final_response (cfg_state c') = Some envelope
                /\ Dict.get "type" envelope = Some (VStr "review_required")
                /\ forall k v,
                     Dict.get k (Schema.model_dump r) = Some v ->
                     Dict.get k envelope = Some v).
Proof.
  intros Hreach Hn.
  destruct (analysis_parses_reachable W s0 c Hreach (or_intror Hn))
    as (d & r & Ha & Hp).
  destruct (parse_nonempty d r Hp) as (kv & rest & ->).
  exists (kv :: rest), r.
  unfold step. rewrite Hn. cbn [run_node]. unfold node_governance.
  rewrite Ha, Hp. unfold held_for_review.
  destruct (needs_clarification r) eqn:Hnc.
  - eexists. split; [reflexivity | split; [reflexivity |]].
    cbn. split; [reflexivity | split; [reflexivity |]].
    left. split; [left; reflexivity | reflexivity].
  - unfold classify_decision.
    destruct (String.eqb (RiskLevel_value (risk_level r)) "critical") eqn:Hcrit.
    + eexists. split; [reflexivity | split; [reflexivity |]].
      cbn [status ret]. cbn. split; [reflexivity | split; [reflexivity |]].
      right. split; [reflexivity |]. split; [left; apply critical_iff; exact Hcrit |].
      eexists. split; [reflexivity |]. split; [reflexivity |].
      intros k v Hk.
      apply (review_envelope_keeps_record
               (mkGovernanceDecision REVIEW_REQUIRED
                  "Critical risk topic (e.g., Penalties) mandates human oversight."
                  (confidence_score r) (RiskLevel_value (risk_level r))) r k v Hk).
    + destruct (below_threshold (confidence_score r)) eqn:Hlow.
      * eexists. split; [reflexivity | split; [reflexivity |]].
        cbn [status ret]. cbn. split; [reflexivity | split; [reflexivity |]].
        right. split; [reflexivity |].
        split; [right; apply below_threshold_iff; exact Hlow |].
        eexists. split; [reflexivity |]. split; [reflexivity |].
        intros k v Hk.
        apply (review_envelope_keeps_record
                 (mkGovernanceDecision REVIEW_REQUIRED
                    ("Low model confidence (" ++ format_2f W (confidence_score r) ++ ").")
                    (confidence_score r) (RiskLevel_value (risk_level r))) r k v Hk).
      * eexists. split; [reflexivity | split; [reflexivity |]].
        cbn [status ret]. cbn. split; [reflexivity | split; [reflexivity |]].
        left. split; [| reflexivity]. right. intros [Hc | Hq].
        -- apply critical_iff in Hc. rewrite Hc in Hcrit. discriminate Hcrit.
        -- apply below_threshold_iff in Hq. rewrite Hq in Hlow. discriminate Hlow.
Qed.

(** The sample analysis (HIGH, confidence 0.9) is approved as it is. *)
Lemma governance_in_a_turn_witness :
  exists d r c',
    analysis (cfg_state (Sample.after Sample.W Sample.s_rejected 6)) = Some d
    /\ Schema.parse d = Some r
    /\ step Sample.W (Sample.after Sample.W Sample.s_rejected 6) = Ok c'
    /\ cfg_next c' = END.
Proof.
  assert (Hreach : reachable Sample.W Sample.s_rejected
                     (Sample.after Sample.W Sample.s_rejected 6)).
  { apply (steps_reachable Sample.W Sample.s_rejected 6
             (initial_config Sample.s_rejected)).
    - apply reach_init.
    - vm_compute. reflexivity. }
  assert (Hn : cfg_next (Sample.after Sample.W Sample.s_rejected 6) = To governance)
    by (vm_compute; reflexivity).
  destruct (governance_in_a_turn Sample.W Sample.s_rejected _ Hreach Hn)
    as (d & r & c' & Ha & Hp & Hstep & Hend & _).
  exists d, r, c'. repeat split; assumption.
Defined.

(** X9. The fallback stage only runs after three failed validations: at
    that point retry_count is 3 and validation_errors is not empty, and
    its result is the error "Analysis failed after 3 retries" with the
    last errors; the turn then ends. *)
Theorem fallback_after_three_retries (W : Collaborators) (s0 : AgentState)
    (c : Config) :
  initial s0 -> reachable W s0 c -> cfg_next c = To fallback ->
  retry_count (cfg_state c) = 3
  /\ validation_errors (cfg_state c) <> []
  /\ exists c',
       step W c = Ok c' /\ cfg_next c' = END
       /\ final_response (cfg_state c')
          = Some [("type", VStr "error");
                  ("message",
                    VStr ("❌ Analysis failed after 3 retries. Last errors: "
                          ++ repr_list W (validation_errors (cfg_state c))))].
Proof.
  intros Hinit Hreach Hn.
  assert (Hstate : retry_count (cfg_state c) = 3
                   /\ validation_errors (cfg_state c) <> []).
  { destruct (retry_invariant_reachable W s0 c Hinit Hreach) as [Hbound _].
    rewrite Hn in Hbound. cbn [retry_bound] in Hbound.
    inversion Hreach as [Hc | c0 c1 Hreach0 Hstep Hc].
    - rewrite <- Hc in Hn. discriminate Hn.
    - subst c1.
      destruct (step_ok W c0 c Hstep) as (n & u & _ & _ & _ & Ht & _).
      apply next_target_cases in Ht. rewrite Hn in Ht.
      destruct n; cbn [edge_cases] in Ht; split_cases Ht; try discriminate.
      split; [lia | assumption]. }
  destruct Hstate as [Hrc Herr]. split; [exact Hrc | split; [exact Herr |]].
  unfold step. rewrite Hn. cbn [run_node]. unfold ret, node_fallback.
  rewrite Hrc. eexists. split; [reflexivity |]. cbn. split; reflexivity.
Qed.

(** The turn whose candidates are all rejected reaches fallback. *)
Lemma fallback_after_three_witness :
  retry_count (cfg_state (Sample.after Sample.W_rejecting Sample.s_rejected 9)) = 3
  /\ validation_errors
       (cfg_state (Sample.after Sample.W_rejecting Sample.s_rejected 9)) <> [].
Proof.
  assert (Hinit : initial Sample.s_rejected).
  { exists [], "we lost customer records", "GDPR", "thread-1", None. reflexivity. }
  assert (Hreach : reachable Sample.W_rejecting Sample.s_rejected
                     (Sample.after Sample.W_rejecting Sample.s_rejected 9)).
  { apply (steps_reachable Sample.W_rejecting Sample.s_rejected 9
             (initial_config Sample.s_rejected)).
    - apply reach_init.
    - vm_compute. reflexivity. }
  assert (Hn : cfg_next (Sample.after Sample.W_rejecting Sample.s_rejected 9)
               = To fallback) by (vm_compute; reflexivity).
  destruct (fallback_after_three_retries Sample.W_rejecting Sample.s_rejected _
              Hinit Hreach Hn) as (Hrc & Herr & _).
  split; assumption.
Defined.

(** ** The budget of external calls *)

Lemma creates_app (a b : Log) : creates (a ++ b)%list = (creates a + creates b)%nat.
Proof. unfold creates. rewrite filter_app, length_app. reflexivity. Qed.

Lemma searches_app (a b : Log) : searches (a ++ b)%list = (searches a + searches b)%nat.
Proof. unfold searches. rewrite filter_app, length_app. reflexivity. Qed.

Lemma creates_map_le (ev : string -> Event) (l : list string) :
  (creates (map ev l) <= List.length l)%nat.
Proof.
  unfold creates. induction l as [| x l IH]; cbn; [lia |].
  destruct (is_create (ev x)); cbn; lia.
Qed.

Lemma searches_map_create (kind : Schema_kind) (msgs : list Message)
    (l : list string) :
  searches (map (fun m => EvCreate m kind msgs) l) = 0%nat.
Proof. unfold searches. induction l as [| x l IH]; cbn; [reflexivity | exact IH]. Qed.

(** The failover loop calls each model at most once. *)
Lemma safe_api_call_log {A : Type} (repr : list string -> string)
    (kind : Schema_kind) (msgs : list Message)
    (answer : string -> nat -> A + string) (models : list string) (log : Log) :
  exists evs,
    snd (safe_api_call repr
           (fun m => call (EvCreate m kind msgs) (answer m)) models log)
    = (log ++ evs)%list
    /\ (creates evs <= List.length models)%nat
    /\ searches evs = 0%nat.
Proof.
  unfold safe_api_call.
  destruct (failover_loop_outcomes repr (fun m => EvCreate m kind msgs) answer
              (List.length models) models [] log) as [H | [H | H]].
  - destruct H as (pre & m & post & r & Hm & _ & _ & Hout).
    exists (map (fun m => EvCreate m kind msgs) (pre ++ [m])).
    rewrite Hout. split; [reflexivity |]. split; [| apply searches_map_create].
    etransitivity; [apply creates_map_le |].
    rewrite Hm, !length_app. cbn. lia.
  - destruct H as (pre & m & post & e & Hm & _ & _ & _ & Hout).
    exists (map (fun m => EvCreate m kind msgs) (pre ++ [m])).
    rewrite Hout. split; [reflexivity |]. split; [| apply searches_map_create].
    etransitivity; [apply creates_map_le |].
    rewrite Hm, !length_app. cbn. lia.
  - destruct H as (_ & errs & _ & Hout).
    exists (map (fun m => EvCreate m kind msgs) models).
    rewrite Hout. split; [reflexivity |]. split; [| apply searches_map_create].
    apply creates_map_le.
Qed.

Lemma snd_try_ret {A : Type} (c : M A) (h : string -> A) (log : Log) :
  snd (try_except c (fun e => ret (h e)) log) = snd (c log).
Proof. unfold try_except. destruct (c log) as [[a | e] l]; reflexivity. Qed.

Lemma snd_bind_pure {A B : Type} (c : M A) (k : A -> M B) (log : Log) :
  (forall a l, snd (k a l) = l) -> snd (bind c k log) = snd (c log).
Proof.
  intros Hk. unfold bind. destruct (c log) as [[a | e] l]; [apply Hk | reflexivity].
Qed.

Section Budget.

Variable W : Collaborators.

(** What one stage adds to the log of external calls. *)
Lemma run_node_log (n : Node) (s : AgentState) (log : Log) :
  n <> tool_executor ->
  exists evs,
    snd (run_node W n s log) = (log ++ evs)%list
    /\ (creates evs <= if generative n then models_configured W else 0)%nat
    /\ (searches evs <= if Node_eqb n retrieve then 1 else 0)%nat.
Proof.
  intros Hn.
  assert (Hnone : exists evs : Log,
            log = (log ++ evs)%list /\ (creates evs <= 0)%nat
            /\ (searches evs <= 0)%nat).
  { exists []. rewrite app_nil_r. repeat split; cbn; lia. }
  unfold models_configured.
  destruct n; cbn [run_node generative Node_eqb]; try exact Hnone;
    try congruence.
  - (* chat *)
    unfold node_chat, get_clients.
    destruct (get_llm_client W) as [models | e].
    + unfold bind at 1. cbn [ret].
      rewrite snd_bind_pure by reflexivity.
      destruct (safe_api_call_log (repr_list W) Unstructured
                  [msg "system" chat_persona; msg "user" (user_query s)]
                  (fun m => create_text W m
                     [msg "system" chat_persona; msg "user" (user_query s)])
                  models log) as (evs & Hevs & Hc & Hs).
      exists evs. unfold api_text. rewrite Hevs. repeat split; [exact Hc | lia].
    + exists []. cbn. rewrite app_nil_r. repeat split; lia.
  - (* retrieve *)
    unfold node_retrieve.
    destruct (String.eqb (domain s) "GDPR").
    + destruct (Retrieval.clause_texts (corpus W)).
      * exists []. cbn. rewrite app_nil_r. repeat split; lia.
      * rewrite snd_bind_pure by (intros [| hit hits] lg; reflexivity).
        eexists. split; [reflexivity |]. cbn. split; lia.
    + destruct (String.eqb (domain s) "FDA").
      * rewrite snd_bind_pure by reflexivity.
        eexists. split; [reflexivity |]. cbn. split; lia.
      * destruct (String.eqb (domain s) "CCPA");
          (exists []; cbn; rewrite app_nil_r; repeat split; lia).
  - (* clarify *)
    assert (Hask : exists evs,
              snd (node_clarify W
                     (mkAgentState (messages s) (user_query s) (domain s)
                        (retrieved_context s) (analysis s) (validation_errors s)
                        (retry_count s) (route s) (tool_calls s)
                        (final_response s) (thread_id s)
                        (clarification_options s) None) log)
              = (log ++ evs)%list
              /\ (creates evs
                  <= match get_llm_client W with
                     | inl models => List.length models
                     | inr _ => 0
                     end)%nat
              /\ (searches evs <= 0)%nat).
    { unfold node_clarify. cbn [user_selections user_query retrieved_context domain].
      destruct (PyStr.any_in definition_keywords (PyStr.lower (user_query s)));
        [exists []; cbn; rewrite app_nil_r; repeat split; lia |].
      rewrite (snd_try_ret _ (fun _ => with_route "clear" no_update)).
      unfold get_clients.
      destruct (get_llm_client W) as [models | e];
        [| exists []; cbn; rewrite app_nil_r; repeat split; lia].
      unfold bind at 1. cbn [ret].
      rewrite snd_bind_pure
        by (intros a lg; destruct (cl_needs_clarification a), (cl_options a);
            reflexivity).
      match goal with
      | |- context [api_clarification _ _ ?msgs log] =>
          destruct (safe_api_call_log (repr_list W) AsClarification msgs
                      (fun m => create_clarification W m msgs) models log)
            as (evs & Hevs & Hc & Hs)
      end.
      exists evs. unfold api_clarification. rewrite Hevs.
      split; [reflexivity | split; [exact Hc | lia]]. }
    unfold node_clarify in *. cbn [user_selections user_query retrieved_context domain] in Hask.
    destruct (user_selections s) as [[| sel sels] |].
    + exact Hask.
    + exists []. cbn. rewrite app_nil_r. repeat split; lia.
    + exact Hask.
  - (* llm *)
    unfold node_llm.
    rewrite (snd_try_ret _ (fun e => llm_error ("API Error: " ++ e))).
    unfold get_clients.
    destruct (get_llm_client W) as [models | e];
      [| exists []; cbn; rewrite app_nil_r; repeat split; lia].
    unfold bind at 1. cbn [ret].
    rewrite snd_bind_pure by (intros [r | t] lg; reflexivity).
    destruct (safe_api_call_log (repr_list W) AsCompliance (llm_messages W s)
                (fun m => create_compliance W m (llm_messages W s)) models log)
      as (evs & Hevs & Hc & Hs).
    exists evs. unfold api_compliance. rewrite Hevs. repeat split; [exact Hc | lia].
  - (* semantic_override *)
    unfold node_semantic_override.
    destruct (analysis s) as [[| kv d] |]; try exact Hnone.
    destruct (Schema.parse (kv :: d)); exact Hnone.
  - (* governance *)
    unfold node_governance.
    destruct (analysis s) as [[| kv d] |]; try exact Hnone.
    destruct (Schema.parse (kv :: d)) as [r |]; [| exact Hnone].
    destruct (needs_clarification r); [exact Hnone |].
    destruct (status _); exact Hnone.
Qed.

Lemma generative_visits_app (a b : list Node) :
  generative_visits (a ++ b) = (generative_visits a + generative_visits b)%nat.
Proof. unfold generative_visits. rewrite filter_app, length_app. reflexivity. Qed.

Lemma budget_step (c c' : Config) :
  tools_invariant c -> step W c = Ok c' ->
  (creates (cfg_log c) <= models_configured W * generative_visits (cfg_visited c))%nat
  /\ (searches (cfg_log c) <= retrieve_visits (cfg_visited c))%nat ->
  (creates (cfg_log c') <= models_configured W * generative_visits (cfg_visited c'))%nat
  /\ (searches (cfg_log c') <= retrieve_visits (cfg_visited c'))%nat.
Proof.
  intros (_ & Hnot & _) Hstep [Hc Hs].
  destruct (step_ok W c c' Hstep) as (n0 & _ & Hn0 & _ & _ & _ & Hv).
  destruct (step_run W c c' Hstep) as (n & u & Hn & Hrun & _ & _).
  rewrite Hn in Hn0. inversion Hn0; subst n0.
  assert (Hne : n <> tool_executor) by (intros ->; apply Hnot; exact Hn).
  destruct (run_node_log n (cfg_state c) (cfg_log c) Hne) as (evs & Hevs & Hce & Hse).
  rewrite Hrun in Hevs. cbn [snd] in Hevs.
  rewrite Hevs, Hv, creates_app, searches_app, generative_visits_app.
  unfold retrieve_visits in *. rewrite visits_app.
  unfold generative_visits at 2. unfold visits at 2. cbn [filter].
  destruct n; cbn [generative Node_eqb List.length] in *; split; nia.
Qed.

Lemma budget_reachable (s0 : AgentState) (c : Config) :
  initial s0 -> reachable W s0 c ->
  (creates (cfg_log c) <= models_configured W * generative_visits (cfg_visited c))%nat
  /\ (searches (cfg_log c) <= retrieve_visits (cfg_visited c))%nat.
Proof.
  intros Hinit Hreach. induction Hreach as [| c c' Hreach IH Hstep].
  - cbn. split; lia.
  - apply (budget_step c c' (tools_invariant_reachable W s0 c Hinit Hreach) Hstep IH).
Qed.

Lemma generative_visits_cycles (k : nat) : generative_visits (cycles k) = k.
Proof.
  induction k as [| k IH]; [reflexivity |].
  rewrite cycles_succ, generative_visits_app, IH. cbn. lia.
Qed.

Lemma generative_visits_bound (s0 : AgentState) (c : Config) :
  initial s0 -> reachable W s0 c -> (generative_visits (cfg_visited c) <= 4)%nat.
Proof.
  intros Hinit Hreach.
  pose proof (path_shape_reachable W s0 c Hinit Hreach) as Hpath.
  destruct (retry_invariant_reachable W s0 c Hinit Hreach) as [Hbound _].
  unfold path_shape, finished_path in Hpath.
  destruct (cfg_next c) as [[] |]; cbn [retry_bound] in Hbound;
    repeat match goal with
    | H : _ \/ _ |- _ => destruct H
    | H : _ /\ _ |- _ => destruct H
    | H : False |- _ => contradiction H
    end;
    match goal with
    | H : cfg_visited c = _ |- _ => rewrite H
    end;
    rewrite ?generative_visits_app, ?generative_visits_cycles;
    cbn; lia.
Qed.

Lemma retrieve_visits_bound (s0 : AgentState) (c : Config) :
  initial s0 -> reachable W s0 c -> (retrieve_visits (cfg_visited c) <= 1)%nat.
Proof.
  intros Hinit Hreach.
  pose proof (path_shape_reachable W s0 c Hinit Hreach) as Hpath.
  destruct (retry_invariant_reachable W s0 c Hinit Hreach) as [Hbound _].
  unfold path_shape, finished_path in Hpath. unfold retrieve_visits.
  destruct (cfg_next c) as [[] |]; cbn [retry_bound] in Hbound;
    repeat match goal with
    | H : _ \/ _ |- _ => destruct H
    | H : _ /\ _ |- _ => destruct H
    | H : False |- _ => contradiction H
    end;
    match goal with
    | H : cfg_visited c = _ |- _ => rewrite H
    end;
    rewrite ?visits_app, ?visits_cycles;
    cbn; lia.
Qed.

End Budget.

(** X10. At every point of a turn the generative backend has been called
    at most four times the number of configured models (once per model for
    clarify and for each of at most three generations, or once per model
    for chat), and the retrieval collaborator at most once. *)
Theorem external_call_budget (W : Collaborators) (s0 : AgentState) (c : Config) :
  initial s0 -> reachable W s0 c ->
  (creates (cfg_log c) <= 4 * models_configured W)%nat
  /\ (searches (cfg_log c) <= 1)%nat.
Proof.
  intros Hinit Hreach.
  destruct (budget_reachable W s0 c Hinit Hreach) as [Hc Hs].
  pose proof (generative_visits_bound W s0 c Hinit Hreach) as Hg.
  pose proof (retrieve_visits_bound W s0 c Hinit Hreach) as Hr.
  split; nia.
Qed.

(** Three rejected candidates with two models configured: at most 8 calls. *)
Lemma external_call_budget_witness :
  (creates (cfg_log (Sample.after Sample.W_rejecting Sample.s_rejected 10))
   <= 4 * models_configured Sample.W_rejecting)%nat.
Proof.
  assert (Hinit : initial Sample.s_rejected).
  { exists [], "we lost customer records", "GDPR", "thread-1", None. reflexivity. }
  assert (Hreach : reachable Sample.W_rejecting Sample.s_rejected
                     (Sample.after Sample.W_rejecting Sample.s_rejected 10)).
  { apply (steps_reachable Sample.W_rejecting Sample.s_rejected 10
             (initial_config Sample.s_rejected)).
    - apply reach_init.
    - vm_compute. reflexivity. }
  exact (proj1 (external_call_budget Sample.W_rejecting Sample.s_rejected _
                  Hinit Hreach)).
Defined.

(** ** The choice of provider *)



(** ** The tool dispatcher *)

(** X12. [execute_tool_call] never raises.  An unknown tool name gives the
    text "Error: Unknown tool '<name>'" without any external call; a
    registered tool is called once, and what it raises comes back as the
    text "Error executing tool '<name>': <error>". *)
Theorem tool_dispatch_total (W : Collaborators) (tool_name : string)
    (arguments : dict) (log : Log) :
  (registry_get (tool_registry W) tool_name = None ->
   execute_tool_call W tool_name arguments log
   = (Ok ("Error: Unknown tool '" ++ tool_name ++ "'"), log))
  /\ (forall func,
        registry_get (tool_registry W) tool_name = Some func ->
        execute_tool_call W tool_name arguments log
        = (Ok (match func arguments (List.length log) with
               | inl text => text
               | inr e => "Error executing tool '" ++ tool_name ++ "': " ++ e
               end),
           (log ++ [EvTool tool_name arguments])%list))
  /\ exists text log',
       execute_tool_call W tool_name arguments log = (Ok text, log').
Proof.
  split; [| split].
  - intros Hnone. unfold execute_tool_call. rewrite Hnone. reflexivity.
  - intros func Hsome. unfold execute_tool_call. rewrite Hsome.
    unfold try_except, call. destruct (func arguments (List.length log)); reflexivity.
  - apply execute_tool_call_total.
Qed.

(** The unknown tool of the repository's dispatch test, and a tool that
    raises. *)
Lemma tool_dispatch_witness :
  execute_tool_call W_tools "unknown_tool" [] []
  = (Ok "Error: Unknown tool 'unknown_tool'", [])
  /\ execute_tool_call W_tools "broken" [] []
     = (Ok "Error executing tool 'broken': missing argument", [EvTool "broken" []]).
Proof.
  split.
  - exact (proj1 (tool_dispatch_total W_tools "unknown_tool" [] []) eq_refl).
  - exact (proj1 (proj2 (tool_dispatch_total W_tools "broken" [] [])) _ eq_refl).
Defined.

Lemma run_tool_calls_messages (W : Collaborators) (calls : list ToolCall) :
  forall log msgs log',
    run_tool_calls W calls log = (Ok msgs, log') ->
    map name msgs = map (fun tc => Some (call_name tc)) calls
    /\ Forall (fun m => role m = "tool") msgs.
Proof.
  induction calls as [| tc rest IH]; intros log msgs log' H.
  - apply ret_ok in H. destruct H as [<- _]. split; [reflexivity | constructor].
  - cbn [run_tool_calls] in H. inv_m.
    match goal with
    | Hrest : run_tool_calls W rest _ = (Ok ?more, _) |- _ =>
        destruct (IH _ _ _ Hrest) as [Hnames Hroles]
    end.
    split.
    + cbn [map name]. rewrite Hnames. reflexivity.
    + constructor; [reflexivity | exact Hroles].
Qed.

(** X13. The tool executor never raises.  It returns one message of role
    "tool" per pending call, in the order of the calls and named after
    them (a call without a name is dispatched under the empty name), and
    clears tool_calls; merged into the state, the messages are appended to
    the history. *)
Theorem tool_executor_messages (W : Collaborators) (s : AgentState) (log : Log) :
  exists new_messages log',
    node_tool_executor W s log
    = (Ok (with_tool_calls [] (with_messages new_messages no_update)), log')
    /\ map name new_messages = map (fun tc => Some (call_name tc)) (tool_calls s)
    /\ Forall (fun m => role m = "tool") new_messages
    /\ tool_calls
         (merge s (with_tool_calls [] (with_messages new_messages no_update))) = []
    /\ messages
         (merge s (with_tool_calls [] (with_messages new_messages no_update)))
       = (messages s ++ new_messages)%list.
Proof.
  destruct (run_tool_calls_total W (tool_calls s) log) as (msgs & log' & Hrun).
  exists msgs, log'.
  destruct (run_tool_calls_messages W _ _ _ _ Hrun) as [Hnames Hroles].
  split; [| repeat split; assumption].
  unfold node_tool_executor, bind. rewrite Hrun. reflexivity.
Qed.

(** ** Retrieval: which articles are expanded, and in which order *)

Lemma nat_of_ascii_inj (x y : ascii) : nat_of_ascii x = nat_of_ascii y -> x = y.
Proof.
  intros H. rewrite <- (ascii_nat_embedding x), <- (ascii_nat_embedding y), H.
  reflexivity.
Qed.

Lemma ltb_irrefl (a : string) : PyStr.ltb a a = false.
Proof.
  induction a as [| x a IH]; [reflexivity |].
  cbn [PyStr.ltb]. rewrite Nat.ltb_irrefl. exact IH.
Qed.

Lemma ltb_trans (a : string) :
  forall b c, PyStr.ltb a b = true -> PyStr.ltb b c = true -> PyStr.ltb a c = true.
Proof.
  induction a as [| x a IH]; intros [| y b] [| z c]; cbn [PyStr.ltb];
    try congruence.
  destruct (Nat.ltb_spec (nat_of_ascii x) (nat_of_ascii y));
    destruct (Nat.ltb_spec (nat_of_ascii y) (nat_of_ascii x));
    destruct (Nat.ltb_spec (nat_of_ascii y) (nat_of_ascii z));
    destruct (Nat.ltb_spec (nat_of_ascii z) (nat_of_ascii y));
    destruct (Nat.ltb_spec (nat_of_ascii x) (nat_of_ascii z));
    destruct (Nat.ltb_spec (nat_of_ascii z) (nat_of_ascii x));
    try congruence; try lia.
  apply IH.
Qed.

Lemma ltb_total (a : string) :
  forall b, PyStr.ltb a b = false -> PyStr.ltb b a = false -> a = b.
Proof.
  induction a as [| x a IH]; intros [| y b]; cbn [PyStr.ltb];
    try congruence.
  destruct (Nat.ltb_spec (nat_of_ascii x) (nat_of_ascii y));
    destruct (Nat.ltb_spec (nat_of_ascii y) (nat_of_ascii x));
    try congruence; try lia.
  intros Hab Hba. f_equal.
  - apply nat_of_ascii_inj. lia.
  - apply IH; assumption.
Qed.

Lemma ltb_asym (a b : string) : PyStr.ltb a b = true -> PyStr.ltb b a = false.
Proof.
  intros Hab. destruct (PyStr.ltb b a) eqn:Hba; [| reflexivity].
  pose proof (ltb_trans a b a Hab Hba) as H. rewrite ltb_irrefl in H. discriminate.
Qed.

(** [a <= b] on [str]. *)
Lemma leb_trans (a b c : string) :
  PyStr.ltb b a = false -> PyStr.ltb c b = false -> PyStr.ltb c a = false.
Proof.
  intros Hab Hbc. destruct (PyStr.ltb c a) eqn:Hca; [| reflexivity].
  destruct (PyStr.ltb a b) eqn:Hab'.
  - pose proof (ltb_trans c a b Hca Hab') as H. congruence.
  - pose proof (ltb_total a b Hab' Hab) as ->. congruence.
Qed.

Lemma insert_by_sorted {A : Type} (key : A -> string) (x : A) (l : list A) :
  StronglySorted (fun a b => PyStr.ltb (key b) (key a) = false) l ->
  StronglySorted (fun a b => PyStr.ltb (key b) (key a) = false)
    (Retrieval.insert_by key x l).
Proof.
  induction l as [| y t IH]; intros Hs; cbn [Retrieval.insert_by].
  - constructor; constructor.
  - inversion Hs as [| ? ? Ht Hy]; subst.
    destruct (PyStr.ltb (key x) (key y)) eqn:Hxy.
    + constructor; [exact Hs |].
      apply ltb_asym in Hxy. constructor; [exact Hxy |].
      eapply Forall_impl; [| exact Hy].
      intros z Hz. cbn beta in *. apply (leb_trans _ (key y)); assumption.
    + constructor; [apply IH; exact Ht |].
      apply Forall_forall. intros z Hz. apply insert_by_in in Hz.
      destruct Hz as [-> | Hz]; [exact Hxy |].
      rewrite Forall_forall in Hy. apply Hy. exact Hz.
Qed.

(** [sorted] returns its input rearranged in ascending order of the keys. *)
Lemma sorted_by_sorted {A : Type} (key : A -> string) (l : list A) :
  StronglySorted (fun a b => PyStr.ltb (key b) (key a) = false)
    (Retrieval.sorted_by key l).
Proof.
  unfold Retrieval.sorted_by.
  assert (H : forall acc,
             StronglySorted (fun a b => PyStr.ltb (key b) (key a) = false) acc ->
             StronglySorted (fun a b => PyStr.ltb (key b) (key a) = false)
               (fold_left (fun acc x => Retrieval.insert_by key x acc) l acc)).
  { induction l as [| a l IH]; intros acc Hacc; cbn [fold_left].
    - exact Hacc.
    - apply IH. apply insert_by_sorted. exact Hacc. }
  apply H. constructor.
Qed.

Lemma insert_by_perm {A : Type} (key : A -> string) (x : A) (l : list A) :
  Permutation (Retrieval.insert_by key x l) (x :: l).
Proof.
  induction l as [| y t IH]; cbn [Retrieval.insert_by].
  - apply Permutation_refl.
  - destruct (PyStr.ltb (key x) (key y)).
    + apply Permutation_refl.
    + apply (perm_trans (perm_skip y IH)). apply perm_swap.
Qed.

Lemma sorted_by_perm {A : Type} (key : A -> string) (l : list A) :
  Permutation (Retrieval.sorted_by key l) l.
Proof.
  unfold Retrieval.sorted_by.
  assert (H : forall acc,
             Permutation
               (fold_left (fun acc x => Retrieval.insert_by key x acc) l acc)
               (acc ++ l)).
  { induction l as [| a l IH]; intros acc; cbn [fold_left].
    - rewrite app_nil_r. apply Permutation_refl.
    - apply (perm_trans (IH _)).
      apply (perm_trans (Permutation_app_tail l (insert_by_perm key a acc))).
      cbn [app]. apply Permutation_middle. }
  apply (H []).
Qed.

Lemma set_add_nodup (x : string) (s : list string) :
  NoDup s -> NoDup (Retrieval.set_add x s).
Proof.
  intros Hs. unfold Retrieval.set_add.
  destruct (existsb (String.eqb x) s) eqn:E; [exact Hs |].
  apply NoDup_app; [exact Hs | constructor; [intros [] | constructor] |].
  intros y Hy [Heq | []]. subst y.
  assert (Hex : existsb (String.eqb x) s = true).
  { apply existsb_exists. exists x. split; [exact Hy | apply String.eqb_refl]. }
  congruence.
Qed.

Lemma add_all_nodup (l : list string) :
  forall s, NoDup s ->
    NoDup (fold_left (fun s art_id => Retrieval.set_add art_id s) l s).
Proof.
  induction l as [| a l IH]; intros s Hs; cbn [fold_left]; [exact Hs |].
  apply IH. apply set_add_nodup. exact Hs.
Qed.

Lemma inject_table_nodup (table : list (string * (list string * list string)))
    (q_lower : string) :
  forall ids, NoDup ids ->
    NoDup
      (fold_left
         (fun ids rule =>
            let '(_, (triggers, injected)) := rule in
            if PyStr.any_in triggers q_lower
            then fold_left (fun s art_id => Retrieval.set_add art_id s) injected ids
            else ids)
         table ids).
Proof.
  induction table as [| [name [triggers injected]] rest IH]; intros ids Hids;
    cbn [fold_left]; [exact Hids |].
  apply IH. destruct (PyStr.any_in triggers q_lower); [| exact Hids].
  apply add_all_nodup. exact Hids.
Qed.

(** The loop adds nothing but what a triggered rule injects. *)
Lemma inject_table_only (table : list (string * (list string * list string)))
    (q_lower : string) :
  forall (ids : list string) (y : string),
    In y
      (fold_left
         (fun ids rule =>
            let '(_, (triggers, injected)) := rule in
            if PyStr.any_in triggers q_lower
            then fold_left (fun s art_id => Retrieval.set_add art_id s) injected ids
            else ids)
         table ids) ->
    In y ids
    \/ (exists name triggers injected,
          In (name, (triggers, injected)) table
          /\ PyStr.any_in triggers q_lower = true /\ In y injected).
Proof.
  induction table as [| [name [triggers injected]] rest IH]; intros ids y H;
    cbn [fold_left] in H.
  - left. exact H.
  - apply IH in H. destruct H as [H | (n & t & i & Hin & Hany & Hy)].
    + destruct (PyStr.any_in triggers q_lower) eqn:Hany; [| left; exact H].
      apply add_all_in in H. destruct H as [H | H]; [| left; exact H].
      right. exists name, triggers, injected.
      split; [left; reflexivity | split; assumption].
    + right. exists n, t, i. split; [right; exact Hin | split; assumption].
Qed.

Lemma strictly_sorted (l : list string) :
  StronglySorted (fun a b => PyStr.ltb b a = false) l -> NoDup l ->
  StronglySorted (fun a b => PyStr.ltb a b = true) l.
Proof.
  induction l as [| x t IH]; intros Hs Hn; [constructor |].
  inversion Hs as [| ? ? Ht Hx]; subst. inversion Hn as [| ? ? Hnot Hnt]; subst.
  constructor; [apply IH; assumption |].
  apply Forall_forall. intros y Hy. rewrite Forall_forall in Hx.
  destruct (PyStr.ltb x y) eqn:Hxy; [reflexivity |].
  pose proof (ltb_total x y Hxy (Hx y Hy)) as ->. contradiction.
Qed.

(** X14. The context of the GDPR branch is the expansion, joined by blank
    lines, of exactly the article ids of the hits and the ids injected by
    the rules of DOMAIN_MAP that the lower-cased query triggers, each id
    once, in strictly ascending code point order of the ids as strings (so
    "12" comes before "6"). *)
Theorem context_articles (articles : list Article) (query : string)
    (results : list Hit) :
  Retrieval.build_context articles query results
  = PyStr.join (nl ++ nl)
      (map (Retrieval.expand_article_by_id articles) (context_ids query results))
  /\ (forall y,
        In y (context_ids query results)
        <-> (exists r, In r results /\ str_of_id (hit_article_id r) = y)
            \/ injected_by query y)
  /\ StronglySorted (fun a b => PyStr.ltb a b = true) (context_ids query results).
Proof.
  split; [reflexivity |].
  assert (Hset : forall (l acc : list string),
             NoDup acc ->
             NoDup (fold_left (fun s x => Retrieval.set_add x s) l acc)).
  { intros l. induction l as [| a l IH]; intros acc Hacc; cbn [fold_left];
      [exact Hacc | apply IH, set_add_nodup, Hacc]. }
  split.
  - intros y. unfold context_ids. rewrite sorted_by_in. unfold Retrieval.inject.
    split.
    + intros H. apply inject_table_only in H. destruct H as [H | H]; [left | right; exact H].
      unfold Retrieval.set_of in H. apply add_all_in in H.
      destruct H as [H | []]. apply in_map_iff in H.
      destruct H as (r & Hr & Hin). exists r. split; assumption.
    + intros [(r & Hin & Hr) | H]; apply inject_table_in; [left | right; exact H].
      unfold Retrieval.set_of. apply add_all_in. left.
      apply in_map_iff. exists r. split; assumption.
  - unfold context_ids. apply strictly_sorted; [apply sorted_by_sorted |].
    apply (Permutation_NoDup (Permutation_sym (sorted_by_perm _ _))).
    unfold Retrieval.inject. apply inject_table_nodup.
    unfold Retrieval.set_of. apply Hset. constructor.
Qed.

(** A query about fines with hits on Articles 6 and 33: Article 83 is
    expanded although no hit names it. *)
Lemma context_articles_witness :
  In "83" (context_ids "Can we delete the access logs after a fine?" hits_6_33).
Proof.
  apply (proj1 (proj2 (context_articles []
                         "Can we delete the access logs after a fine?" hits_6_33))).
  right. exists "penalty_logic", penalty_triggers, ["83"].
  split; [left; reflexivity | split; [vm_compute; reflexivity | left; reflexivity]].
Defined.

(** X15. The lookup of an article by id returns the last article of the
    corpus that has the id, and nothing when no article has it; an id that
    is not in the corpus expands to the bracketed error text. *)
Theorem article_lookup (articles : list Article) (aid : string) :
  (forall a,
     Retrieval.article_map_get articles aid = Some a
     <-> exists before after,
           articles = (before ++ a :: after)%list
           /\ str_of_id (article_id a) = aid
           /\ Forall (fun b => str_of_id (article_id b) <> aid) after)
  /\ (Retrieval.article_map_get articles aid = None
      <-> Forall (fun b => str_of_id (article_id b) <> aid) articles)
  /\ (Forall (fun b => str_of_id (article_id b) <> aid) articles ->
      Retrieval.expand_article_by_id articles aid
      = "[Error: Article " ++ aid ++ " not found in structured data]").
Proof.
  assert (Hfold : forall (l : list Article) (found : option Article),
             fold_left
               (fun found a =>
                  if String.eqb (str_of_id (article_id a)) aid
                  then Some a else found) l found
             = match Retrieval.article_map_get l aid with
               | Some a => Some a
               | None => found
               end).
  { intros l. unfold Retrieval.article_map_get.
    induction l as [| b l IH]; intros found; cbn [fold_left]; [reflexivity |].
    rewrite (IH (if String.eqb (str_of_id (article_id b)) aid
                 then Some b else found)).
    rewrite (IH (if String.eqb (str_of_id (article_id b)) aid
                 then Some b else None)).
    destruct (fold_left _ l None); [reflexivity |].
    destruct (String.eqb (str_of_id (article_id b)) aid); reflexivity. }
  assert (Hcons : forall b l,
             Retrieval.article_map_get (b :: l) aid
             = match Retrieval.article_map_get l aid with
               | Some a => Some a
               | None => if String.eqb (str_of_id (article_id b)) aid
                         then Some b else None
               end).
  { intros b l. unfold Retrieval.article_map_get at 1. cbn [fold_left].
    apply Hfold. }
  assert (Hnone : forall l,
             Retrieval.article_map_get l aid = None
             <-> Forall (fun b => str_of_id (article_id b) <> aid) l).
  { induction l as [| b l IH]; [split; [constructor | reflexivity] |].
    rewrite Hcons. destruct (Retrieval.article_map_get l aid) eqn:Hl.
    - split; [discriminate |]. intros H. inversion H; subst.
      apply IH in H3. discriminate.
    - destruct (String.eqb_spec (str_of_id (article_id b)) aid) as [Heq | Hne].
      + split; [discriminate |]. intros H. inversion H; subst. contradiction.
      + split; [| reflexivity]. intros _. constructor; [exact Hne |].
        apply IH. reflexivity. }
  split; [| split].
  - induction articles as [| b l IH]; intros a.
    + split; [discriminate |]. intros (before & after & H & _).
      destruct before; discriminate.
    + rewrite Hcons. destruct (Retrieval.article_map_get l aid) eqn:Hl.
      * rewrite IH. split.
        -- intros (before & after & Heq & Hid & Hafter).
           exists (b :: before), after. rewrite Heq. repeat split; assumption.
        -- intros (before & after & Heq & Hid & Hafter).
           destruct before as [| b' before]; cbn [app] in Heq;
             injection Heq as Hb Hl2.
           ++ rewrite <- Hl2 in Hafter. apply Hnone in Hafter. congruence.
           ++ exists before, after. repeat split; assumption.
      * apply Hnone in Hl. rewrite Forall_forall in Hl.
        destruct (String.eqb_spec (str_of_id (article_id b)) aid) as [Heq | Hne].
        -- split.
           ++ intros Hsome. injection Hsome as Hb. rewrite <- Hb.
              exists [], l. repeat split; [exact Heq |].
              apply Forall_forall. exact Hl.
           ++ intros (before & after & Hl' & Hid & Hafter).
              destruct before as [| b' before]; cbn [app] in Hl';
                injection Hl' as Hb Hl2.
              ** rewrite Hb. reflexivity.
              ** exfalso. apply (Hl a); [| exact Hid].
                 rewrite Hl2. apply in_or_app. right. left. reflexivity.
        -- split; [discriminate |].
           intros (before & after & Hl' & Hid & Hafter).
           destruct before as [| b' before]; cbn [app] in Hl';
             injection Hl' as Hb Hl2.
           ++ rewrite Hb in Hne. contradiction.
           ++ exfalso. apply (Hl a); [| exact Hid].
              rewrite Hl2. apply in_or_app. right. left. reflexivity.
  - apply Hnone.
  - intros H. apply Hnone in H. unfold Retrieval.expand_article_by_id.
    rewrite H. reflexivity.
Qed.


(** Article 83 of the sample corpus is found, Article 84 is not. *)
Lemma article_lookup_witness :
  Retrieval.expand_article_by_id Sample.articles "84"
  = "[Error: Article 84 not found in structured data]".
Proof.
  apply (proj2 (proj2 (article_lookup Sample.articles "84"))).
  repeat constructor; intros H; vm_compute in H; discriminate H.
Defined.

(** Hits on Articles 6 and 33 and a query that triggers the penalty and
    the rights rules: six articles, in string order. *)
Example context_ids_example :
  context_ids "Can we delete the access logs after a fine?" hits_6_33
  = ["12"; "15"; "17"; "33"; "6"; "83"].
Proof. vm_compute. reflexivity. Qed.

Lemma occurs_before_here {A : Type} (c d : A) (l : list A) :
  In d l -> occurs_before c d (c :: l).
Proof. intros H. exists [], l. split; [reflexivity | exact H]. Qed.

Lemma occurs_before_skip {A : Type} (c d y : A) (l : list A) :
  occurs_before c d l -> occurs_before c d (y :: l).
Proof.
  intros (l1 & l2 & -> & H). exists (y :: l1), l2. split; [reflexivity | exact H].
Qed.

Lemma occurs_before_cons {A : Type} (c d y : A) (l : list A) :
  occurs_before c d (y :: l) -> (y = c /\ In d l) \/ occurs_before c d l.
Proof.
  intros (l1 & l2 & Heq & H). destruct l1 as [| z l1]; cbn [app] in Heq;
    injection Heq as Hy Hl.
  - left. rewrite Hl. split; assumption.
  - right. exists l1, l2. split; assumption.
Qed.

(** Inserting an element keeps the relative order of the others. *)
Lemma insert_by_keeps_order {A : Type} (key : A -> string) (x c d : A) :
  forall l, occurs_before c d l -> occurs_before c d (Retrieval.insert_by key x l).
Proof.
  induction l as [| y t IH]; intros H.
  - destruct H as (l1 & l2 & Heq & _). destruct l1; discriminate.
  - cbn [Retrieval.insert_by]. destruct (PyStr.ltb (key x) (key y)).
    + apply occurs_before_skip. exact H.
    + apply occurs_before_cons in H. destruct H as [[-> Hd] | H].
      * apply occurs_before_here. apply insert_by_in. right. exact Hd.
      * apply occurs_before_skip. apply IH. exact H.
Qed.

(** An element is inserted after those of the same key. *)
Lemma insert_by_after_equal {A : Type} (key : A -> string) (c d : A) :
  key c = key d ->
  forall l,
    StronglySorted (fun a b => PyStr.ltb (key b) (key a) = false) l ->
    In c l -> occurs_before c d (Retrieval.insert_by key d l).
Proof.
  intros Hkey. induction l as [| y t IH]; intros Hs Hc; [contradiction |].
  inversion Hs as [| ? ? Ht Hy]; subst. cbn [Retrieval.insert_by].
  destruct (PyStr.ltb (key d) (key y)) eqn:Hdy.
  - exfalso. destruct Hc as [-> | Hc].
    + rewrite Hkey, ltb_irrefl in Hdy. discriminate.
    + rewrite Forall_forall in Hy. specialize (Hy c Hc). cbn beta in Hy.
      rewrite Hkey in Hy. congruence.
  - destruct Hc as [-> | Hc].
    + apply occurs_before_here. apply insert_by_in. left. reflexivity.
    + apply occurs_before_skip. apply IH; assumption.
Qed.

(** [sorted] is stable. *)
Lemma sorted_by_stable {A : Type} (key : A -> string) (c d : A) (l : list A) :
  occurs_before c d l -> key c = key d ->
  occurs_before c d (Retrieval.sorted_by key l).
Proof.
  intros Hl Hkey. unfold Retrieval.sorted_by.
  assert (H : forall l acc,
             StronglySorted (fun a b => PyStr.ltb (key b) (key a) = false) acc ->
             occurs_before c d acc \/ (In c acc /\ In d l) \/ occurs_before c d l ->
             occurs_before c d
               (fold_left (fun acc x => Retrieval.insert_by key x acc) l acc)).
  { clear l Hl. induction l as [| a l IH]; intros acc Hacc H; cbn [fold_left].
    - destruct H as [H | [[_ []] | (l1 & l2 & Heq & _)]]; [exact H |].
      destruct l1; discriminate.
    - apply IH; [apply insert_by_sorted; exact Hacc |].
      destruct H as [H | [[Hc [-> | Hd]] | H]].
      + left. apply insert_by_keeps_order. exact H.
      + left. apply insert_by_after_equal; assumption.
      + right. left. split; [| exact Hd]. apply insert_by_in. right. exact Hc.
      + apply occurs_before_cons in H. destruct H as [[-> Hd] | H].
        * right. left. split; [| exact Hd]. apply insert_by_in. left. reflexivity.
        * right. right. exact H. }
  apply H; [constructor |]. right. right. exact Hl.
Qed.

(** X16. An article of the corpus expands to its heading line followed by
    one line "[clause_id] text" per clause: every clause once, in ascending
    order of the clause ids as strings, clauses with the same id in the
    order of the corpus; an article without a title gets an empty one. *)
Theorem expansion_lists_clauses (articles : list Article) (aid : string)
    (a : Article) :
  Retrieval.article_map_get articles aid = Some a ->
  exists cs,
    Retrieval.expand_article_by_id articles aid
    = PyStr.join nl
        (("Article " ++ aid ++ ": "
          ++ match title a with Some t => t | None => "" end)
         :: map (fun c => "[" ++ clause_id c ++ "] " ++ clause_text c) cs)
    /\ Permutation cs (clauses a)
    /\ StronglySorted
         (fun c d => PyStr.ltb (clause_id d) (clause_id c) = false) cs
    /\ (forall c d,
          occurs_before c d (clauses a) -> clause_id c = clause_id d ->
          occurs_before c d cs).
Proof.
  intros Hget. exists (Retrieval.sorted_by clause_id (clauses a)).
  split; [| split; [| split]].
  - unfold Retrieval.expand_article_by_id. rewrite Hget.
    destruct (title a); reflexivity.
  - apply sorted_by_perm.
  - apply sorted_by_sorted.
  - intros c d. apply sorted_by_stable.
Qed.

(** Article 83 of the sample corpus: clause 1 is listed before clause 2. *)
Lemma expansion_lists_clauses_witness :
  exists cs,
    Retrieval.expand_article_by_id Sample.articles "83"
    = PyStr.join nl
        ("Article 83: General conditions for imposing administrative fines"
         :: map (fun c => "[" ++ clause_id c ++ "] " ++ clause_text c) cs)
    /\ Permutation cs
         [mkClause "2" "Due regard shall be given to the following.";
          mkClause "1" "Fines shall be effective, proportionate and dissuasive."].
Proof.
  destruct (expansion_lists_clauses Sample.articles "83"
              (mkArticle (IdInt 83)
                 (Some "General conditions for imposing administrative fines")
                 [mkClause "2" "Due regard shall be given to the following.";
                  mkClause "1" "Fines shall be effective, proportionate and dissuasive."])
              eq_refl) as (cs & Hexp & Hperm & _).
  exists cs. split; [exact Hexp | exact Hperm].
Defined.


(** ** The response schema *)

Lemma dict_get_set_same (k : string) (v : pyval) (d : dict) :
  Dict.get k (Dict.set k v d) = Some v.
Proof.
  induction d as [| [k' v'] rest IH]; cbn [Dict.set Dict.get].
  - rewrite String.eqb_refl. reflexivity.
  - destruct (String.eqb k k') eqn:E; cbn [Dict.get]; rewrite E;
      [reflexivity | exact IH].
Qed.

Lemma dict_get_set_other (k k' : string) (v : pyval) (d : dict) :
  String.eqb k k' = false ->
  Dict.get k (Dict.set k' v d) = Dict.get k d.
Proof.
  intros Hne. induction d as [| [k2 v2] rest IH]; cbn [Dict.set Dict.get].
  - rewrite Hne. reflexivity.
  - destruct (String.eqb k' k2) eqn:E; cbn [Dict.get].
    + apply String.eqb_eq in E. subst k2. rewrite Hne. reflexivity.
    + rewrite IH. reflexivity.
Qed.

Lemma risk_level_of_value (rl : RiskLevel) :
  RiskLevel_of_value (RiskLevel_value rl) = Some rl.
Proof. destruct rl; reflexivity. Qed.

(** X17. Reading a dumped response back gives the response itself exactly
    when it satisfies the schema's constraints (confidence in [0, 1], one
    subsection per reasoning entry); whatever the reader accepts satisfies
    them, so that dumping and reading it again changes nothing. *)
Theorem schema_round_trip (r : ComplianceResponse) :
  (Schema.parse (Schema.model_dump r) = Some r <-> Schema.well_formed r)
  /\ (forall d, Schema.parse d = Some r ->
        Schema.well_formed r
        /\ Schema.parse (Schema.model_dump r) = Some r)
  /\ (Schema.well_formed r ->
      forall r', Schema.model_dump r = Schema.model_dump r' -> r = r').
Proof.
  split; [| split].
  - split; [apply parse_well_formed | apply parse_model_dump].
  - intros d H. apply parse_well_formed in H. split; [exact H |].
    apply parse_model_dump. exact H.
  - intros Hwf r' Hdump. apply parse_model_dump in Hwf.
    rewrite Hdump in Hwf.
    destruct r as [su nc mp lb sl ra rl cs rf rm].
    destruct r' as [su' nc' mp' lb' sl' ra' rl' cs' rf' rm'].
    unfold Schema.model_dump in Hdump. cbn in Hdump.
    injection Hdump as Hsu Hnc Hmp Hlb Hsl Hra Hrl Hcs Hrf Hrm.
    assert (Hstrs : forall a b : list string, map VStr a = map VStr b -> a = b).
    { induction a as [| x a IH]; intros [| y b] E; try discriminate E;
        [reflexivity |].
      cbn [map] in E. injection E as Hx Hab. f_equal; [exact Hx | apply IH, Hab]. }
    assert (Hentries : forall a b : list ReasoningMapEntry,
               map (fun e => VDict (Schema.dump_entry e)) a
               = map (fun e => VDict (Schema.dump_entry e)) b -> a = b).
    { induction a as [| x a IH]; intros [| y b] E; try discriminate E;
        [reflexivity |].
      cbn [map] in E. injection E as Hf Hm Hs Hj Hab.
      destruct x, y. cbn in Hf, Hm, Hs, Hj. subst.
      f_equal. apply IH, Hab. }
    f_equal; try assumption.
    + apply Hstrs. exact Hmp.
    + destruct rl, rl'; try reflexivity; discriminate Hrl.
    + destruct rf as [l |], rf' as [l' |]; try discriminate Hrf;
        [| reflexivity].
      unfold Schema.dump_strs in Hrf. injection Hrf as Hrf.
      f_equal. apply Hstrs. exact Hrf.
    + apply Hentries. exact Hrm.
Qed.

(** A reader's case: a response read from a dict is well formed. *)
Lemma schema_round_trip_witness :
  Schema.well_formed Sample.response
  /\ Schema.parse (Schema.model_dump Sample.response) = Some Sample.response.
Proof.
  assert (H : Schema.parse (Schema.model_dump Sample.response)
              = Some Sample.response) by (vm_compute; reflexivity).
  exact (proj1 (proj2 (schema_round_trip Sample.response)) _ H).
Defined.

Lemma parse_other_key (k : string) (v : pyval) (d : dict) :
  String.eqb "summary" k = false -> String.eqb "needs_clarification" k = false ->
  String.eqb "missing_preconditions" k = false ->
  String.eqb "scope_limitation" k = false -> String.eqb "risk_analysis" k = false ->
  String.eqb "confidence_score" k = false -> String.eqb "references" k = false ->
  String.eqb "reasoning_map" k = false ->
  Schema.get_str "summary" (Dict.set k v d) = Schema.get_str "summary" d
  /\ Schema.parse_needs_clarification (Dict.set k v d)
     = Schema.parse_needs_clarification d
  /\ Schema.parse_missing_preconditions (Dict.set k v d)
     = Schema.parse_missing_preconditions d
  /\ Schema.get_str "scope_limitation" (Dict.set k v d)
     = Schema.get_str "scope_limitation" d
  /\ Schema.get_str "risk_analysis" (Dict.set k v d)
     = Schema.get_str "risk_analysis" d
  /\ Schema.parse_confidence (Dict.set k v d) = Schema.parse_confidence d
  /\ Schema.parse_references (Dict.set k v d) = Schema.parse_references d
  /\ Schema.parse_reasoning_map (Dict.set k v d) = Schema.parse_reasoning_map d.
Proof.
  intros H1 H2 H3 H4 H5 H6 H7 H8.
  unfold Schema.get_str, Schema.parse_needs_clarification,
    Schema.parse_missing_preconditions, Schema.parse_confidence,
    Schema.parse_references, Schema.parse_reasoning_map.
  rewrite !dict_get_set_other by assumption. repeat split; reflexivity.
Qed.

Lemma parse_legal_basis_other (k : string) (v : pyval) (d : dict) :
  String.eqb "legal_basis" k = false ->
  Schema.parse_legal_basis (Dict.set k v d) = Schema.parse_legal_basis d.
Proof.
  intros H. unfold Schema.parse_legal_basis.
  rewrite dict_get_set_other by assumption. reflexivity.
Qed.

Lemma parse_risk_level_other (k : string) (v : pyval) (d : dict) :
  String.eqb "risk_level" k = false ->
  Schema.parse_risk_level (Dict.set k v d) = Schema.parse_risk_level d.
Proof.
  intros H. unfold Schema.parse_risk_level.
  rewrite dict_get_set_other by assumption. reflexivity.
Qed.

(** X18. The two normalisations of the schema.  In a dict that reads as a
    response, the risk level may be replaced by any spelling whose
    lower-case form is a level, and the legal basis by a list of strings:
    the dict still reads, the level is that level and the legal basis is
    the list joined by ", ".  A spelling that is no level in lower case,
    or a confidence outside [0, 1], makes the dict unreadable. *)
Theorem schema_normalisations (d : dict) (r : ComplianceResponse) :
  Schema.parse d = Some r ->
  (forall s rl,
     PyStr.lower s = RiskLevel_value rl ->
     Schema.parse (Dict.set "risk_level" (VStr s) d) = Some (set_risk_level rl r))
  /\ (forall parts,
        Schema.parse (Dict.set "legal_basis" (VList (map VStr parts)) d)
        = Some (set_legal_basis (PyStr.join ", " parts) r))
  /\ (forall s,
        RiskLevel_of_value (PyStr.lower s) = None ->
        Schema.parse (Dict.set "risk_level" (VStr s) d) = None)
  /\ (forall q,
        Schema.in_unit_interval q = false ->
        Schema.parse (Dict.set "confidence_score" (VFloat q) d) = None).
Proof.
  intros Hparse. unfold Schema.parse in Hparse.
  destruct (Schema.get_str "summary" d) as [su |] eqn:Hsu; [| discriminate Hparse].
  destruct (Schema.parse_needs_clarification d) as [nc |] eqn:Hnc;
    [| discriminate Hparse].
  destruct (Schema.parse_missing_preconditions d) as [mp |] eqn:Hmp;
    [| discriminate Hparse].
  destruct (Schema.parse_legal_basis d) as [lb |] eqn:Hlb; [| discriminate Hparse].
  destruct (Schema.get_str "scope_limitation" d) as [sl |] eqn:Hsl;
    [| discriminate Hparse].
  destruct (Schema.get_str "risk_analysis" d) as [ra |] eqn:Hra;
    [| discriminate Hparse].
  destruct (Schema.parse_risk_level d) as [rl0 |] eqn:Hrl; [| discriminate Hparse].
  destruct (Schema.parse_confidence d) as [cs |] eqn:Hcs; [| discriminate Hparse].
  destruct (Schema.parse_references d) as [rf |] eqn:Hrf; [| discriminate Hparse].
  destruct (Schema.parse_reasoning_map d) as [rm |] eqn:Hrm; [| discriminate Hparse].
  injection Hparse as <-.
  split; [| split; [| split]].
  - intros s rl Hs.
    destruct (parse_other_key "risk_level" (VStr s) d)
      as (E1 & E2 & E3 & E4 & E5 & E6 & E7 & E8); try reflexivity.
    unfold Schema.parse. rewrite E1, E2, E3, E4, E5, E6, E7, E8.
    rewrite Hsu, Hnc, Hmp, Hsl, Hra, Hcs, Hrf, Hrm.
    rewrite parse_legal_basis_other, Hlb by reflexivity.
    unfold Schema.parse_risk_level.
    rewrite dict_get_set_same, Hs, risk_level_of_value. reflexivity.
  - intros parts.
    destruct (parse_other_key "legal_basis" (VList (map VStr parts)) d)
      as (E1 & E2 & E3 & E4 & E5 & E6 & E7 & E8); try reflexivity.
    unfold Schema.parse. rewrite E1, E2, E3, E4, E5, E6, E7, E8.
    rewrite Hsu, Hnc, Hmp, Hsl, Hra, Hcs, Hrf, Hrm.
    rewrite parse_risk_level_other, Hrl by reflexivity.
    unfold Schema.parse_legal_basis.
    rewrite dict_get_set_same, read_strs_dump. reflexivity.
  - intros s Hs.
    destruct (parse_other_key "risk_level" (VStr s) d)
      as (E1 & E2 & E3 & E4 & E5 & E6 & E7 & E8); try reflexivity.
    unfold Schema.parse. rewrite E1, E2, E3, E4, E5, E6, E7, E8.
    rewrite Hsu, Hnc, Hmp, Hsl, Hra, Hcs, Hrf, Hrm.
    rewrite parse_legal_basis_other, Hlb by reflexivity.
    unfold Schema.parse_risk_level.
    rewrite dict_get_set_same, Hs. reflexivity.
  - intros q Hq. unfold Schema.parse.
    assert (E : Schema.parse_confidence (Dict.set "confidence_score" (VFloat q) d)
                = None).
    { unfold Schema.parse_confidence. rewrite dict_get_set_same, Hq. reflexivity. }
    rewrite E.
    unfold Schema.get_str, Schema.parse_needs_clarification,
      Schema.parse_missing_preconditions, Schema.parse_references,
      Schema.parse_reasoning_map in *.
    rewrite !dict_get_set_other by reflexivity.
    rewrite Hsu, Hnc, Hmp, Hsl, Hra.
    rewrite parse_legal_basis_other, Hlb by reflexivity.
    rewrite parse_risk_level_other, Hrl by reflexivity.
    reflexivity.
Qed.

(** The sample response with its level in capitals and its basis as a
    list of two items. *)
Lemma schema_normalisations_witness :
  Schema.parse
    (Dict.set "risk_level" (VStr "HIGH") (Schema.model_dump Sample.response))
  = Some (set_risk_level HIGH Sample.response)
  /\ Schema.parse
       (Dict.set "legal_basis" (VList [VStr "Article 33"; VStr "Article 34"])
          (Schema.model_dump Sample.response))
     = Some (set_legal_basis "Article 33, Article 34" Sample.response).
Proof.
  assert (H : Schema.parse (Schema.model_dump Sample.response)
              = Some Sample.response) by (vm_compute; reflexivity).
  split.
  - exact (proj1 (schema_normalisations _ _ H) "HIGH" HIGH eq_refl).
  - exact (proj1 (proj2 (schema_normalisations _ _ H)) ["Article 33"; "Article 34"]).
Defined.


(** ** Small talk *)




(** ** The streaming entry point *)

Section Streamed.

Variable W : Collaborators.
Variable recursion_error : string.

Lemma deltas_agree_step (last_state u : Update) (s : AgentState) :
  deltas_agree last_state s -> deltas_agree (dict_update last_state u) (merge s u).
Proof.
  unfold deltas_agree. intros [Hretry Hfinal].
  cbn [dict_update merge u_retry_count u_final_response retry_count final_response].
  split.
  - destruct (u_retry_count u); cbn [newer or_else]; [reflexivity | exact Hretry].
  - destruct (u_final_response u); cbn [newer]; [reflexivity | exact Hfinal].
Qed.

Lemma terminal_shape_nonempty (d : dict) : terminal_shape d -> d <> [].
Proof.
  intros [(t & Ht & _) | (_ & r & Hr)] ->; [discriminate Ht | discriminate Hr].
Qed.

Lemma astream_run (s0 : AgentState) (limit : nat) :
  initial s0 ->
  forall c last_state,
    reachable W s0 c -> deltas_agree last_state (cfg_state c) ->
    match run W limit c with
    | Finished c' =>
        exists d,
          final_response (cfg_state c') = Some d
          /\ astream W recursion_error limit c last_state
             = (map node_item (trace W limit c) ++ [ItemResult d])%list
    | Crashed e =>
        astream W recursion_error limit c last_state
        = (map node_item (trace W limit c) ++ [ItemError e])%list
    | StepLimit _ =>
        astream W recursion_error limit c last_state
        = (map node_item (trace W limit c) ++ [ItemError recursion_error])%list
    end.
Proof.
  intros Hinit. induction limit as [| limit IH]; intros c last_state Hreach Hagree.
  - cbn [run astream trace]. destruct (cfg_next c) eqn:Hn; [reflexivity |].
    destruct (result_invariant_reachable W s0 c Hinit Hreach) as (Hshape & _ & Hend).
    specialize (Hend Hn). destruct Hagree as [_ Hfinal].
    destruct (final_response (cfg_state c)) as [d |] eqn:Hd; [| congruence].
    exists d. split; [reflexivity |]. unfold result_item. rewrite Hfinal.
    pose proof (terminal_shape_nonempty d (Hshape d eq_refl)) as Hne.
    destruct d; [congruence | reflexivity].
  - cbn [run astream trace]. destruct (cfg_next c) as [n |] eqn:Hn.
    + pose proof (reach_step W s0 c) as Hnext.
      unfold step in *. rewrite Hn in *.
      destruct (run_node W n (cfg_state c) (cfg_log c)) as [[u | e] log'];
        [| reflexivity].
      cbv zeta in *.
      destruct (next_target n (merge (cfg_state c) u)) as [t |]; [| reflexivity].
      specialize (Hnext _ Hreach eq_refl).
      specialize (IH _ (dict_update last_state u) Hnext
                    (deltas_agree_step last_state u (cfg_state c) Hagree)).
      destruct (deltas_agree_step last_state u (cfg_state c) Hagree) as [Hretry _].
      rewrite Hretry.
      destruct (run W limit _) as [c' | e | c'].
      * destruct IH as (d & Hd & IH). exists d. split; [exact Hd |].
        rewrite IH. reflexivity.
      * rewrite IH. reflexivity.
      * rewrite IH. reflexivity.
    + destruct (result_invariant_reachable W s0 c Hinit Hreach) as (Hshape & _ & Hend).
      specialize (Hend Hn). destruct Hagree as [_ Hfinal].
      destruct (final_response (cfg_state c)) as [d |] eqn:Hd; [| congruence].
      exists d. split; [reflexivity |]. unfold result_item. rewrite Hfinal.
      pose proof (terminal_shape_nonempty d (Hshape d eq_refl)) as Hne.
      destruct d; [congruence | reflexivity].
Qed.

Lemma trace_visited (limit : nat) :
  forall c c',
    run W limit c = Finished c' ->
    cfg_visited c' = (cfg_visited c ++ map fst (trace W limit c))%list.
Proof.
  induction limit as [| limit IH]; intros c c' Hrun; cbn [run trace] in *.
  - destruct (cfg_next c); [discriminate Hrun |].
    injection Hrun as <-. rewrite app_nil_r. reflexivity.
  - destruct (cfg_next c) as [n |] eqn:Hn.
    + destruct (step W c) as [c1 | e] eqn:Hstep; [| discriminate Hrun].
      rewrite (IH c1 c' Hrun). cbn [map fst].
      unfold step in Hstep. rewrite Hn in Hstep.
      destruct (run_node W n (cfg_state c) (cfg_log c)) as [[u | e] log'];
        [| discriminate Hstep].
      cbv zeta in Hstep.
      destruct (next_target n (merge (cfg_state c) u)); [| discriminate Hstep].
      injection Hstep as <-. cbn [cfg_visited].
      rewrite <- app_assoc. reflexivity.
    + injection Hrun as <-. rewrite app_nil_r. reflexivity.
Qed.

End Streamed.

(** X20. The streaming entry point follows the run of the synchronous
    one.  It yields one node event per superstep, naming the stage and the
    retry count the state has reached, then one closing event and
    "[DONE]".  When the turn finishes, the node events name the stages run,
    in order, and the closing event is a result event that carries the
    final_response of the final state, which is never replaced by the
    "No response generated." default; when a stage raises or the step limit is hit, it is an error
    event with the text of the exception. *)
Theorem stream_follows_run (W : Collaborators) (recursion_error : string)
    (limit : nat) (history : list Message) (user_query domain thread_id : string)
    (user_selections : option (list string)) :
  let c0 :=
    initial_config
      (initial_state history user_query domain thread_id user_selections) in
  let events := map node_item (trace W limit c0) in
  let streamed :=
    stream_graph W recursion_error limit history user_query domain thread_id
      user_selections in
  match run_graph W limit history user_query domain thread_id user_selections with
  | Finished c =>
      exists d,
        final_response (cfg_state c) = Some d
        /\ map fst (trace W limit c0) = cfg_visited c
        /\ streamed
           = map (render W) (events ++ [ItemResult d; ItemDone])
  | Crashed e =>
      streamed = map (render W) (events ++ [ItemError e; ItemDone])
  | StepLimit _ =>
      streamed = map (render W) (events ++ [ItemError recursion_error; ItemDone])
  end.
Proof.
  intros c0 events streamed.
  assert (Hinit : initial
                    (initial_state history user_query domain thread_id
                       user_selections)).
  { exists history, user_query, domain, thread_id, user_selections. reflexivity. }
  pose proof (astream_run W recursion_error _ limit Hinit c0 no_update
                (reach_init W _)) as H.
  assert (Hagree : deltas_agree no_update (cfg_state c0)) by (split; reflexivity).
  specialize (H Hagree).
  unfold streamed, stream_graph, run_graph. fold c0.
  destruct (run W limit c0) as [c | e | c] eqn:Hrun.
  - destruct H as (d & Hd & H). exists d. split; [exact Hd |].
    split.
    + rewrite (trace_visited W limit c0 c Hrun). reflexivity.
    + rewrite H. unfold events. rewrite <- app_assoc. reflexivity.
  - rewrite H. unfold events. rewrite <- app_assoc. reflexivity.
  - rewrite H. unfold events. rewrite <- app_assoc. reflexivity.
Qed.

(** The turn of three rejected candidates, as streamed: the retry count
    rises with each validator event, and the result is the fallback error. *)
Example stream_of_rejected_turn :
  map (fun i => match i with ItemNode n rc => Some (n, rc) | _ => None end)
    (astream Sample.W_rejecting "recursion limit" 25
       (initial_config Sample.s_rejected) no_update)
  = [Some (guardrail, 0); Some (retrieve, 0); Some (clarify, 0);
     Some (llm, 0); Some (validator, 1); Some (llm, 1); Some (validator, 2);
     Some (llm, 2); Some (validator, 3); Some (fallback, 3); None].
Proof. vm_compute. reflexivity. Qed.


(** ** The conversation history *)

Section History.

Variable W : Collaborators.

Lemma llm_messages_length (s : AgentState) :
  (List.length (llm_messages W s) <= 4)%nat
  /\ (retry_count s <= 0 -> List.length (llm_messages W s) = 2%nat).
Proof.
  unfold llm_messages. cbv zeta.
  destruct (Z.ltb_spec 0 (retry_count s)) as [Hpos | Hzero]; cbn [andb].
  - destruct (negb (Nat.eqb (List.length (validation_errors s)) 0)).
    + split; [| lia].
      destruct (analysis s) as [[| kv rest] |]; rewrite ?length_app; cbn; lia.
    + split; [cbn; lia | reflexivity].
  - split; [cbn; lia | reflexivity].
Qed.

(** Only the generation stage adds messages, and what it adds is its
    prompt. *)
Lemma messages_step_shape (c c' : Config) :
  cfg_next c <> To tool_executor -> step W c = Ok c' ->
  messages (cfg_state c') = messages (cfg_state c)
  \/ (cfg_next c = To llm
      /\ messages (cfg_state c')
         = (messages (cfg_state c) ++ llm_messages W (cfg_state c))%list).
Proof.
  intros Htool Hstep.
  destruct (step_run W c c' Hstep) as (n & u & Hn & Hrun & Hs & _).
  rewrite Hs. destruct n; try congruence.
  all: try (left;
            pose proof (run_node_shape W _ _ _ _ _ Hrun) as Hshape;
            inversion Hshape; subst; reflexivity).
  cbn [run_node] in Hrun. unfold node_llm in Hrun. inv_m.
  - match goal with
    | x : Structured |- _ => destruct x as [r | t]; inv_m
    end.
    + right. split; [exact Hn | reflexivity].
    + left. reflexivity.
  - left. reflexivity.
Qed.

Lemma messages_step (history : list Message) (c c' : Config) :
  retry_invariant c -> tools_invariant c -> step W c = Ok c' ->
  messages_invariant history c -> messages_invariant history c'.
Proof.
  intros Hretry Htools Hstep (new_messages & Hmsg & Hlen & Hten & Hnone).
  destruct Htools as (_ & Hnot & _).
  assert (Hvisited : exists n, cfg_next c = To n
                               /\ cfg_visited c' = (cfg_visited c ++ [n])%list).
  { destruct (step_ok W c c' Hstep) as (n & u & Hn & _ & _ & _ & Hv).
    exists n. split; assumption. }
  destruct Hvisited as (n0 & Hn0 & Hv0).
  pose proof (messages_step_shape c c' Hnot Hstep) as Hshape.
  destruct (llm_messages_length (cfg_state c)) as [Hfour Htwo].
  destruct (retry_step W c c' Hretry Hstep) as (_ & _ & _ & Hsame).
  destruct Hretry as [Hbound Htruthy].
  unfold messages_invariant.
  destruct Hshape as [Hkeep | [Hllm Hadd]].
  - exists new_messages. rewrite Hkeep. split; [exact Hmsg |].
    split; [| split; [exact Hten |]].
    2: { intros Hno. apply Hnone. intros Hin. apply Hno. rewrite Hv0.
         apply in_or_app. left. exact Hin. }
    clear Hkeep Hsame Hnone Hv0 Hn0. revert Hlen Hbound Htruthy.
    step_cases W c c' Hstep;
      cbn [cfg_next cfg_state retry_bound new_messages_bound];
      cbn [retry_count merge or_else u_retry_count with_route with_final_response
           with_retrieved_context with_clarification_options with_messages
           with_validation_errors with_analysis with_retry_count with_tool_calls
           no_update llm_error];
      intros Hlen Hbound Htruthy;
      try match goal with
      | H : truthy_dict _ = false |- _ =>
          exfalso; rewrite (Htruthy eq_refl) in H; discriminate H
      end;
      try lia.
  - exists (new_messages ++ llm_messages W (cfg_state c))%list.
    rewrite Hadd, Hmsg, app_assoc. split; [reflexivity |].
    rewrite length_app, Nat2Z.inj_add.
    assert (Hrc : retry_count (cfg_state c') = retry_count (cfg_state c)).
    { apply Hsame. rewrite Hllm. discriminate. }
    rewrite Hllm in Hlen, Hbound. cbn [new_messages_bound retry_bound] in Hlen, Hbound.
    assert (Hsum : Z.of_nat (List.length new_messages)
                   + Z.of_nat (List.length (llm_messages W (cfg_state c)))
                   <= 4 * retry_count (cfg_state c) + 2).
    { destruct (Z.eq_dec (retry_count (cfg_state c)) 0) as [Hz | Hnz].
      - rewrite Htwo by lia. lia.
      - lia. }
    split; [| split; [lia |]].
    2: { intros Hno. exfalso. apply Hno. rewrite Hv0.
         apply in_or_app. right. rewrite Hllm in Hn0. injection Hn0 as <-.
         left. reflexivity. }
    rewrite Hrc. clear Hadd Hsame Hrc Htwo Hfour Hmsg Hten Hlen Hnone Hv0 Hn0.
    revert Hsum. generalize (Z.of_nat (List.length new_messages)
                             + Z.of_nat (List.length (llm_messages W (cfg_state c)))).
    intros total Hsum.
    destruct (step_ok W c c' Hstep) as (n & u & Hn & _ & _ & Ht & _).
    rewrite Hllm in Hn. injection Hn as <-.
    apply next_target_cases in Ht. cbn [edge_cases] in Ht.
    destruct Ht as [[_ ->] | [[_ [_ ->]] | [_ [_ ->]]]];
      cbn [new_messages_bound]; lia.
Qed.

Lemma messages_invariant_reachable (history : list Message)
    (user_query domain thread_id : string)
    (user_selections : option (list string)) (c : Config) :
  reachable W
    (initial_state history user_query domain thread_id user_selections) c ->
  messages_invariant history c.
Proof.
  intros Hreach.
  assert (Hinit : initial
                    (initial_state history user_query domain thread_id
                       user_selections)).
  { exists history, user_query, domain, thread_id, user_selections. reflexivity. }
  induction Hreach as [| c c' Hreach IH Hstep].
  - exists []. cbn. rewrite app_nil_r. repeat split; lia.
  - apply (messages_step history c c'
             (retry_invariant_reachable W _ c Hinit Hreach)
             (tools_invariant_reachable W _ c Hinit Hreach) Hstep IH).
Qed.

End History.

(** X21. A turn never rewrites the conversation history it starts from:
    at every point the messages are the history followed by what the turn
    added, and the turn adds at most ten messages (the two prompts of the
    first generation and at most four per retry); before the first
    generation it has added none. *)
Theorem history_append_only (W : Collaborators) (history : list Message)
    (user_query domain thread_id : string)
    (user_selections : option (list string)) (c : Config) :
  reachable W
    (initial_state history user_query domain thread_id user_selections) c ->
  exists new_messages,
    messages (cfg_state c) = (history ++ new_messages)%list
    /\ (List.length new_messages <= 10)%nat
    /\ (~ In llm (cfg_visited c) -> new_messages = []).
Proof.
  intros Hreach.
  destruct (messages_invariant_reachable W history user_query domain thread_id
              user_selections c Hreach)
    as (new_messages & Hmsg & Hlen & Hten & Hnone).
  exists new_messages. split; [exact Hmsg |]. split; [lia | exact Hnone].
Qed.

(** Three rejected candidates after a history of one message: the turn
    keeps the message and adds ten. *)
Lemma history_append_only_witness :
  exists new_messages,
    messages
      (cfg_state
         (Sample.after Sample.W_rejecting
            (initial_state [msg "user" "earlier"] "we lost customer records"
               "GDPR" "thread-1" None) 10))
    = ([msg "user" "earlier"] ++ new_messages)%list
    /\ (List.length new_messages <= 10)%nat.
Proof.
  assert (Hreach : reachable Sample.W_rejecting
                     (initial_state [msg "user" "earlier"]
                        "we lost customer records" "GDPR" "thread-1" None)
                     (Sample.after Sample.W_rejecting
                        (initial_state [msg "user" "earlier"]
                           "we lost customer records" "GDPR" "thread-1" None) 10)).
  { apply (steps_reachable Sample.W_rejecting
             (initial_state [msg "user" "earlier"] "we lost customer records"
                "GDPR" "thread-1" None)
             10
             (initial_config
                (initial_state [msg "user" "earlier"] "we lost customer records"
                   "GDPR" "thread-1" None))).
    - apply reach_init.
    - vm_compute. reflexivity. }
  destruct (history_append_only Sample.W_rejecting _ _ _ _ _ _ Hreach)
    as (new_messages & Hmsg & Hlen & _).
  exists new_messages. split; assumption.
Defined.

(** The bound is reached. *)
Example ten_new_messages :
  List.length
    (messages
       (cfg_state
          (Sample.after Sample.W_rejecting
             (initial_state [msg "user" "earlier"] "we lost customer records"
                "GDPR" "thread-1" None) 10)))
  = 11%nat.
Proof. vm_compute. reflexivity. Qed.


(** ** Asking back *)



(** Six options are offered, the last two being the fixed ones. *)
Example six_options :
  map (fun o => Dict.get "id" o) (clarification_options_of asking)
  = [Some (VStr "opt_1"); Some (VStr "opt_2"); Some (VStr "opt_3");
     Some (VStr "opt_4"); Some (VStr "opt_custom"); Some (VStr "opt_unknown")].
Proof. vm_compute. reflexivity. Qed.


(** ** The follow-up after a clarification *)

Lemma lstrip_empty (s : string) : lstrip s = "" <-> blank s = true.
Proof.
  induction s as [| c t IH]; cbn [lstrip blank]; [tauto |].
  destruct (PyStr.is_space c); cbn [andb]; [exact IH |].
  split; discriminate.
Qed.

Lemma lstrip_head (s : string) (c : ascii) (t : string) :
  lstrip s = String c t -> PyStr.is_space c = false.
Proof.
  induction s as [| x s IH]; cbn [lstrip]; [discriminate |].
  destruct (PyStr.is_space x) eqn:E; [exact IH |].
  intros H. injection H as <- _. exact E.
Qed.

Lemma strip_empty (s : string) : strip s = "" <-> blank s = true.
Proof.
  rewrite <- lstrip_empty. unfold strip.
  destruct (lstrip s) as [| c t] eqn:E; [tauto |].
  pose proof (lstrip_head s c t E) as Hc. cbn [rstrip]. rewrite Hc.
  destruct (rstrip t); split; discriminate.
Qed.

(** X23. For a free text of ASCII characters, the follow-up endpoint
    hands the clarify stage the selected options followed, when the text is
    not blank, by "Additional context: " and the stripped text.  If that list is not empty, clarify
    calls no model: the context it writes lists every selected option, and
    the stripped text, as a line "- ...", and the turn goes on to the
    generation.  If no option is selected and the text is blank, the list
    is empty and clarify behaves as in a turn without selections: it may
    ask the same questions again. *)
Theorem followup_turn (W : Collaborators) (s : AgentState) (log : Log)
    (selected_options : list string) (custom_text : string) :
  is_ascii custom_text = true ->
  user_selections s = Some (followup_selections selected_options custom_text) ->
  (followup_selections selected_options custom_text = []
   <-> selected_options = [] /\ blank custom_text = true)
  /\ (followup_selections selected_options custom_text <> [] ->
      exists context,
        node_clarify W s log
        = (Ok (with_route "clear" (with_retrieved_context context no_update)), log)
        /\ (forall o, In o selected_options -> occurs_in ("- " ++ o) context)
        /\ (blank custom_text = false ->
            occurs_in ("- Additional context: " ++ strip custom_text) context)
        /\ next_target clarify
             (merge s (with_route "clear" (with_retrieved_context context no_update)))
           = Some (To llm))
  /\ (followup_selections selected_options custom_text = [] ->
      node_clarify W s log = node_clarify W (with_user_selections None s) log).
Proof.
  intros _ Hsel.
  assert (Hblank : blank custom_text = true <-> strip custom_text = "")
    by (symmetry; apply strip_empty).
  split; [| split].
  - unfold followup_selections.
    destruct (strip custom_text) as [| c t] eqn:Hstrip.
    + split; [intros H; split; [exact H | apply Hblank; reflexivity] | tauto].
    + split.
      * intros H. destruct selected_options; discriminate H.
      * intros [_ H]. apply Hblank in H. discriminate H.
  - intros Hne.
    exists (enrich (retrieved_context s)
              (followup_selections selected_options custom_text)).
    split; [| split; [| split]].
    + unfold node_clarify. rewrite Hsel.
      destruct (followup_selections selected_options custom_text);
        [congruence | reflexivity].
    + intros o Ho. unfold enrich.
      apply (occurs_in_trans _
               (PyStr.join nl
                  (map (fun sel => "- " ++ sel)
                     (followup_selections selected_options custom_text)))).
      * apply join_occurs. apply in_map_iff. exists o. split; [reflexivity |].
        unfold followup_selections. destruct (strip custom_text); [exact Ho |].
        apply in_or_app. left. exact Ho.
      * exists (retrieved_context s ++ nl ++ nl ++ "[USER CLARIFICATION]" ++ nl), "".
        rewrite append_empty_r. reflexivity.
    + intros Hfalse. unfold enrich.
      apply (occurs_in_trans _
               (PyStr.join nl
                  (map (fun sel => "- " ++ sel)
                     (followup_selections selected_options custom_text)))).
      * apply join_occurs. apply in_map_iff.
        exists ("Additional context: " ++ strip custom_text).
        split; [reflexivity |].
        unfold followup_selections.
        destruct (strip custom_text) as [| c t] eqn:Hstrip.
        -- exfalso. assert (H : blank custom_text = true) by (apply Hblank; reflexivity).
           congruence.
        -- apply in_or_app. right. left. reflexivity.
      * exists (retrieved_context s ++ nl ++ nl ++ "[USER CLARIFICATION]" ++ nl), "".
        rewrite append_empty_r. reflexivity.
    + reflexivity.
  - intros Hempty. unfold node_clarify. rewrite Hsel, Hempty. reflexivity.
Qed.

(** One option and a text with blanks around it. *)
Lemma followup_turn_witness :
  exists context,
    node_clarify Sample.W
      (Sample.state "we lost customer records"
         (Some (followup_selections ["The data was encrypted"] "  about 500 records ")))
      []
    = (Ok (with_route "clear" (with_retrieved_context context no_update)), [])
    /\ occurs_in "- The data was encrypted" context
    /\ occurs_in "- Additional context: about 500 records" context.
Proof.
  destruct (followup_turn Sample.W
              (Sample.state "we lost customer records"
                 (Some (followup_selections ["The data was encrypted"]
                          "  about 500 records ")))
              [] ["The data was encrypted"] "  about 500 records " eq_refl eq_refl)
    as (_ & H & _).
  destruct H as (context & Hrun & Hopts & Htext & _).
  { vm_compute. discriminate. }
  exists context. split; [exact Hrun |]. split.
  - apply (Hopts "The data was encrypted"). left. reflexivity.
  - apply (Htext eq_refl).
Defined.


(** ** The regulation search tool *)

Lemma insert_desc_perm (x : nat * string) (l : list (nat * string)) :
  Permutation (Tools.insert_desc x l) (x :: l).
Proof.
  induction l as [| y t IH]; cbn [Tools.insert_desc].
  - apply Permutation_refl.
  - destruct (Nat.ltb (fst y) (fst x)).
    + apply Permutation_refl.
    + apply (perm_trans (perm_skip y IH)). apply perm_swap.
Qed.

Lemma sort_desc_perm (l : list (nat * string)) :
  Permutation (Tools.sort_desc l) l.
Proof.
  unfold Tools.sort_desc.
  assert (H : forall acc,
             Permutation (fold_left (fun acc x => Tools.insert_desc x acc) l acc)
                         (acc ++ l)).
  { induction l as [| a l IH]; intros acc; cbn [fold_left].
    - rewrite app_nil_r. apply Permutation_refl.
    - apply (perm_trans (IH _)).
      apply (perm_trans (Permutation_app_tail l (insert_desc_perm a acc))).
      cbn [app]. apply Permutation_middle. }
  apply (H []).
Qed.

Lemma insert_desc_sorted (x : nat * string) (l : list (nat * string)) :
  StronglySorted (fun a b => (fst b <= fst a)%nat) l ->
  StronglySorted (fun a b => (fst b <= fst a)%nat) (Tools.insert_desc x l).
Proof.
  induction l as [| y t IH]; intros Hs; cbn [Tools.insert_desc].
  - constructor; constructor.
  - inversion Hs as [| ? ? Ht Hy]; subst.
    destruct (Nat.ltb_spec (fst y) (fst x)) as [Hlt | Hge].
    + constructor; [exact Hs |]. constructor; [lia |].
      eapply Forall_impl; [| exact Hy]. cbn beta. intros z Hz. lia.
    + constructor; [apply IH; exact Ht |].
      apply Forall_forall. intros z Hz.
      apply (Permutation_in _ (insert_desc_perm x t)) in Hz.
      destruct Hz as [<- | Hz]; [exact Hge |].
      rewrite Forall_forall in Hy. apply Hy. exact Hz.
Qed.

Lemma sort_desc_sorted (l : list (nat * string)) :
  StronglySorted (fun a b => (fst b <= fst a)%nat) (Tools.sort_desc l).
Proof.
  unfold Tools.sort_desc.
  assert (H : forall acc,
             StronglySorted (fun a b => (fst b <= fst a)%nat) acc ->
             StronglySorted (fun a b => (fst b <= fst a)%nat)
               (fold_left (fun acc x => Tools.insert_desc x acc) l acc)).
  { induction l as [| a l IH]; intros acc Hacc; cbn [fold_left];
      [exact Hacc | apply IH, insert_desc_sorted, Hacc]. }
  apply H. constructor.
Qed.

Lemma scored_articles_in (terms : list string) (articles : list Article)
    (p : nat * string) :
  In p (Tools.scored_articles terms articles)
  <-> exists art,
        In art articles /\ (0 < Tools.score terms art)%nat
        /\ p = (Tools.score terms art, Tools.article_text art).
Proof.
  unfold Tools.scored_articles. rewrite in_flat_map. split.
  - intros (art & Hin & Hp). exists art. split; [exact Hin |].
    cbv zeta in Hp.
    destruct (Nat.ltb_spec 0 (Tools.score terms art)) as [Hpos | Hzero];
      [| contradiction Hp].
    destruct Hp as [<- | []]. split; [exact Hpos | reflexivity].
  - intros (art & Hin & Hpos & ->). exists art. split; [exact Hin |].
    cbv zeta. apply Nat.ltb_lt in Hpos. rewrite Hpos. left. reflexivity.
Qed.

Lemma firstn_sorted_top {A : Type} (R : A -> A -> Prop) (n : nat) (l : list A) :
  StronglySorted R l ->
  forall x y, In x (firstn n l) -> In y (skipn n l) -> R x y.
Proof.
  revert l. induction n as [| n IH]; intros l Hs x y Hx Hy; [contradiction Hx |].
  destruct l as [| a l]; [contradiction Hx |].
  inversion Hs as [| ? ? Hl Ha]; subst. cbn [firstn skipn] in Hx, Hy.
  destruct Hx as [<- | Hx].
  - rewrite Forall_forall in Ha. apply Ha.
    rewrite <- (firstn_skipn n l). apply in_or_app. right. exact Hy.
  - apply (IH l Hl x y Hx Hy).
Qed.

(** X24. The regulation search tool, on a non-empty corpus and a query of
    ASCII text.  It scores each article by the number of query terms (the
    words of more than two characters, lower-cased) found in its
    lower-cased title and clauses.  When no article scores, in particular
    when no word of the query has more than two characters, it answers
    "No articles found matching ...".  Otherwise it lists, under the
    header, at most three articles: all of them matched, none scores less
    than an article left out, and they are listed by descending score. *)
Theorem search_regulations_top (data_path query jurisdiction : string)
    (a : Article) (rest : list Article) :
  let articles := a :: rest in
  let terms := Tools.query_terms query in
  let scored := Tools.scored_articles terms articles in
  is_ascii query = true ->
  forallb ascii_article articles = true ->
  (scored = [] ->
   Tools.search_regulations data_path (Some articles) query jurisdiction
   = "No articles found matching '" ++ query ++ "' in " ++ jurisdiction
     ++ " regulations.")
  /\ (Forall (fun w => (py_len w <= 2)%nat) (PyStr.split query) ->
      scored = [])
  /\ (scored <> [] ->
      exists top left_out,
        Tools.search_regulations data_path (Some articles) query jurisdiction
        = "--- " ++ jurisdiction ++ " Regulation Search Results ---" ++ nl ++ nl
          ++ PyStr.join (nl ++ nl) (map snd top)
        /\ Permutation (top ++ left_out) scored
        /\ (1 <= List.length top <= 3)%nat
        /\ (List.length top < 3 -> left_out = [])%nat
        /\ StronglySorted (fun p q => (fst q <= fst p)%nat) top
        /\ (forall p q, In p top -> In q left_out -> (fst q <= fst p)%nat)
        /\ (forall p, In p top ->
              exists art,
                In art articles /\ (0 < Tools.score terms art)%nat
                /\ p = (Tools.score terms art, Tools.article_text art))).
Proof.
  intros articles terms scored _ _.
  assert (Hdef : Tools.scored_articles (Tools.query_terms query) (a :: rest)
                 = scored) by reflexivity.
  clearbody scored. subst articles terms.
  split; [| split].
  - intros Hnone. unfold Tools.search_regulations. rewrite Hdef, Hnone.
    reflexivity.
  - intros Hshort.
    assert (Hterms : Tools.query_terms query = []).
    { unfold Tools.query_terms.
      induction (PyStr.split query) as [| w ws IH]; [reflexivity |].
      inversion Hshort as [| ? ? Hw Hws]; subst. cbn [filter].
      destruct (Nat.ltb_spec 2 (py_len w)) as [Hlong | _]; [lia |].
      apply IH. exact Hws. }
    destruct scored as [| p ps]; [reflexivity |].
    assert (Hin : In p (Tools.scored_articles (Tools.query_terms query) (a :: rest)))
      by (rewrite Hdef; left; reflexivity).
    apply scored_articles_in in Hin. destruct Hin as (art & _ & Hpos & _).
    rewrite Hterms in Hpos. cbn in Hpos. lia.
  - intros Hsome.
    exists (firstn 3 (Tools.sort_desc scored)), (skipn 3 (Tools.sort_desc scored)).
    pose proof (sort_desc_perm scored) as Hperm.
    pose proof (sort_desc_sorted scored) as Hsorted.
    split; [| split; [| split; [| split; [| split; [| split]]]]].
    + unfold Tools.search_regulations. rewrite Hdef.
      destruct scored; [congruence | reflexivity].
    + rewrite firstn_skipn. exact Hperm.
    + rewrite length_firstn.
      pose proof (Permutation_length Hperm) as Hlen.
      destruct scored; [congruence |]. cbn [List.length] in Hlen. lia.
    + rewrite length_firstn. intros Hlt. apply skipn_all2. lia.
    + rewrite <- (firstn_skipn 3 (Tools.sort_desc scored)) in Hsorted.
      clear - Hsorted.
      induction (firstn 3 (Tools.sort_desc scored)) as [| x l IH];
        [constructor |].
      cbn [app] in Hsorted. inversion Hsorted as [| ? ? Hl Hx]; subst.
      constructor; [apply IH; exact Hl |].
      apply Forall_app in Hx. apply Hx.
    + intros p q Hp Hq.
      apply (firstn_sorted_top _ 3 (Tools.sort_desc scored) Hsorted p q Hp Hq).
    + intros p Hp. apply scored_articles_in. rewrite Hdef.
      apply (Permutation_in _ Hperm).
      rewrite <- (firstn_skipn 3 (Tools.sort_desc scored)).
      apply in_or_app. left. exact Hp.
Qed.

(** A query of short words finds nothing in the breach corpus. *)
Lemma search_regulations_witness :
  Tools.search_regulations "gdpr_structured.json" (Some breach_corpus)
    "is it ok" "GDPR"
  = "No articles found matching 'is it ok' in GDPR regulations.".
Proof.
  assert (Hshort : Forall (fun w => (py_len w <= 2)%nat)
                     (PyStr.split "is it ok")).
  { vm_compute. repeat constructor. }
  assert (Hquery : is_ascii "is it ok" = true) by (vm_compute; reflexivity).
  assert (Hcorpus : forallb ascii_article breach_corpus = true)
    by (vm_compute; reflexivity).
  destruct (search_regulations_top "gdpr_structured.json" "is it ok" "GDPR"
              (mkArticle (IdInt 4) (Some "Definitions")
                 [mkClause "12" "personal data breach means a breach of security"])
              (tl breach_corpus) Hquery Hcorpus) as (Hnone & Hempty & _).
  apply Hnone. apply Hempty. exact Hshort.
Defined.

(** Four articles match "data breach notification"; the three listed are
    Articles 33, 4 and 34, the fines article is left out. *)
Example search_breach_notification :
  map fst
    (firstn 3
       (Tools.sort_desc
          (Tools.scored_articles (Tools.query_terms "data breach notification")
             breach_corpus)))
  = [3; 2; 2]%nat
  /\ PyStr.str_in "Article 83"
       (Tools.search_regulations "gdpr_structured.json" (Some breach_corpus)
          "data breach notification" "GDPR")
     = false.
Proof. vm_compute. split; reflexivity. Qed.


(** ** What a retry is told *)

Section Retry_prompt.

Variable W : Collaborators.



End Retry_prompt.




(** ** Domains without a branch *)

Section Uncovered.

Variable W : Collaborators.

Lemma node_retrieve_uncovered (s : AgentState) (log : Log) :
  uncovered_domain (domain s) ->
  node_retrieve W s log = (Ok (with_retrieved_context "" no_update), log).
Proof.
  intros (Hg & Hf & Hc). unfold node_retrieve.
  destruct (String.eqb_spec (domain s) "GDPR"); [contradiction |].
  destruct (String.eqb_spec (domain s) "FDA"); [contradiction |].
  destruct (String.eqb_spec (domain s) "CCPA"); [contradiction |].
  reflexivity.
Qed.

(** The context a stage writes in such a domain. *)
Lemma context_written (n : Node) (s : AgentState) (log log' : Log) (u : Update) :
  uncovered_domain (domain s) -> n <> tool_executor ->
  run_node W n s log = (Ok u, log') ->
  match n with
  | retrieve => u_retrieved_context u = Some "" /\ log' = log
  | clarify =>
      u_retrieved_context u = None
      \/ exists sels,
           user_selections s = Some sels /\ sels <> []
           /\ u_retrieved_context u = Some (enrich (retrieved_context s) sels)
  | _ => u_retrieved_context u = None
  end.
Proof.
  intros Hdom Hn Hrun.
  destruct n; try contradiction;
    try (pose proof (run_node_shape W _ _ _ _ _ Hrun) as Hshape;
         inversion Hshape; subst u; reflexivity).
  - cbn [run_node] in Hrun. rewrite node_retrieve_uncovered in Hrun by exact Hdom.
    injection Hrun as <- <-. split; reflexivity.
  - cbn [run_node] in Hrun. unfold node_clarify in Hrun.
    destruct (user_selections s) as [[| x xs] |] eqn:Hsel.
    + left. pose proof (node_clarify_shape W s log u log') as Hshape.
      unfold node_clarify in Hshape. rewrite Hsel in Hshape.
      specialize (Hshape Hrun). inversion Hshape; subst u; try reflexivity.
      exfalso. clear Hshape.
      destruct (PyStr.any_in definition_keywords (PyStr.lower (user_query s)));
        inv_m; try discriminate.
      match goal with
      | x : ClarificationResponse |- _ =>
          destruct (cl_needs_clarification x), (cl_options x); inv_m; discriminate
      end.
    + right. exists (x :: xs). split; [reflexivity |]. split; [discriminate |].
      inv_m. reflexivity.
    + left. pose proof (node_clarify_shape W s log u log') as Hshape.
      unfold node_clarify in Hshape. rewrite Hsel in Hshape.
      specialize (Hshape Hrun). inversion Hshape; subst u; try reflexivity.
      exfalso. clear Hshape.
      destruct (PyStr.any_in definition_keywords (PyStr.lower (user_query s)));
        inv_m; try discriminate.
      match goal with
      | x : ClarificationResponse |- _ =>
          destruct (cl_needs_clarification x), (cl_options x); inv_m; discriminate
      end.
Qed.

Lemma contextless_step (dom : string) (sel : option (list string))
    (c c' : Config) :
  uncovered_domain dom -> tools_invariant c -> step W c = Ok c' ->
  contextless dom sel c -> contextless dom sel c'.
Proof.
  intros Hdom (_ & Hnot & _) Hstep (Hd & Hs & Hlog & Hctx).
  destruct (step_run W c c' Hstep) as (n & u & Hn & Hrun & Hstate & Ht).
  assert (Hn' : n <> tool_executor) by (intros ->; contradiction).
  destruct (run_node_log W n (cfg_state c) (cfg_log c) Hn')
    as (evs & Hevs & _ & Hsearch).
  rewrite Hrun in Hevs. cbn [snd] in Hevs.
  assert (Hdom' : uncovered_domain (domain (cfg_state c)))
    by (rewrite Hd; exact Hdom).
  pose proof (context_written n _ _ _ _ Hdom' Hn' Hrun) as Hwritten.
  apply next_target_cases in Ht.
  unfold contextless. rewrite Hstate.
  cbn [merge domain user_selections retrieved_context].
  split; [exact Hd |]. split; [exact Hs |].
  rewrite Hn in Hctx.
  destruct n; try contradiction; cbn [Node_eqb] in Hsearch;
    cbn [edge_cases] in Ht.
  - (* guardrail *)
    split; [rewrite Hevs, searches_app; lia |].
    rewrite Hwritten. cbn [or_else].
    destruct Ht as [[_ ->] | [[_ ->] | (_ & _ & ->)]];
      [left; exact Hctx | exact Hctx | exact Hctx].
  - (* chat *)
    split; [rewrite Hevs, searches_app; lia |].
    rewrite Hwritten, Ht. left. exact Hctx.
  - (* retrieve *)
    destruct Hwritten as [Hw ->]. split; [exact Hlog |].
    rewrite Hw, Ht. reflexivity.
  - (* clarify *)
    split; [rewrite Hevs, searches_app; lia |].
    assert (Hanswers : answers_only sel
                         (or_else (u_retrieved_context u)
                            (retrieved_context (cfg_state c)))).
    { destruct Hwritten as [-> | (sels & Hsels & Hne & ->)]; cbn [or_else].
      - left. exact Hctx.
      - right. exists sels. split; [congruence |]. split; [exact Hne |].
        rewrite Hctx. reflexivity. }
    destruct Ht as [[_ ->] | [_ ->]]; exact Hanswers.
  - (* llm *)
    split; [rewrite Hevs, searches_app; lia |].
    rewrite Hwritten. cbn [or_else].
    destruct Ht as [[_ ->] | [(_ & _ & ->) | (_ & _ & ->)]]; exact Hctx.
  - (* validator *)
    split; [rewrite Hevs, searches_app; lia |].
    rewrite Hwritten. cbn [or_else].
    destruct Ht as [[_ ->] | [(_ & _ & ->) | (_ & _ & ->)]]; exact Hctx.
  - split; [rewrite Hevs, searches_app; lia |].
    rewrite Hwritten, Ht. exact Hctx.
  - split; [rewrite Hevs, searches_app; lia |].
    rewrite Hwritten, Ht. exact Hctx.
  - split; [rewrite Hevs, searches_app; lia |].
    rewrite Hwritten, Ht. exact Hctx.
Qed.

Lemma contextless_reachable (history : list Message)
    (user_query dom thread_id : string) (sel : option (list string))
    (c : Config) :
  uncovered_domain dom ->
  reachable W (initial_state history user_query dom thread_id sel) c ->
  contextless dom sel c.
Proof.
  intros Hdom Hreach.
  assert (Hinit : initial (initial_state history user_query dom thread_id sel)).
  { exists history, user_query, dom, thread_id, sel. reflexivity. }
  induction Hreach as [| c c' Hreach IH Hstep].
  - repeat split; reflexivity.
  - apply (contextless_step dom sel c c' Hdom
             (tools_invariant_reachable W _ c Hinit Hreach) Hstep IH).
Qed.

End Uncovered.

(** X26. A turn in a domain other than GDPR, FDA and CCPA searches
    nothing: at every point no retrieval call has been made and the context
    is empty, or holds only the user's clarification answers.  The
    generation is then asked with the GDPR system prompt, the fallback of
    the prompt table. *)
Theorem uncovered_domain_turn (W : Collaborators) (history : list Message)
    (user_query dom thread_id : string) (sel : option (list string))
    (c : Config) :
  uncovered_domain dom ->
  reachable W (initial_state history user_query dom thread_id sel) c ->
  searches (cfg_log c) = 0%nat
  /\ answers_only sel (retrieved_context (cfg_state c))
  /\ exists guidance rest,
       llm_messages W (cfg_state c)
       = msg "system" (PROMPT_GDPR ++ guidance) :: rest.
Proof.
  intros Hdom Hreach.
  destruct (contextless_reachable W history user_query dom thread_id sel c
              Hdom Hreach) as (Hd & _ & Hlog & Hctx).
  split; [exact Hlog |]. split.
  - destruct (cfg_next c) as [[] |]; try exact Hctx; left; exact Hctx.
  - assert (Hprompt : PROMPTS_get (domain (cfg_state c)) = PROMPT_GDPR).
    { rewrite Hd. destruct Hdom as (Hg & Hf & Hc). unfold PROMPTS_get.
      destruct (String.eqb_spec dom "GDPR"); [contradiction |].
      destruct (String.eqb_spec dom "FDA"); [contradiction |].
      destruct (String.eqb_spec dom "CCPA"); [contradiction |].
      reflexivity. }
    unfold llm_messages. cbv zeta. rewrite Hprompt.
    match goal with
    | |- context [if ?b then _ else _] => destruct b
    end.
    + destruct (analysis (cfg_state c)) as [[| kv more] |];
        eexists; eexists; reflexivity.
    + eexists; eexists; reflexivity.
Qed.

(** A question asked in the domain HIPAA, at the point of generation. *)
Lemma uncovered_domain_witness :
  searches
    (cfg_log
       (Sample.after Sample.W
          (initial_state [] "we lost patient records" "HIPAA" "thread-1" None) 3))
  = 0%nat
  /\ retrieved_context
       (cfg_state
          (Sample.after Sample.W
             (initial_state [] "we lost patient records" "HIPAA" "thread-1" None) 3))
     = "".
Proof.
  assert (Hdom : uncovered_domain "HIPAA").
  { repeat split; discriminate. }
  assert (Hreach : reachable Sample.W
                     (initial_state [] "we lost patient records" "HIPAA"
                        "thread-1" None)
                     (Sample.after Sample.W
                        (initial_state [] "we lost patient records" "HIPAA"
                           "thread-1" None) 3)).
  { apply (steps_reachable Sample.W
             (initial_state [] "we lost patient records" "HIPAA" "thread-1" None)
             3
             (initial_config
                (initial_state [] "we lost patient records" "HIPAA" "thread-1"
                   None))).
    - apply reach_init.
    - vm_compute. reflexivity. }
  destruct (uncovered_domain_turn Sample.W [] "we lost patient records" "HIPAA"
              "thread-1" None _ Hdom Hreach) as (Hlog & Hctx & _).
  split; [exact Hlog |].
  destruct Hctx as [Hctx | (sels & Hsel & _)]; [exact Hctx | discriminate Hsel].
Defined.
